(** * Adquimo React SDK: the event pipeline, embedded and checked

    A shallow embedding of the TypeScript sources of the SDK core:
    [StorageManager], [UserManager], [SessionManager], [EventValidator],
    [TrackingManager], [NetworkManager] and the [AdquimoSDK] facade.

    The objects of one SDK instance share one [StorageManager]; the whole
    object graph is therefore one record, [world], and every method is a
    computation over it that either returns or throws.  The host (clock,
    uuid generator, interval timers, the network) is part of the record
    too, so that every run is a closed, executable term.

    Conventions.  Values that the sources type statically keep their
    type; values that pass through storage are dynamic ([jsval]), since
    what [JSON.parse] returns is not what was stored.  Numbers are
    integers.  An [async] method is its body run to completion: calls
    are awaited one after the other, except where a method is split at
    its [await] to let other code run in between ([flush]).  Logging
    has no effect on the state and is left out, as are the metadata of
    responses and the [details] of error objects.  Time passes only
    where the model says so: in [sleep] and in [elapse]. *)

From stdpp Require Import gmap strings list.
From Stdlib Require Import ZArith DecimalString Ascii String Lia.

Set Warnings "-register-all".
Open Scope Z_scope.

(* ================================================================== *)
(** * JavaScript values as the sources handle them *)
(* ================================================================== *)

Module JS.

(** Run-time values.  Numbers are the integer-valued ones (counts,
    millisecond stamps and delays); strings are ASCII.  [VDate ms] is a
    valid [Date] object holding [ms] milliseconds since the epoch. *)
Inductive jsval : Type :=
| VUndefined
| VNull
| VBool (b : bool)
| VNum (n : Z)
| VStr (s : string)
| VDate (ms : Z)
| VObj (fields : list (string * jsval)).

(** A JSON document: what [JSON.parse] can produce.  There is no date
    and no [undefined] in it. *)
Inductive json : Type :=
| JNull
| JBool (b : bool)
| JNumber (n : Z)
| JString (s : string)
| JObject (members : list (string * json)).

(** Thrown values.  [JsError] is an instance of [Error] (a [TypeError],
    [new Error(msg)], ...); [Adquimo] is a plain [AdquimoError] object
    literal, which is not an instance of [Error]. *)
Record AdquimoError : Type := mkError { code : string; message : string }.

Inductive exn : Type :=
| JsError (msg : string)
| Adquimo (e : AdquimoError)
| ThrownUndefined.

(** [error instanceof Error ? error.message : String(error)], the first
    line of every [createError] of the sources. *)
Definition message_of (e : exn) : string :=
  match e with
  | JsError msg => msg
  | Adquimo _ => "[object Object]"
  | ThrownUndefined => "undefined"
  end.

Definition createError (c : string) (e : exn) : exn :=
  Adquimo (mkError c (message_of e)).

(** ** Truthiness, property access, object spread *)

Definition truthy (v : jsval) : bool :=
  match v with
  | VUndefined | VNull => false
  | VBool b => b
  | VNum n => negb (n =? 0)
  | VStr s => negb (String.eqb s EmptyString)
  | VDate _ | VObj _ => true
  end.

(** [a || b] *)
Definition or_else (a b : jsval) : jsval := if truthy a then a else b.

Fixpoint assoc_get {A : Type} (k : string) (l : list (string * A)) : option A :=
  match l with
  | [] => None
  | (k', v) :: r => if String.eqb k k' then Some v else assoc_get k r
  end.

(** Writing a property keeps the position of an existing key and
    appends a new one, as an object literal with a spread does. *)
Fixpoint assoc_set {A : Type} (k : string) (v : A) (l : list (string * A))
  : list (string * A) :=
  match l with
  | [] => [(k, v)]
  | (k', v') :: r =>
      if String.eqb k k' then (k, v) :: r else (k', v') :: assoc_set k v r
  end.

Definition string_of_Z (n : Z) : string := NilZero.string_of_int (Z.to_int n).

Fixpoint chars_from (i : nat) (s : string) : list (string * jsval) :=
  match s with
  | EmptyString => []
  | String c r =>
      (string_of_Z (Z.of_nat i), VStr (String c EmptyString)) :: chars_from (S i) r
  end.

(** The own enumerable properties copied by [{...v}]. *)
Definition own_fields (v : jsval) : list (string * jsval) :=
  match v with
  | VObj fs => fs
  | VStr s => chars_from 0 s
  | _ => []
  end.

(** [{...base, k1: v1, ...}] *)
Definition spread (base : jsval) (updates : list (string * jsval)) : jsval :=
  VObj (fold_left (fun acc kv => assoc_set kv.1 kv.2 acc) updates (own_fields base)).

(** [v.k]: a [TypeError] on [null] and [undefined], [undefined] for a
    missing property.  No property named in the sources lives on a
    string, number, boolean or date prototype. *)
Definition get_prop (v : jsval) (k : string) : exn + jsval :=
  match v with
  | VUndefined | VNull =>
      inl (JsError ("Cannot read properties of null or undefined: " +:+ k))
  | VObj fs => inr (default VUndefined (assoc_get k fs))
  | _ => inr VUndefined
  end.

(** [v?.k] *)
Definition get_prop_opt (v : jsval) (k : string) : jsval :=
  match v with
  | VObj fs => default VUndefined (assoc_get k fs)
  | _ => VUndefined
  end.

(** [v.getTime()]: only a [Date] has the method; on any other value
    the call is a [TypeError]. *)
Definition getTime (v : jsval) : exn + Z :=
  match v with
  | VDate ms => inr ms
  | VUndefined | VNull =>
      inl (JsError "Cannot read properties of null or undefined: getTime")
  | _ => inl (JsError "getTime is not a function")
  end.

(** ** Dates in ISO 8601, as [Date.prototype.toJSON] prints them *)

Fixpoint zeros (n : nat) : string :=
  match n with O => EmptyString | S m => String "0" (zeros m) end.

(** Decimal text of [n >= 0], left-padded with zeros to [width]. *)
Definition pad (width : nat) (n : Z) : string :=
  let s := string_of_Z n in
  zeros (width - String.length s) +:+ s.

(** Year, month and day of the day number [z] (days since 1970-01-01),
    in the proleptic Gregorian calendar. *)
Definition civil_from_days (z : Z) : Z * Z * Z :=
  let z := z + 719468 in
  let era := z / 146097 in
  let doe := z - era * 146097 in
  let yoe := (doe - doe / 1460 + doe / 36524 - doe / 146096) / 365 in
  let doy := doe - (365 * yoe + yoe / 4 - yoe / 100) in
  let mp := (5 * doy + 2) / 153 in
  let d := doy - (153 * mp + 2) / 5 + 1 in
  let m := if mp <? 10 then mp + 3 else mp - 9 in
  let y := yoe + era * 400 + (if m <=? 2 then 1 else 0) in
  (y, m, d).

Definition year_text (y : Z) : string :=
  if (0 <=? y) && (y <=? 9999) then pad 4 y
  else (if y <? 0 then "-" else "+") +:+ pad 6 (Z.abs y).

Definition toISOString (ms : Z) : string :=
  let r := ms mod 86400000 in
  let '(y, m, d) := civil_from_days (ms / 86400000) in
  year_text y +:+ "-" +:+ pad 2 m +:+ "-" +:+ pad 2 d +:+ "T"
    +:+ pad 2 (r / 3600000) +:+ ":" +:+ pad 2 (r / 60000 mod 60) +:+ ":"
    +:+ pad 2 (r / 1000 mod 60) +:+ "." +:+ pad 3 (r mod 1000) +:+ "Z".

(** ** JSON.stringify and JSON.parse *)

(** The document [JSON.stringify] writes for a value: a date becomes
    its ISO string, a property holding [undefined] is left out.  [None]
    is the [undefined] that [JSON.stringify(undefined)] returns. *)
Fixpoint to_json (v : jsval) : option json :=
  match v with
  | VUndefined => None
  | VNull => Some JNull
  | VBool b => Some (JBool b)
  | VNum n => Some (JNumber n)
  | VStr s => Some (JString s)
  | VDate ms => Some (JString (toISOString ms))
  | VObj fs =>
      Some (JObject
        ((fix members (l : list (string * jsval)) : list (string * json) :=
            match l with
            | [] => []
            | (k, x) :: r =>
                match to_json x with
                | Some j => (k, j) :: members r
                | None => members r
                end
            end) fs))
  end.

(** The value [JSON.parse] builds from a document.  It never holds a
    [VDate]: a date written by [to_json] comes back as a string. *)
Fixpoint of_json (j : json) : jsval :=
  match j with
  | JNull => VNull
  | JBool b => VBool b
  | JNumber n => VNum n
  | JString s => VStr s
  | JObject ms => VObj (map (fun kv => (kv.1, of_json kv.2)) ms)
  end.

Definition dquote : string := String (ascii_of_nat 34) EmptyString.

Definition hex_digit (n : nat) : ascii :=
  ascii_of_nat (if (n <? 10)%nat then 48 + n else 87 + n)%nat.

(** One character inside a JSON string literal. *)
Definition escape_char (c : ascii) : string :=
  let n := nat_of_ascii c in
  if (n =? 34)%nat then String "\" dquote
  else if (n =? 92)%nat then "\\"
  else if (n =? 8)%nat then "\b"
  else if (n =? 9)%nat then "\t"
  else if (n =? 10)%nat then "\n"
  else if (n =? 12)%nat then "\f"
  else if (n =? 13)%nat then "\r"
  else if (n <? 32)%nat then
    "\u00" +:+ String (hex_digit (n / 16)) (String (hex_digit (n mod 16)) EmptyString)
  else String c EmptyString.

Fixpoint escape (s : string) : string :=
  match s with
  | EmptyString => EmptyString
  | String c r => escape_char c +:+ escape r
  end.

Definition quote (s : string) : string := dquote +:+ escape s +:+ dquote.

(** The text of a document, as [JSON.stringify] prints it (no blanks). *)
Fixpoint json_text (j : json) : string :=
  match j with
  | JNull => "null"
  | JBool true => "true"
  | JBool false => "false"
  | JNumber n => string_of_Z n
  | JString s => quote s
  | JObject ms =>
      "{" +:+
      (fix members (first : bool) (l : list (string * json)) : string :=
         match l with
         | [] => EmptyString
         | (k, x) :: r =>
             (if first then EmptyString else ",") +:+ quote k +:+ ":"
               +:+ json_text x +:+ members false r
         end) true ms
      +:+ "}"
  end.

(** ** String helpers of the sources *)

(** [s.startsWith(p)] *)
Fixpoint startsWith (p s : string) : bool :=
  match p, s with
  | EmptyString, _ => true
  | String a p', String b s' => if Ascii.eqb a b then startsWith p' s' else false
  | String _ _, EmptyString => false
  end.

(** [s.substring(n)] *)
Fixpoint substring_from (n : nat) (s : string) : string :=
  match n, s with
  | O, _ => s
  | S m, String _ s' => substring_from m s'
  | S _, EmptyString => EmptyString
  end.

Definition is_space (c : ascii) : bool :=
  let n := nat_of_ascii c in
  ((n =? 32) || ((9 <=? n) && (n <=? 13)))%nat.

Fixpoint all_chars (p : ascii -> bool) (s : string) : bool :=
  match s with
  | EmptyString => true
  | String c r => p c && all_chars p r
  end.

(** [s.trim() === ''] *)
Definition trim_is_empty (s : string) : bool := all_chars is_space s.

End JS.

(* ================================================================== *)
(** * The types of [types/index.ts] and the state of one SDK instance *)
(* ================================================================== *)

Module Types.
Import JS.

Inductive StorageType : Type := localStorage | sessionStorage | memory.

Record RetryConfig : Type := mkRetry {
  maxRetries : Z;
  initialDelay : Z;
  maxDelay : Z;
  backoffMultiplier : Z
}.

Record StorageConfig : Type := mkStorageConfig {
  type : StorageType;
  keyPrefix : string;
  maxSize : Z
}.

(** [Required<AdquimoConfig>], the fields the pipeline reads. *)
Record AdquimoConfig : Type := mkConfig {
  apiKey : string;
  baseUrl : string;
  autoTrackPageViews : bool;
  autoTrackSessions : bool;
  batchSize : Z;
  flushInterval : Z;
  retryConfig : RetryConfig;
  storageConfig : StorageConfig
}.

(** [ADQUIMO_CONSTANTS] *)
Definition VERSION : string := "1.0.0".
Definition DEFAULT_BASE_URL : string := "https://api.adquimo.com".
Definition DEFAULT_BATCH_SIZE : Z := 50.
Definition DEFAULT_FLUSH_INTERVAL : Z := 10000.
Definition DEFAULT_RETRY_ATTEMPTS : Z := 3.
Definition DEFAULT_RETRY_DELAY : Z := 1000.
Definition MAX_EVENT_PROPERTIES : nat := 100.
Definition MAX_USER_PROPERTIES : nat := 50.
Definition MAX_SESSION_PROPERTIES : nat := 25.
Definition USER_ID : string := "adquimo_user_id".
Definition SESSION_ID : string := "adquimo_session_id".
Definition USER_PROPERTIES : string := "adquimo_user_properties".
Definition SESSION_PROPERTIES : string := "adquimo_session_properties".

(** [Event]: the statically typed fields are typed here as well;
    [properties], [userId] and [sessionId] hold whatever the caller or
    the stores put there. *)
Record Event : Type := mkEvent {
  ev_id : string;
  ev_name : string;
  ev_category : option string;
  ev_action : option string;
  ev_label : option string;
  ev_value : option Z;
  ev_properties : jsval;
  ev_userId : jsval;
  ev_sessionId : jsval;
  ev_timestamp : Z;
  ev_source : string;
  ev_version : string
}.

Record PageView : Type := mkPageView {
  pv_id : string;
  pv_url : string;
  pv_title : option string;
  pv_referrer : option string;
  pv_properties : jsval;
  pv_userId : jsval;
  pv_sessionId : jsval;
  pv_timestamp : Z;
  pv_timeOnPage : Z
}.

Record ClickEvent : Type := mkClick {
  ck_id : string;
  ck_element : string;
  ck_selector : option string;
  ck_text : option string;
  ck_properties : jsval;
  ck_userId : jsval;
  ck_sessionId : jsval;
  ck_timestamp : Z;
  ck_coordinates : jsval
}.

Record BatchRequest : Type := mkBatch {
  batch_id : string;
  batch_events : list Event;
  batch_timestamp : Z;
  batch_size : nat
}.

(** [ApiResponse]; the metadata (time stamp, request id, version) is
    not kept. *)
Record ApiResponse : Type := mkApiResponse {
  success : bool;
  data : jsval;
  error : option AdquimoError
}.

(** What one call of [fetch] does: it rejects (network failure,
    abort on time-out), or it resolves with a response.  [bodyJson] is
    the document [JSON.parse] reads from [bodyText], [None] when the
    text is not JSON. *)
Record Response : Type := mkResponse {
  status : Z;
  statusText : string;
  bodyText : string;
  bodyJson : option json
}.

Inductive FetchOutcome : Type :=
| Rejects (msg : string)
| Resolves (r : Response).

(** The callbacks are opaque functions of the caller, taken not to
    throw: a registered one is a tag, and each call of it is recorded. *)
Record Callbacks : Type := mkCallbacks {
  onEvent : option nat;
  onError : option nat;
  onSuccess : option nat
}.

Inductive Call : Type :=
| CallOnEvent (h : nat) (e : Event)
| CallOnError (h : nat) (err : exn)
| CallOnSuccess (h : nat) (arg : jsval).

(** The host: what the device and browser probes of [SessionManager]
    collect, and what the [n]-th call of [fetch] does. *)
Record Host : Type := mkHost {
  device : jsval;
  browser : jsval;
  fetch : nat -> FetchOutcome
}.

(** One SDK instance and its host.  The first block is the host, the
    second the fields of the managers, the third those of the facade. *)
Record world : Type := mkWorld {
  host : Host; (* the host environment (never changes) *)
  config : AdquimoConfig; (* [this.config], merged with the defaults *)
  clock : Z; (* [Date.now()] *)
  uuids : nat; (* how many ids [uuidv4] has handed out *)
  nextTimer : nat; (* the next handle of [setInterval] *)
  intervals : list nat; (* the live interval timers *)
  fetchCount : nat; (* how many times [fetch] was called *)
  received : list BatchRequest; (* the batches the collector answered with a success status *)
  sent : list BatchRequest; (* the batches handed to [sendBatch], oldest first *)
  slept : list Z; (* the delays slept by the retry loop, oldest first *)
  calls : list Call; (* the callbacks invoked, oldest first *)
  storage : gmap string json; (* the backend of the [StorageManager] *)
  currentUser : jsval; (* [UserManager.currentUser] *)
  currentSession : jsval; (* [SessionManager.currentSession] *)
  sessionStartTime : jsval; (* [SessionManager.sessionStartTime] *)
  isInitialized : bool; (* [AdquimoSDK.isInitialized] *)
  flushTimer : option nat; (* [AdquimoSDK.flushTimer] *)
  eventQueue : list Event; (* [AdquimoSDK.eventQueue] *)
  callbacks : Callbacks (* [AdquimoSDK.callbacks] *)
}.

Definition set_clock (x : Z) (w : world) : world :=
  mkWorld (host w) (config w) x (uuids w) (nextTimer w) (intervals w)
    (fetchCount w) (received w) (sent w) (slept w) (calls w) (storage w)
    (currentUser w) (currentSession w) (sessionStartTime w)
    (isInitialized w) (flushTimer w) (eventQueue w) (callbacks w).

Definition set_uuids (x : nat) (w : world) : world :=
  mkWorld (host w) (config w) (clock w) x (nextTimer w) (intervals w)
    (fetchCount w) (received w) (sent w) (slept w) (calls w) (storage w)
    (currentUser w) (currentSession w) (sessionStartTime w)
    (isInitialized w) (flushTimer w) (eventQueue w) (callbacks w).

Definition set_nextTimer (x : nat) (w : world) : world :=
  mkWorld (host w) (config w) (clock w) (uuids w) x (intervals w)
    (fetchCount w) (received w) (sent w) (slept w) (calls w) (storage w)
    (currentUser w) (currentSession w) (sessionStartTime w)
    (isInitialized w) (flushTimer w) (eventQueue w) (callbacks w).

Definition set_intervals (x : list nat) (w : world) : world :=
  mkWorld (host w) (config w) (clock w) (uuids w) (nextTimer w) x
    (fetchCount w) (received w) (sent w) (slept w) (calls w) (storage w)
    (currentUser w) (currentSession w) (sessionStartTime w)
    (isInitialized w) (flushTimer w) (eventQueue w) (callbacks w).

Definition set_fetchCount (x : nat) (w : world) : world :=
  mkWorld (host w) (config w) (clock w) (uuids w) (nextTimer w)
    (intervals w) x (received w) (sent w) (slept w) (calls w) (storage w)
    (currentUser w) (currentSession w) (sessionStartTime w)
    (isInitialized w) (flushTimer w) (eventQueue w) (callbacks w).

Definition set_received (x : list BatchRequest) (w : world) : world :=
  mkWorld (host w) (config w) (clock w) (uuids w) (nextTimer w)
    (intervals w) (fetchCount w) x (sent w) (slept w) (calls w)
    (storage w) (currentUser w) (currentSession w) (sessionStartTime w)
    (isInitialized w) (flushTimer w) (eventQueue w) (callbacks w).

Definition set_sent (x : list BatchRequest) (w : world) : world :=
  mkWorld (host w) (config w) (clock w) (uuids w) (nextTimer w)
    (intervals w) (fetchCount w) (received w) x (slept w) (calls w)
    (storage w) (currentUser w) (currentSession w) (sessionStartTime w)
    (isInitialized w) (flushTimer w) (eventQueue w) (callbacks w).

Definition set_slept (x : list Z) (w : world) : world :=
  mkWorld (host w) (config w) (clock w) (uuids w) (nextTimer w)
    (intervals w) (fetchCount w) (received w) (sent w) x (calls w)
    (storage w) (currentUser w) (currentSession w) (sessionStartTime w)
    (isInitialized w) (flushTimer w) (eventQueue w) (callbacks w).

Definition set_calls (x : list Call) (w : world) : world :=
  mkWorld (host w) (config w) (clock w) (uuids w) (nextTimer w)
    (intervals w) (fetchCount w) (received w) (sent w) (slept w) x
    (storage w) (currentUser w) (currentSession w) (sessionStartTime w)
    (isInitialized w) (flushTimer w) (eventQueue w) (callbacks w).

Definition set_storage (x : gmap string json) (w : world) : world :=
  mkWorld (host w) (config w) (clock w) (uuids w) (nextTimer w)
    (intervals w) (fetchCount w) (received w) (sent w) (slept w) (calls w)
    x (currentUser w) (currentSession w) (sessionStartTime w)
    (isInitialized w) (flushTimer w) (eventQueue w) (callbacks w).

Definition set_currentUser (x : jsval) (w : world) : world :=
  mkWorld (host w) (config w) (clock w) (uuids w) (nextTimer w)
    (intervals w) (fetchCount w) (received w) (sent w) (slept w) (calls w)
    (storage w) x (currentSession w) (sessionStartTime w)
    (isInitialized w) (flushTimer w) (eventQueue w) (callbacks w).

Definition set_currentSession (x : jsval) (w : world) : world :=
  mkWorld (host w) (config w) (clock w) (uuids w) (nextTimer w)
    (intervals w) (fetchCount w) (received w) (sent w) (slept w) (calls w)
    (storage w) (currentUser w) x (sessionStartTime w) (isInitialized w)
    (flushTimer w) (eventQueue w) (callbacks w).

Definition set_sessionStartTime (x : jsval) (w : world) : world :=
  mkWorld (host w) (config w) (clock w) (uuids w) (nextTimer w)
    (intervals w) (fetchCount w) (received w) (sent w) (slept w) (calls w)
    (storage w) (currentUser w) (currentSession w) x (isInitialized w)
    (flushTimer w) (eventQueue w) (callbacks w).

Definition set_isInitialized (x : bool) (w : world) : world :=
  mkWorld (host w) (config w) (clock w) (uuids w) (nextTimer w)
    (intervals w) (fetchCount w) (received w) (sent w) (slept w) (calls w)
    (storage w) (currentUser w) (currentSession w) (sessionStartTime w) x
    (flushTimer w) (eventQueue w) (callbacks w).

Definition set_flushTimer (x : option nat) (w : world) : world :=
  mkWorld (host w) (config w) (clock w) (uuids w) (nextTimer w)
    (intervals w) (fetchCount w) (received w) (sent w) (slept w) (calls w)
    (storage w) (currentUser w) (currentSession w) (sessionStartTime w)
    (isInitialized w) x (eventQueue w) (callbacks w).

Definition set_eventQueue (x : list Event) (w : world) : world :=
  mkWorld (host w) (config w) (clock w) (uuids w) (nextTimer w)
    (intervals w) (fetchCount w) (received w) (sent w) (slept w) (calls w)
    (storage w) (currentUser w) (currentSession w) (sessionStartTime w)
    (isInitialized w) (flushTimer w) x (callbacks w).

Definition set_callbacks (x : Callbacks) (w : world) : world :=
  mkWorld (host w) (config w) (clock w) (uuids w) (nextTimer w)
    (intervals w) (fetchCount w) (received w) (sent w) (slept w) (calls w)
    (storage w) (currentUser w) (currentSession w) (sessionStartTime w)
    (isInitialized w) (flushTimer w) (eventQueue w) x.

End Types.

(* ================================================================== *)
(** * Computations that return or throw *)
(* ================================================================== *)

Module Run.
Import JS Types.

(** A method body: from a state to a result (a thrown value on the
    left) and the state it leaves.  A throw keeps the writes made
    before it. *)
Definition M (A : Type) : Type := world -> (exn + A) * world.

Definition ret {A : Type} (a : A) : M A := fun w => (inr a, w).
Definition throw {A : Type} (e : exn) : M A := fun w => (inl e, w).

Definition bind {A B : Type} (m : M A) (k : A -> M B) : M B :=
  fun w =>
    match m w with
    | (inr a, w') => k a w'
    | (inl e, w') => (inl e, w')
    end.

(** [try { body } catch (error) { handler }] *)
Definition try_catch {A : Type} (body : M A) (handler : exn -> M A) : M A :=
  fun w =>
    match body w with
    | (inl e, w') => handler e w'
    | r => r
    end.

Definition gets {A : Type} (f : world -> A) : M A := fun w => (inr (f w), w).
Definition modify (f : world -> world) : M unit := fun w => (inr tt, f w).

(** A pure step that may throw (a property read, a method call). *)
Definition lift {A : Type} (r : exn + A) : M A := fun w => (r, w).

(** [throw new Error(msg)] *)
Definition throw_new_Error {A : Type} (msg : string) : M A := throw (JsError msg).

End Run.

Declare Scope run_scope.
Delimit Scope run_scope with run.
Notation "'let*' x ':=' m 'in' k" := (Run.bind m (fun x => k))
  (at level 10, x name, m at level 100, k at level 200, only parsing) : run_scope.

(* ================================================================== *)
(** * The host: clock, uuid generator, timers *)
(* ================================================================== *)

Module HostOps.
Import JS Types Run.
Local Open Scope run_scope.

(** [uuidv4()]: the [n]-th id handed out.  Ids are fresh: two calls
    never return the same one. *)
Definition uuid_of (n : nat) : string := "uuid-" +:+ string_of_Z (Z.of_nat n).

Definition uuidv4 : M string :=
  let* n := gets uuids in
  let* _ := modify (set_uuids (S n)) in
  ret (uuid_of n).

(** [new Date()] / [Date.now()] *)
Definition now : M Z := gets clock.

(** [await sleep(ms)]: the delay is recorded and the clock moves on. *)
Definition sleep (ms : Z) : M unit :=
  modify (fun w => set_slept (slept w ++ [ms]) (set_clock (clock w + ms) w)).

(** Time passing between two calls of the SDK. *)
Definition elapse (ms : Z) (w : world) : world := set_clock (clock w + ms) w.

Definition setInterval : M nat :=
  let* h := gets nextTimer in
  let* _ := modify (fun w => set_intervals (h :: intervals w) (set_nextTimer (S h) w)) in
  ret h.

Definition clearInterval (h : nat) : M unit :=
  modify (fun w => set_intervals (List.filter (fun x => negb (Nat.eqb x h)) (intervals w)) w).

Definition invoke (c : option Call) : M unit :=
  match c with
  | Some call => modify (fun w => set_calls (calls w ++ [call]) w)
  | None => ret tt
  end.

End HostOps.

(* ================================================================== *)
(** * utils/StorageManager.ts *)
(* ================================================================== *)

Module StorageManager.
Import JS Types Run HostOps.
Local Open Scope run_scope.

(** The backend ([localStorage], [sessionStorage] or a [Map]) maps a
    full key to a text.  Every text the SDK stores is written by [set]
    with [JSON.stringify] and read back with [JSON.parse]; a stored
    text is kept here as the JSON document it denotes, and its length
    is the length of [json_text].  The three backends answer
    [getItem], [setItem] and [removeItem] alike; a backend that
    refuses a write (quota) is not modelled. *)

Definition cfg (w : world) : StorageConfig := storageConfig (config w).

Definition getItem (fullKey : string) : M (option json) :=
  gets (fun w => storage w !! fullKey).

Definition setItem (fullKey : string) (text : json) : M unit :=
  modify (fun w => set_storage (<[fullKey := text]> (storage w)) w).

Definition removeItem (fullKey : string) : M unit :=
  modify (fun w => set_storage (delete fullKey (storage w)) w).

(** [getFullKey] *)
Definition getFullKey (key : string) : M string :=
  gets (fun w => keyPrefix (cfg w) +:+ key).

(** [testStorage] writes the text [test] under the key [test], reads
    it back, compares and removes it.  The backends modelled always
    return what was written, so all that remains is the removal. *)
Definition testStorage : M unit :=
  try_catch
    (let* testKey := getFullKey "test" in
     removeItem testKey)
    (fun error => throw_new_Error "Storage not available").

Definition initialize : M unit :=
  try_catch testStorage
    (fun error => throw (createError "STORAGE_INIT_ERROR" error)).

Definition ttl_arg (ttl : option Z) : jsval :=
  match ttl with Some n => VNum n | None => VUndefined end.

(** [set(key, value, ttl?)] *)
Definition set (key : string) (value : jsval) (ttl : option Z) : M unit :=
  try_catch
    (let* fullKey := getFullKey key in
     let* t := now in
     let item :=
       VObj [("key", VStr fullKey); ("value", value); ("timestamp", VDate t);
             ("ttl", or_else (ttl_arg ttl) VUndefined)] in
     match to_json item with
     | None => throw (JsError "Cannot read properties of undefined: length")
     | Some serializedValue =>
         let* max := gets (fun w => maxSize (cfg w)) in
         if negb (max =? 0)
            && (max <? Z.of_nat (String.length (json_text serializedValue)))
         then throw_new_Error "Value exceeds maximum storage size"
         else setItem fullKey serializedValue
     end)
    (fun error => throw (createError "STORAGE_SET_ERROR" error)).

(** [remove(key)] *)
Definition remove (key : string) : M unit :=
  try_catch
    (let* fullKey := getFullKey key in
     removeItem fullKey)
    (fun error => throw (createError "STORAGE_REMOVE_ERROR" error)).

(** [left > right] where [right] is any value.  A [ttl] written by
    [set] is a number. *)
Definition gt_value (left : Z) (right : jsval) : bool :=
  match right with
  | VNum n => n <? left
  | VBool true => 1 <? left
  | VBool false | VNull => 0 <? left
  | _ => false
  end.

(** [get(key)] *)
Definition get (key : string) : M jsval :=
  try_catch
    (let* fullKey := getFullKey key in
     let* serializedValue := getItem fullKey in
     match serializedValue with
     | None => ret VNull
     | Some text =>
         let item := of_json text in
         (* if (item.ttl && Date.now() - item.timestamp.getTime() > item.ttl) *)
         let* ttl := lift (get_prop item "ttl") in
         let* expired :=
           (if truthy ttl then
              let* t := now in
              let* timestamp := lift (get_prop item "timestamp") in
              let* stamp := lift (getTime timestamp) in
              ret (gt_value (t - stamp) ttl)
            else ret false) in
         if expired then
           let* _ := remove key in
           ret VNull
         else lift (get_prop item "value")
     end)
    (fun error => throw (createError "STORAGE_GET_ERROR" error)).

(** [getKeys()] *)
Definition getKeys : M (list string) :=
  try_catch
    (gets (fun w =>
       let keys := elements (dom (storage w)) in
       map (substring_from (String.length (keyPrefix (cfg w))))
           (List.filter (startsWith (keyPrefix (cfg w))) keys)))
    (fun error => throw (createError "STORAGE_KEYS_ERROR" error)).

End StorageManager.

(* ================================================================== *)
(** * Property validation shared by the user and session stores *)
(* ================================================================== *)

Module Properties.
Import JS Types Run.
Local Open Scope run_scope.

Definition is_name_char (c : ascii) : bool :=
  let n := nat_of_ascii c in
  (((48 <=? n) && (n <=? 57)) || ((65 <=? n) && (n <=? 90))
   || ((97 <=? n) && (n <=? 122)) || (n =? 95) || (n =? 45))%nat.

(** [/^[a-zA-Z0-9_-]+$/.test(s)] *)
Definition matches_name (s : string) : bool :=
  negb (String.eqb s EmptyString) && all_chars is_name_char s.

Definition isValidPropertyKey (key : string) : bool := matches_name key.

Definition isValidPropertyValue (value : jsval) : bool :=
  match value with
  | VStr _ | VNum _ | VBool _ | VNull => true
  | _ => false
  end.

(** [typeof v === 'object'] *)
Definition typeof_object (v : jsval) : bool :=
  match v with
  | VNull | VDate _ | VObj _ => true
  | _ => false
  end.

(** [Object.entries(v)] of an object *)
Definition entries (v : jsval) : list (string * jsval) :=
  match v with
  | VObj fs => fs
  | _ => []
  end.

Fixpoint validate_each (l : list (string * jsval)) : M unit :=
  match l with
  | [] => ret tt
  | (key, value) :: r =>
      if negb (isValidPropertyKey key) then
        throw_new_Error ("Invalid property key: " +:+ key
          +:+ ". Keys must be alphanumeric with underscores and hyphens")
      else if negb (isValidPropertyValue value) then
        throw_new_Error ("Invalid property value for key " +:+ key
          +:+ ". Values must be strings, numbers, booleans, or null")
      else validate_each r
  end.

(** [validateUserProperties] and [validateSessionProperties]: the same
    body with a different ceiling and noun. *)
Definition validateProperties (noun : string) (limit : nat) (properties : jsval)
  : M unit :=
  if negb (truthy properties) || negb (typeof_object properties) then
    throw_new_Error (noun +:+ " properties must be an object")
  else if (limit <? List.length (entries properties))%nat then
    throw_new_Error (noun +:+ " properties exceed maximum limit of "
      +:+ string_of_Z (Z.of_nat limit))
  else validate_each (entries properties).

End Properties.

(* ================================================================== *)
(** * user/UserManager.ts *)
(* ================================================================== *)

Module UserManager.
Import JS Types Run HostOps Properties.
Local Open Scope run_scope.

Definition validateUserProperties (properties : jsval) : M unit :=
  validateProperties "User" MAX_USER_PROPERTIES properties.

Definition createAnonymousUser : M unit :=
  try_catch
    (let* anonymousId := uuidv4 in
     let* t := now in
     let anonymousUser :=
       VObj [("id", VStr anonymousId); ("properties", VObj []);
             ("createdAt", VDate t); ("lastSeenAt", VDate t)] in
     let* _ := StorageManager.set USER_ID anonymousUser None in
     modify (set_currentUser anonymousUser))
    (fun error => throw (createError "ANONYMOUS_USER_ERROR" error)).

Definition initialize : M unit :=
  try_catch
    (let* storedUser := StorageManager.get USER_ID in
     if truthy storedUser then modify (set_currentUser storedUser)
     else createAnonymousUser)
    (fun error => throw (createError "USER_INIT_ERROR" error)).

(** [identify(userId, properties?)] *)
Definition identify (userId : string) (properties : jsval) : M unit :=
  try_catch
    (if String.eqb userId EmptyString || trim_is_empty userId then
       throw_new_Error "User ID is required and must be a non-empty string"
     else
       let* t := now in
       let* current := gets currentUser in
       let* user :=
         (if truthy current then
            let* old := lift (get_prop current "properties") in
            ret (spread current
                   [("id", VStr userId);
                    ("properties", spread old (own_fields properties));
                    ("lastSeenAt", VDate t)])
          else
            ret (VObj [("id", VStr userId);
                       ("properties", or_else properties (VObj []));
                       ("createdAt", VDate t); ("lastSeenAt", VDate t)])) in
       let* props := lift (get_prop user "properties") in
       let* _ := validateUserProperties (or_else props (VObj [])) in
       let* _ := StorageManager.set USER_ID user None in
       modify (set_currentUser user))
    (fun error => throw (createError "USER_IDENTIFY_ERROR" error)).

Definition anonymous_key (anonymousId : string) : string :=
  "anonymous_" +:+ anonymousId.

(** [alias(anonymousId, userId)] *)
Definition alias (anonymousId userId : string) : M unit :=
  try_catch
    (if String.eqb anonymousId EmptyString || String.eqb userId EmptyString then
       throw_new_Error "Both anonymous ID and user ID are required"
     else
       let* anonymousUser := StorageManager.get (anonymous_key anonymousId) in
       if negb (truthy anonymousUser) then
         throw_new_Error "Anonymous user not found"
       else
         let* t := now in
         let user :=
           spread anonymousUser [("id", VStr userId); ("lastSeenAt", VDate t)] in
         let* _ := StorageManager.set USER_ID user None in
         let* _ := modify (set_currentUser user) in
         StorageManager.remove (anonymous_key anonymousId))
    (fun error => throw (createError "USER_ALIAS_ERROR" error)).

Definition getCurrentUser : M jsval := gets currentUser.

(** [this.currentUser?.id || null] *)
Definition getUserId : M jsval :=
  gets (fun w => or_else (get_prop_opt (currentUser w) "id") VNull).

Definition reset : M unit :=
  try_catch
    (let* _ := modify (set_currentUser VNull) in
     let* _ := StorageManager.remove USER_ID in
     let* _ := StorageManager.remove USER_PROPERTIES in
     createAnonymousUser)
    (fun error => throw (createError "USER_RESET_ERROR" error)).

End UserManager.

(* ================================================================== *)
(** * user/SessionManager.ts *)
(* ================================================================== *)

Module SessionManager.
Import JS Types Run HostOps Properties.
Local Open Scope run_scope.

(** The probes read the browser; what they find is the host's. *)
Definition getDeviceInfo : M jsval := gets (fun w => device (host w)).
Definition getBrowserInfo : M jsval := gets (fun w => browser (host w)).
Definition getLocationInfo : M jsval := ret VUndefined.

Definition createNewSession (userId properties : jsval) : M jsval :=
  try_catch
    (let* sessionId := uuidv4 in
     let* t := now in
     let* dev := getDeviceInfo in
     let* brw := getBrowserInfo in
     let* loc := getLocationInfo in
     let session :=
       VObj [("id", VStr sessionId);
             ("userId", or_else userId (VStr "anonymous"));
             ("startTime", VDate t);
             ("properties", or_else properties (VObj []));
             ("device", dev); ("browser", brw); ("location", loc)] in
     let* _ := StorageManager.set SESSION_ID session None in
     let* _ := modify (set_currentSession session) in
     let* _ := modify (set_sessionStartTime (VDate t)) in
     ret session)
    (fun error => throw (createError "SESSION_CREATE_ERROR" error)).

(** 30 minutes, in milliseconds *)
Definition maxInactivity : Z := 30 * 60 * 1000.

(** [isSessionValid(session)] *)
Definition isSessionValid (session : jsval) : M bool :=
  let* startTime := lift (get_prop session "startTime") in
  if negb (truthy startTime) then ret false
  else
    let* t := now in
    let* start := lift (getTime startTime) in
    let timeSinceStart := t - start in
    ret (timeSinceStart <? maxInactivity).

Definition initialize : M unit :=
  try_catch
    (let* storedSession := StorageManager.get SESSION_ID in
     if truthy storedSession then
       let* valid := isSessionValid storedSession in
       if valid then
         let* _ := modify (set_currentSession storedSession) in
         let* startTime := lift (get_prop storedSession "startTime") in
         modify (set_sessionStartTime startTime)
       else
         let* _ := createNewSession VUndefined VUndefined in
         ret tt
     else
       let* _ := createNewSession VUndefined VUndefined in
       ret tt)
    (fun error => throw (createError "SESSION_INIT_ERROR" error)).

Definition endSession : M unit :=
  try_catch
    (let* current := gets currentSession in
     if negb (truthy current) then ret tt
     else
       let* t := now in
       let* started := gets sessionStartTime in
       let* duration :=
         (if truthy started then
            let* s := lift (getTime started) in
            ret (t - s)
          else ret 0) in
       let endedSession :=
         spread current [("endTime", VDate t); ("duration", VNum duration)] in
       let* _ := StorageManager.set SESSION_ID endedSession None in
       let* _ := modify (set_currentSession VNull) in
       modify (set_sessionStartTime VNull))
    (fun error => throw (createError "SESSION_END_ERROR" error)).

Definition getCurrentSession : M jsval := gets currentSession.

(** [this.currentSession?.id || null] *)
Definition getSessionId : M jsval :=
  gets (fun w => or_else (get_prop_opt (currentSession w) "id") VNull).

Definition reset : M unit :=
  try_catch
    (let* current := gets currentSession in
     let* _ := (if truthy current then endSession else ret tt) in
     let* _ := StorageManager.remove SESSION_ID in
     let* _ := StorageManager.remove SESSION_PROPERTIES in
     let* _ := modify (set_currentSession VNull) in
     modify (set_sessionStartTime VNull))
    (fun error => throw (createError "SESSION_RESET_ERROR" error)).

End SessionManager.

(* ================================================================== *)
(** * utils/EventValidator.ts *)
(* ================================================================== *)

Module EventValidator.
Import JS Types Properties.

(** One [VALIDATION_ERROR]: the field, the rule and the message given
    to [createValidationError]. *)
Record Issue : Type := mkIssue { field : string; rule : string; text : string }.

Record ValidationResult : Type := mkResult { isValid : bool; errors : list Issue }.

Definition when (b : bool) (i : Issue) : list Issue := if b then [i] else [].

Definition nonempty (s : string) : bool := negb (String.eqb s EmptyString).

(** [!s || typeof s !== 'string' || s.trim() === ''] for a string *)
Definition missing (s : string) : bool := negb (nonempty s) || trim_is_empty s.

Definition isValidEventName (name : string) : bool := matches_name name.

(** [typeof v === 'string' && v.trim().length > 0] *)
Definition isValidId (v : jsval) : bool :=
  match v with
  | VStr s => negb (trim_is_empty s)
  | _ => false
  end.

Definition is_digit (c : ascii) : bool :=
  let n := nat_of_ascii c in ((48 <=? n) && (n <=? 57))%nat.

Fixpoint skip_digits (s : string) : string :=
  match s with
  | String c r => if is_digit c then skip_digits r else s
  | EmptyString => s
  end.

(** One or more digits; what follows them. *)
Definition digits (s : string) : option string :=
  match s with
  | String c r => if is_digit c then Some (skip_digits r) else None
  | EmptyString => None
  end.

Definition dot (s : string) : option string :=
  match s with
  | String c r => if Ascii.eqb c "." then Some r else None
  | EmptyString => None
  end.

(** [/^\d+\.\d+\.\d+/.test(version)] *)
Definition isValidVersion (version : string) : bool :=
  let step (f : string -> option string) (o : option string) :=
    match o with Some r => f r | None => None end in
  match step digits (step dot (step digits (step dot (digits version)))) with
  | Some _ => true
  | None => false
  end.

Fixpoint validateEntries (fieldName : string) (l : list (string * jsval))
  : list Issue :=
  match l with
  | [] => []
  | (key, value) :: r =>
      when (negb (isValidPropertyKey key))
        (mkIssue (fieldName +:+ "." +:+ key) "format"
           "Property key must be alphanumeric with underscores and hyphens")
      ++ when (negb (isValidPropertyValue value))
        (mkIssue (fieldName +:+ "." +:+ key) "type"
           "Property value must be a string, number, boolean, or null")
      ++ validateEntries fieldName r
  end.

Definition validateProperties (properties : jsval) (fieldName : string)
  : list Issue :=
  when (MAX_EVENT_PROPERTIES <? List.length (own_fields properties))%nat
    (mkIssue fieldName "limit" "Properties exceed maximum limit of 100")
  ++ validateEntries fieldName (own_fields properties).

Definition opt_format (f : string) (text : string) (o : option string) : list Issue :=
  match o with
  | Some s => when (nonempty s && negb (isValidEventName s)) (mkIssue f "format" text)
  | None => []
  end.

(** [validate(event)].  The checks on [timestamp], [label] and
    [value] test the run-time type of a field whose type is fixed in
    [Event]; they never add an error and are left out. *)
Definition validate (event : Event) : ValidationResult :=
  let errors :=
    when (missing (ev_id event)) (mkIssue "id" "required" "Event ID is required")
    ++ when (missing (ev_name event))
         (mkIssue "name" "required" "Event name is required")
    ++ when (nonempty (ev_name event) && negb (isValidEventName (ev_name event)))
         (mkIssue "name" "format"
            "Event name must be alphanumeric with underscores and hyphens")
    ++ (if truthy (ev_properties event)
        then validateProperties (ev_properties event) "properties" else [])
    ++ opt_format "category"
         "Event category must be alphanumeric with underscores and hyphens"
         (ev_category event)
    ++ opt_format "action"
         "Event action must be alphanumeric with underscores and hyphens"
         (ev_action event)
    ++ when (truthy (ev_userId event) && negb (isValidId (ev_userId event)))
         (mkIssue "userId" "format" "User ID must be a valid string")
    ++ when (truthy (ev_sessionId event) && negb (isValidId (ev_sessionId event)))
         (mkIssue "sessionId" "format" "Session ID must be a valid string")
    ++ when (nonempty (ev_source event) && negb (isValidEventName (ev_source event)))
         (mkIssue "source" "format"
            "Event source must be alphanumeric with underscores and hyphens")
    ++ when (nonempty (ev_version event) && negb (isValidVersion (ev_version event)))
         (mkIssue "version" "format"
            "Event version must be a valid semantic version") in
  mkResult (match errors with [] => true | _ => false end) errors.

End EventValidator.

(* ================================================================== *)
(** * tracking/TrackingManager.ts *)
(* ================================================================== *)

Module TrackingManager.
Import JS Types Run HostOps.
Local Open Scope run_scope.

Record CreateEventOptions : Type := mkEventOptions {
  name : string;
  properties : jsval;
  category : option string;
  action : option string;
  label : option string;
  value : option Z
}.

Record CreatePageViewOptions : Type := mkPageViewOptions {
  url : string;
  title : option string;
  referrer : option string;
  pv_props : jsval
}.

Record CreateClickEventOptions : Type := mkClickOptions {
  element : string;
  selector : option string;
  click_text : option string;
  ck_props : jsval
}.

(** [createEvent(options)].  The event is built and returned; the call
    of [this.eventValidator.validate] is commented out in the source
    ("Skip validation for now to fix tests"), so nothing is checked. *)
Definition createEvent (options : CreateEventOptions) : M Event :=
  try_catch
    (let* id := uuidv4 in
     let* userId := UserManager.getUserId in
     let* sessionId := SessionManager.getSessionId in
     let* t := now in
     let event :=
       mkEvent id (name options) (category options) (action options)
         (label options) (value options)
         (or_else (properties options) (VObj []))
         (or_else userId VUndefined) (or_else sessionId VUndefined)
         t "sdk" VERSION in
     ret event)
    (fun error => throw (createError "EVENT_CREATE_ERROR" error)).

(** [createPageView(options)]; [validatePageView] is skipped likewise. *)
Definition createPageView (options : CreatePageViewOptions) : M PageView :=
  try_catch
    (let* id := uuidv4 in
     let* userId := UserManager.getUserId in
     let* sessionId := SessionManager.getSessionId in
     let* t := now in
     ret (mkPageView id (url options) (title options) (referrer options)
            (or_else (pv_props options) (VObj []))
            (or_else userId VUndefined) (or_else sessionId VUndefined) t 0))
    (fun error => throw (createError "PAGE_VIEW_CREATE_ERROR" error)).

Definition getMouseCoordinates : M jsval := ret VUndefined.

(** [createClickEvent(options)]; [validateClickEvent] is skipped. *)
Definition createClickEvent (options : CreateClickEventOptions) : M ClickEvent :=
  try_catch
    (let* id := uuidv4 in
     let* userId := UserManager.getUserId in
     let* sessionId := SessionManager.getSessionId in
     let* t := now in
     let* coordinates := getMouseCoordinates in
     ret (mkClick id (element options) (selector options) (click_text options)
            (or_else (ck_props options) (VObj []))
            (or_else userId VUndefined) (or_else sessionId VUndefined)
            t coordinates))
    (fun error => throw (createError "CLICK_EVENT_CREATE_ERROR" error)).

End TrackingManager.

(* ================================================================== *)
(** * utils/NetworkManager.ts *)
(* ================================================================== *)

Module NetworkManager.
Import JS Types Run HostOps.
Local Open Scope run_scope.

(** [response.ok] *)
Definition ok (r : Response) : bool := (200 <=? status r) && (status r <=? 299).

(** [makeRequest]: one call of [fetch].  A batch answered with a
    success status has reached the collector. *)
Definition makeRequest (body : BatchRequest) : M Response :=
  let* n := gets fetchCount in
  let* _ := modify (set_fetchCount (S n)) in
  let* outcome := gets (fun w => fetch (host w) n) in
  match outcome with
  | Rejects msg => throw (JsError msg)
  | Resolves r =>
      let* _ := (if ok r then modify (fun w => set_received (received w ++ [body]) w)
                 else ret tt) in
      ret r
  end.

(** [handleResponse]: a failure status gives an [HTTP_ERROR] response
    (the body, JSON or raw text, goes to its details); on a success
    status [response.json()] throws when the body is not JSON. *)
Definition handleResponse (response : Response) : M ApiResponse :=
  if negb (ok response) then
    ret (mkApiResponse false VUndefined
           (Some (mkError "HTTP_ERROR"
              ("HTTP " +:+ string_of_Z (status response) +:+ ": "
                 +:+ statusText response))))
  else
    match bodyJson response with
    | Some doc => ret (mkApiResponse true (of_json doc) None)
    | None => throw (JsError "Unexpected token in JSON")
    end.

(** [calculateDelay(attempt, retryConfig)] *)
Definition calculateDelay (attempt : Z) (rc : RetryConfig) : Z :=
  let delay := initialDelay rc * backoffMultiplier rc ^ attempt in
  Z.min delay (maxDelay rc).

(** [createErrorResponse(error)] *)
Definition createErrorResponse (error : exn) : ApiResponse :=
  mkApiResponse false VUndefined (Some (mkError "NETWORK_ERROR" (message_of error))).

(** The [for] loop of [request], entered with [attempt] and
    [remaining = maxRetries + 1 - attempt] iterations to go; it is
    left when none remains.  The [try] covers the awaited
    [makeRequest] only: [handleResponse] is returned without [await],
    so what it throws leaves [request] uncaught. *)
Fixpoint request_loop (remaining : nat) (rc : RetryConfig) (body : BatchRequest)
  (attempt : Z) (lastError : option exn) : M ApiResponse :=
  match remaining with
  | O => ret (createErrorResponse (default (JsError "Unknown error") lastError))
  | S r =>
      let* tried :=
        try_catch
          (let* response := makeRequest body in ret (inr response))
          (fun error => ret (inl error)) in
      match tried with
      | inr response => handleResponse response
      | inl error =>
          if attempt =? maxRetries rc then ret (createErrorResponse error)
          else
            let delay := calculateDelay attempt rc in
            let* _ := sleep delay in
            request_loop r rc body (attempt + 1) (Some error)
      end
  end.

(** [request(options)] *)
Definition request (rc : RetryConfig) (body : BatchRequest) : M ApiResponse :=
  request_loop (Z.to_nat (maxRetries rc + 1)) rc body 0 None.

(** [sendBatch(batch)] *)
Definition sendBatch (batch : BatchRequest) : M ApiResponse :=
  let* _ := modify (fun w => set_sent (sent w ++ [batch]) w) in
  let* rc := gets (fun w => retryConfig (config w)) in
  request rc batch.

End NetworkManager.

(* ================================================================== *)
(** * core/AdquimoSDK.ts *)
(* ================================================================== *)

Module AdquimoSDK.
Import JS Types Run HostOps.
Local Open Scope run_scope.

(** [AdquimoConfig] as the caller writes it. *)
Record ConfigInput : Type := mkInput {
  in_apiKey : string;
  in_baseUrl : option string;
  in_autoTrackPageViews : option bool;
  in_autoTrackSessions : option bool;
  in_batchSize : option Z;
  in_flushInterval : option Z;
  in_retryConfig : option RetryConfig;
  in_storageType : option StorageType;
  in_keyPrefix : option string;
  in_maxSize : option Z
}.

(** [n || d] on an optional number, [s || d] on an optional string *)
Definition num_or (o : option Z) (d : Z) : Z :=
  match o with Some n => if n =? 0 then d else n | None => d end.

Definition str_or (o : option string) (d : string) : string :=
  match o with Some s => if String.eqb s EmptyString then d else s | None => d end.

Definition mergeWithDefaults (c : ConfigInput) : AdquimoConfig :=
  mkConfig (in_apiKey c)
    (str_or (in_baseUrl c) DEFAULT_BASE_URL)
    (default true (in_autoTrackPageViews c))
    (default true (in_autoTrackSessions c))
    (num_or (in_batchSize c) DEFAULT_BATCH_SIZE)
    (num_or (in_flushInterval c) DEFAULT_FLUSH_INTERVAL)
    (mkRetry
       (num_or (maxRetries <$> in_retryConfig c) DEFAULT_RETRY_ATTEMPTS)
       (num_or (initialDelay <$> in_retryConfig c) DEFAULT_RETRY_DELAY)
       (num_or (maxDelay <$> in_retryConfig c) (DEFAULT_RETRY_DELAY * 10))
       (num_or (backoffMultiplier <$> in_retryConfig c) 2))
    (mkStorageConfig
       (default localStorage (in_storageType c))
       (str_or (in_keyPrefix c) "adquimo_")
       (num_or (in_maxSize c) (1024 * 1024))).

(** [new AdquimoSDK(config)] on a host whose clock shows [t] and whose
    web storage holds [stored]; the memory backend is a new [Map]. *)
Definition construct (h : Host) (t : Z) (stored : gmap string json)
  (c : ConfigInput) : world :=
  let merged := mergeWithDefaults c in
  let backend :=
    match type (storageConfig merged) with
    | memory => ∅
    | _ => stored
    end in
  mkWorld h merged t 0 0 [] 0 [] [] [] [] backend
    VNull VNull VNull false None [] (mkCallbacks None None None).

(** [this.createError(code, error)]; the user and session ids added to
    the error object are not kept. *)
Definition sdkError (c : string) (error : exn) : exn := createError c error.

Definition notInitialized (what : string) : exn :=
  Adquimo (mkError "SDK_NOT_INITIALIZED" ("SDK must be initialized before " +:+ what)).

Definition callOnEvent (e : Event) : M unit :=
  let* cb := gets callbacks in
  invoke ((fun h => CallOnEvent h e) <$> onEvent cb).

Definition callOnError (err : exn) : M unit :=
  let* cb := gets callbacks in
  invoke ((fun h => CallOnError h err) <$> onError cb).

Definition callOnSuccess (arg : jsval) : M unit :=
  let* cb := gets callbacks in
  invoke ((fun h => CallOnSuccess h arg) <$> onSuccess cb).

(** [setCallbacks(callbacks)]: a key of the argument replaces the
    registered callback, also when it holds [undefined]. *)
Definition setCallbacks (e : option (option nat)) (r : option (option nat))
  (s : option (option nat)) : M unit :=
  modify (fun w =>
    let cb := callbacks w in
    set_callbacks (mkCallbacks (default (onEvent cb) e) (default (onError cb) r)
                     (default (onSuccess cb) s)) w).

(** ** flush *)

(** The first half of the [try] block of [flush], up to the awaited
    [sendBatch]: the queue is copied and emptied, the batch built and
    sent. *)
Definition flush_send : M (list Event * ApiResponse) :=
  let* events := gets eventQueue in
  let* _ := modify (set_eventQueue []) in
  let* id := uuidv4 in
  let* t := now in
  let batchRequest := mkBatch id events t (List.length events) in
  let* response := NetworkManager.sendBatch batchRequest in
  ret (events, response).

(** The second half, run when [sendBatch] has settled. *)
Definition flush_settle (events : list Event) (response : ApiResponse) : M unit :=
  if success response then callOnSuccess (data response)
  else
    (* Re-queue failed events *)
    let* _ := modify (fun w => set_eventQueue (events ++ eventQueue w) w) in
    throw (match error response with
           | Some e => Adquimo e
           | None => ThrownUndefined
           end).

Definition flush_catch (error : exn) : M unit :=
  let adquimoError := sdkError "FLUSH_ERROR" error in
  let* _ := callOnError adquimoError in
  throw adquimoError.

(** [flush()] *)
Definition flush : M unit :=
  let* queue := gets eventQueue in
  if (List.length queue =? 0)%nat then ret tt
  else
    try_catch
      (let* sent := flush_send in
       flush_settle sent.1 sent.2)
      flush_catch.

(** [queueEvent(event)] *)
Definition queueEvent (event : Event) : M unit :=
  let* _ := modify (fun w => set_eventQueue (eventQueue w ++ [event]) w) in
  let* _ := callOnEvent event in
  let* queue := gets eventQueue in
  let* size := gets (fun w => batchSize (config w)) in
  if size <=? Z.of_nat (List.length queue) then flush else ret tt.

(** [startEventFlushing()] *)
Definition startEventFlushing : M unit :=
  let* h := setInterval in
  modify (set_flushTimer (Some h)).

(** One firing of the interval timer: [this.flush().catch(log)]. *)
Definition timerFlush : M unit := try_catch flush (fun error => ret tt).

(** ** The public operations *)

Definition initialize : M unit :=
  try_catch
    (let* _ := StorageManager.initialize in
     let* _ := UserManager.initialize in
     let* _ := SessionManager.initialize in
     (* startPageViewTracking and startSessionTracking only log *)
     let* _ := startEventFlushing in
     let* _ := modify (set_isInitialized true) in
     callOnSuccess (VStr "SDK initialized successfully"))
    (fun error =>
       let adquimoError := sdkError "INITIALIZATION_ERROR" error in
       let* _ := callOnError adquimoError in
       throw adquimoError).

(** [s || undefined] and [n || undefined] on optional arguments *)
Definition str_arg (o : option string) : option string :=
  match o with
  | Some s => if String.eqb s EmptyString then None else Some s
  | None => None
  end.

Definition num_arg (o : option Z) : option Z :=
  match o with
  | Some n => if n =? 0 then None else Some n
  | None => None
  end.

Definition opt_str (o : option string) : jsval :=
  match o with Some s => VStr s | None => VUndefined end.

Definition guarded {A : Type} (what : string) (body : M A) : M A :=
  let* ready := gets isInitialized in
  if negb ready then throw (notInitialized what) else body.

Definition track (name : string) (properties : jsval)
  (category action label : option string) (value : option Z) : M unit :=
  guarded "tracking events"
    (try_catch
       (let eventOptions :=
          TrackingManager.mkEventOptions name (or_else properties VUndefined)
            (str_arg category) (str_arg action) (str_arg label) (num_arg value) in
        let* event := TrackingManager.createEvent eventOptions in
        queueEvent event)
       (fun error =>
          let adquimoError := sdkError "TRACKING_ERROR" error in
          let* _ := callOnError adquimoError in
          throw adquimoError)).

Definition trackPageView (url : string) (title referrer : option string)
  (properties : jsval) : M unit :=
  guarded "tracking page views"
    (try_catch
       (let pageViewOptions :=
          TrackingManager.mkPageViewOptions url (str_arg title) (str_arg referrer)
            (or_else properties VUndefined) in
        let* pageView := TrackingManager.createPageView pageViewOptions in
        let event :=
          mkEvent (pv_id pageView) "page_view" (Some "page") (Some "view") None None
            (spread
               (VObj [("url", VStr (pv_url pageView));
                      ("title", opt_str (pv_title pageView));
                      ("referrer", opt_str (pv_referrer pageView))])
               (own_fields (pv_properties pageView)))
            (pv_userId pageView) (pv_sessionId pageView) (pv_timestamp pageView)
            "sdk" VERSION in
        queueEvent event)
       (fun error =>
          let adquimoError := sdkError "PAGE_VIEW_ERROR" error in
          let* _ := callOnError adquimoError in
          throw adquimoError)).

Definition trackClick (element : string) (selector text : option string)
  (properties : jsval) : M unit :=
  guarded "tracking clicks"
    (try_catch
       (let clickEventOptions :=
          TrackingManager.mkClickOptions element (str_arg selector) (str_arg text)
            (or_else properties VUndefined) in
        let* clickEvent := TrackingManager.createClickEvent clickEventOptions in
        let event :=
          mkEvent (ck_id clickEvent) "click" (Some "interaction") (Some "click")
            None None
            (spread
               (VObj [("element", VStr (ck_element clickEvent));
                      ("selector", opt_str (ck_selector clickEvent));
                      ("text", opt_str (ck_text clickEvent));
                      ("coordinates", ck_coordinates clickEvent)])
               (own_fields (ck_properties clickEvent)))
            (ck_userId clickEvent) (ck_sessionId clickEvent)
            (ck_timestamp clickEvent) "sdk" VERSION in
        queueEvent event)
       (fun error =>
          let adquimoError := sdkError "CLICK_ERROR" error in
          let* _ := callOnError adquimoError in
          throw adquimoError)).

Definition identify (userId : string) (properties : jsval) : M unit :=
  guarded "identifying users"
    (try_catch (UserManager.identify userId properties)
       (fun error =>
          let adquimoError := sdkError "USER_IDENTIFICATION_ERROR" error in
          let* _ := callOnError adquimoError in
          throw adquimoError)).

Definition alias (anonymousId userId : string) : M unit :=
  guarded "aliasing users"
    (try_catch (UserManager.alias anonymousId userId)
       (fun error => throw (sdkError "USER_ALIAS_ERROR" error))).

Definition reset : M unit :=
  guarded "resetting"
    (try_catch
       (let* _ := UserManager.reset in
        let* _ := SessionManager.reset in
        modify (set_eventQueue []))
       (fun error => throw (sdkError "RESET_ERROR" error))).

Definition getCurrentUser : M jsval := UserManager.getCurrentUser.
Definition getCurrentSession : M jsval := SessionManager.getCurrentSession.

(** [destroy()] *)
Definition destroy : M unit :=
  try_catch
    (* Flush remaining events *)
    (let* _ := flush in
     (* Clear timers *)
     let* timer := gets flushTimer in
     let* _ := (match timer with
                | Some h => clearInterval h
                | None => ret tt
                end) in
     (* stopPageViewTracking and stopSessionTracking only log *)
     (* Reset state *)
     let* _ := modify (set_isInitialized false) in
     let* _ := modify (set_eventQueue []) in
     modify (set_callbacks (mkCallbacks None None None)))
    (fun error => throw (sdkError "DESTROY_ERROR" error)).

End AdquimoSDK.

(* ================================================================== *)
(** * utils/StorageManager.ts, the maintenance operations *)
(* ================================================================== *)

Module StorageMaintenance.
Import JS Types Run HostOps.
Local Open Scope run_scope.

(** [this.isLocalStorage] *)
Definition isLocalStorage (w : world) : bool :=
  match type (StorageManager.cfg w) with
  | localStorage | sessionStorage => true
  | memory => false
  end.

(** [keys.forEach(f)] *)
Fixpoint forEach {A : Type} (l : list A) (f : A -> M unit) : M unit :=
  match l with
  | [] => ret tt
  | x :: r => let* _ := f x in forEach r f
  end.

(** [clear()]: on web storage the keys with the prefix are removed one
    by one; a [Map] is emptied. *)
Definition clear : M unit :=
  try_catch
    (let* local := gets isLocalStorage in
     if local then
       let* keys := gets (fun w => elements (dom (storage w))) in
       forEach keys (fun key =>
         let* prefix := gets (fun w => keyPrefix (StorageManager.cfg w)) in
         if startsWith prefix key then StorageManager.removeItem key else ret tt)
     else modify (set_storage ∅))
    (fun error => throw (createError "STORAGE_CLEAR_ERROR" error)).

(** [getSize()]: the lengths of the keys with the prefix and of their
    texts, added up.  On web storage an item whose text is empty is
    skipped ([if (value)]); the [Map] branch has no such test. *)
Definition getSize : M Z :=
  try_catch
    (let* local := gets isLocalStorage in
     gets (fun w =>
       fold_left
         (fun size key =>
            if startsWith (keyPrefix (StorageManager.cfg w)) key then
              match storage w !! key with
              | Some value =>
                  if local && String.eqb (json_text value) EmptyString then size
                  else size + (Z.of_nat (String.length key)
                               + Z.of_nat (String.length (json_text value)))
              | None => size
              end
            else size)
         (elements (dom (storage w))) 0))
    (fun error => throw (createError "STORAGE_SIZE_ERROR" error)).

(** The body of the [for] loop of [cleanup], with [t] the [Date.now()]
    taken before the loop. *)
Definition cleanup_item (t : Z) (key : string) : M unit :=
  let* fullKey := StorageManager.getFullKey key in
  let* serializedValue := StorageManager.getItem fullKey in
  match serializedValue with
  | None => ret tt
  | Some text =>
      let item := of_json text in
      (* if (item.ttl && now - item.timestamp.getTime() > item.ttl) *)
      let* ttl := lift (get_prop item "ttl") in
      let* expired :=
        (if truthy ttl then
           let* timestamp := lift (get_prop item "timestamp") in
           let* stamp := lift (getTime timestamp) in
           ret (StorageManager.gt_value (t - stamp) ttl)
         else ret false) in
      if expired then StorageManager.remove key else ret tt
  end.

(** [cleanup()] *)
Definition cleanup : M unit :=
  try_catch
    (let* keys := StorageManager.getKeys in
     let* t := now in
     forEach keys (cleanup_item t))
    (fun error => throw (createError "STORAGE_CLEANUP_ERROR" error)).

End StorageMaintenance.

(* ================================================================== *)
(** * user/UserManager.ts and user/SessionManager.ts, the remaining operations *)
(* ================================================================== *)

Module UserProfile.
Import JS Types Run HostOps Properties.
Local Open Scope run_scope.

(** [updateProperties(properties)] *)
Definition updateProperties (properties : jsval) : M unit :=
  try_catch
    (let* current := gets currentUser in
     if negb (truthy current) then throw_new_Error "No user identified"
     else
       let* _ := UserManager.validateUserProperties properties in
       let* old := lift (get_prop current "properties") in
       let* t := now in
       let updatedUser :=
         spread current
           [("properties", spread old (own_fields (or_else properties (VObj []))));
            ("lastSeenAt", VDate t)] in
       let* _ := StorageManager.set USER_ID updatedUser None in
       modify (set_currentUser updatedUser))
    (fun error => throw (createError "USER_UPDATE_ERROR" error)).

(** [this.currentUser?.properties || {}] *)
Definition getUserProperties : M jsval :=
  gets (fun w => or_else (get_prop_opt (currentUser w) "properties") (VObj [])).

(** [this.currentUser !== null] *)
Definition isIdentified : M bool :=
  gets (fun w => match currentUser w with VNull => false | _ => true end).

End UserProfile.

Module SessionLifecycle.
Import JS Types Run HostOps Properties.
Local Open Scope run_scope.

Definition validateSessionProperties (properties : jsval) : M unit :=
  validateProperties "Session" MAX_SESSION_PROPERTIES properties.

(** [startSession(userId?, properties?)] *)
Definition startSession (userId properties : jsval) : M jsval :=
  try_catch
    (let* current := gets currentSession in
     let* _ := (if truthy current then SessionManager.endSession else ret tt) in
     SessionManager.createNewSession userId properties)
    (fun error => throw (createError "SESSION_START_ERROR" error)).

(** [updateSessionProperties(properties)] *)
Definition updateSessionProperties (properties : jsval) : M unit :=
  try_catch
    (let* current := gets currentSession in
     if negb (truthy current) then throw_new_Error "No active session"
     else
       let* _ := validateSessionProperties properties in
       let* old := lift (get_prop current "properties") in
       let updatedSession :=
         spread current [("properties", spread old (own_fields properties))] in
       let* _ := StorageManager.set SESSION_ID updatedSession None in
       modify (set_currentSession updatedSession))
    (fun error => throw (createError "SESSION_UPDATE_ERROR" error)).

(** [getSessionDuration()] *)
Definition getSessionDuration : M Z :=
  let* started := gets sessionStartTime in
  if negb (truthy started) then ret 0
  else
    let* t := now in
    let* s := lift (getTime started) in
    ret (t - s).

(** [this.currentSession !== null && this.currentSession.endTime === undefined] *)
Definition isSessionActive : M bool :=
  let* current := gets currentSession in
  match current with
  | VNull => ret false
  | _ =>
      let* endTime := lift (get_prop current "endTime") in
      ret (match endTime with VUndefined => true | _ => false end)
  end.

End SessionLifecycle.

(* ================================================================== *)
(** * Facts about the embedding *)
(* ================================================================== *)

Import JS Types Run HostOps.

(** ** The delivery client *)

Section Delivery.
Variable rc : RetryConfig.
Variable body : BatchRequest.

(** The transport fails: [fetch] rejects. *)
Definition rejects (w : world) (n : nat) : Prop :=
  exists msg, fetch (host w) n = Rejects msg.

(** The state with what the network layer writes (clock, fetch
    counter, logs) erased: two states with the same such view differ
    in nothing the managers or the facade hold. *)
Definition forget_network (w : world) : world :=
  set_clock 0 (set_fetchCount 0 (set_received [] (set_sent [] (set_slept [] w)))).

(** The delays slept after the attempts [attempt], ..., [attempt + k - 1]. *)
Fixpoint delays (attempt : Z) (k : nat) : list Z :=
  match k with
  | O => []
  | S k' => NetworkManager.calculateDelay attempt rc :: delays (attempt + 1) k'
  end.

Lemma delays_length attempt k : List.length (delays attempt k) = k.
Proof. revert attempt; induction k; intros; simpl; auto. Qed.

Lemma delays_snoc attempt k :
  delays attempt (S k) =
  delays attempt k ++ [NetworkManager.calculateDelay (attempt + Z.of_nat k) rc].
Proof.
  revert attempt; induction k as [|k IH]; intros attempt.
  - simpl. now rewrite Z.add_0_r.
  - change (delays attempt (S (S k)))
      with (NetworkManager.calculateDelay attempt rc :: delays (attempt + 1) (S k)).
    rewrite IH.
    replace (attempt + 1 + Z.of_nat k) with (attempt + Z.of_nat (S k)) by lia.
    reflexivity.
Qed.

(** What one rejected attempt that is not the last does. *)
Lemma request_loop_reject r attempt lastError w :
  rejects w (fetchCount w) ->
  attempt <> maxRetries rc ->
  exists e,
    NetworkManager.request_loop (S r) rc body attempt lastError w =
    NetworkManager.request_loop r rc body (attempt + 1) (Some e)
      (set_slept (slept w ++ [NetworkManager.calculateDelay attempt rc])
         (set_clock (clock w + NetworkManager.calculateDelay attempt rc)
            (set_fetchCount (S (fetchCount w)) w))).
Proof.
  intros [msg Hrej] Hne. exists (JsError msg).
  cbn. unfold bind, try_catch, NetworkManager.makeRequest, bind, gets, modify. cbn.
  rewrite Hrej. cbn.
  destruct (Z.eqb_spec attempt (maxRetries rc)) as [->|_]; [congruence|].
  reflexivity.
Qed.

(** The last attempt, rejected: the loop is left with a
    [NETWORK_ERROR] response and without a sleep. *)
Lemma request_loop_last_reject r lastError w :
  rejects w (fetchCount w) ->
  exists e,
    NetworkManager.request_loop (S r) rc body (maxRetries rc) lastError w =
    (inr (NetworkManager.createErrorResponse e), set_fetchCount (S (fetchCount w)) w).
Proof.
  intros [msg Hrej]. exists (JsError msg).
  cbn. unfold bind, try_catch, NetworkManager.makeRequest, bind, gets, modify. cbn.
  rewrite Hrej. cbn. now rewrite Z.eqb_refl.
Qed.

(** An attempt answered with a failure status: the [HTTP_ERROR]
    response is returned at once. *)
Lemma request_loop_http_error r attempt lastError w resp :
  fetch (host w) (fetchCount w) = Resolves resp ->
  NetworkManager.ok resp = false ->
  NetworkManager.request_loop (S r) rc body attempt lastError w =
  (inr (mkApiResponse false VUndefined
          (Some (mkError "HTTP_ERROR"
             ("HTTP " +:+ string_of_Z (status resp) +:+ ": " +:+ statusText resp)))),
   set_fetchCount (S (fetchCount w)) w).
Proof.
  intros Hres Hok.
  cbn. unfold bind, try_catch, NetworkManager.makeRequest, bind, gets, modify. cbn.
  rewrite Hres. cbn. rewrite Hok. cbn.
  unfold NetworkManager.handleResponse. rewrite Hok. reflexivity.
Qed.

(** The state after [k] rejected attempts, none of them the last. *)
Fixpoint after_rejects (attempt : Z) (k : nat) (w : world) : world :=
  match k with
  | O => w
  | S k' =>
      after_rejects (attempt + 1) k'
        (set_slept (slept w ++ [NetworkManager.calculateDelay attempt rc])
           (set_clock (clock w + NetworkManager.calculateDelay attempt rc)
              (set_fetchCount (S (fetchCount w)) w)))
  end.

Lemma after_rejects_host attempt k w : host (after_rejects attempt k w) = host w.
Proof. revert attempt w; induction k; intros; simpl; [|rewrite IHk]; reflexivity. Qed.

Lemma after_rejects_fetchCount attempt k w :
  fetchCount (after_rejects attempt k w) = (fetchCount w + k)%nat.
Proof.
  revert attempt w; induction k; intros; simpl; [|rewrite IHk; simpl]; lia.
Qed.

Lemma after_rejects_slept attempt k w :
  slept (after_rejects attempt k w) = slept w ++ delays attempt k.
Proof.
  revert attempt w; induction k; intros; simpl.
  - now rewrite app_nil_r.
  - rewrite IHk. simpl. now rewrite <- app_assoc.
Qed.

Lemma after_rejects_received attempt k w :
  received (after_rejects attempt k w) = received w.
Proof. revert attempt w; induction k; intros; simpl; [|rewrite IHk]; reflexivity. Qed.

Lemma after_rejects_view attempt k w :
  forget_network (after_rejects attempt k w) = forget_network w.
Proof. revert attempt w; induction k; intros; simpl; [|rewrite IHk]; reflexivity. Qed.

(** [k] rejected attempts in a row, none the last: the loop sleeps
    after each and goes on. *)
Lemma request_loop_rejects k : forall r attempt lastError w,
  (forall i, (i < k)%nat -> rejects w (fetchCount w + i)) ->
  attempt + Z.of_nat k <= maxRetries rc ->
  exists e,
    NetworkManager.request_loop (k + r) rc body attempt lastError w =
    NetworkManager.request_loop r rc body (attempt + Z.of_nat k) e
      (after_rejects attempt k w).
Proof.
  induction k as [|k IH]; intros r attempt lastError w Hrej Hle.
  - exists lastError. simpl. now rewrite Z.add_0_r.
  - destruct (request_loop_reject (k + r) attempt lastError w) as [e He].
    + specialize (Hrej O ltac:(lia)). now rewrite Nat.add_0_r in Hrej.
    + lia.
    + destruct (IH r (attempt + 1) (Some e)
        (set_slept (slept w ++ [NetworkManager.calculateDelay attempt rc])
           (set_clock (clock w + NetworkManager.calculateDelay attempt rc)
              (set_fetchCount (S (fetchCount w)) w)))) as [e' He'].
      * intros i Hi. specialize (Hrej (S i) ltac:(lia)).
        unfold rejects in *. simpl.
        now replace (S (fetchCount w + i)) with (fetchCount w + S i)%nat by lia.
      * lia.
      * exists e'. change (S k + r)%nat with (S (k + r)). rewrite He, He'.
        simpl. f_equal. lia.
Qed.

(** Every attempt rejected: [maxRetries + 1] calls of [fetch], a sleep
    after each but the last, then a [NETWORK_ERROR] response. *)
Lemma request_all_rejected w :
  0 <= maxRetries rc ->
  (forall n, rejects w n) ->
  exists e,
    NetworkManager.request rc body w =
    (inr (NetworkManager.createErrorResponse e),
     set_fetchCount (S (fetchCount (after_rejects 0 (Z.to_nat (maxRetries rc)) w)))
       (after_rejects 0 (Z.to_nat (maxRetries rc)) w)).
Proof.
  intros Hm Hrej. unfold NetworkManager.request.
  replace (Z.to_nat (maxRetries rc + 1)) with (Z.to_nat (maxRetries rc) + 1)%nat by lia.
  destruct (request_loop_rejects (Z.to_nat (maxRetries rc)) 1 0 None w) as [e He].
  - intros; apply Hrej.
  - lia.
  - rewrite He. replace (0 + Z.of_nat (Z.to_nat (maxRetries rc))) with (maxRetries rc) by lia.
    apply request_loop_last_reject.
    unfold rejects. rewrite after_rejects_host. apply Hrej.
Qed.

(** [k] rejected attempts, then a response with a failure status:
    [k + 1] calls of [fetch] and no more. *)
Lemma request_http_error_after k w resp :
  Z.of_nat k <= maxRetries rc ->
  (forall i, (i < k)%nat -> rejects w (fetchCount w + i)) ->
  fetch (host w) (fetchCount w + k) = Resolves resp ->
  NetworkManager.ok resp = false ->
  NetworkManager.request rc body w =
  (inr (mkApiResponse false VUndefined
          (Some (mkError "HTTP_ERROR"
             ("HTTP " +:+ string_of_Z (status resp) +:+ ": " +:+ statusText resp)))),
   set_fetchCount (S (fetchCount (after_rejects 0 k w))) (after_rejects 0 k w)).
Proof.
  intros Hk Hrej Hres Hok. unfold NetworkManager.request.
  replace (Z.to_nat (maxRetries rc + 1))
    with (k + S (Z.to_nat (maxRetries rc) - k))%nat by lia.
  destruct (request_loop_rejects k (S (Z.to_nat (maxRetries rc) - k)) 0 None w)
    as [e He]; [assumption|lia|].
  rewrite He. apply request_loop_http_error; [|assumption].
  now rewrite after_rejects_host, after_rejects_fetchCount.
Qed.

End Delivery.

(** ** Concrete hosts and instances, for the examples *)

Module Demo.

Definition probes (f : nat -> FetchOutcome) : Host :=
  mkHost (VObj [("type", VStr "desktop")]) (VObj [("name", VStr "Chrome")]) f.

Definition accepted : FetchOutcome :=
  Resolves (mkResponse 200 "OK" "{}" (Some (JObject []))).

Definition refused : FetchOutcome :=
  Resolves (mkResponse 500 "Internal Server Error" "oops" None).

(** No network: every [fetch] rejects. *)
Definition offline : Host := probes (fun _ => Rejects "Failed to fetch").

(** A collector that answers 500 to everything. *)
Definition failing : Host := probes (fun _ => refused).

(** One rejected [fetch], then 500 for ever. *)
Definition flaky : Host :=
  probes (fun n => match n with O => Rejects "Failed to fetch" | _ => refused end).

(** A collector that accepts everything. *)
Definition accepting : Host := probes (fun _ => accepted).

(** 500 to the first call of [fetch], 200 afterwards. *)
Definition recovering : Host :=
  probes (fun n => match n with O => refused | _ => accepted end).

Definition retry3 : RetryConfig := mkRetry 3 100 1000 2.

(** [{ apiKey: 'key', batchSize: 3, retryConfig: {3, 100, 1000, 2},
      storageConfig: { type: 'localStorage' } }] *)
Definition input : AdquimoSDK.ConfigInput :=
  AdquimoSDK.mkInput "key" None None None (Some 3) None (Some retry3)
    (Some localStorage) None None.

Definition epoch : Z := 1700000000000.

(** A new instance on a host with empty web storage. *)
Definition fresh (h : Host) : world := AdquimoSDK.construct h epoch ∅ input.

Definition batch0 : BatchRequest := mkBatch "b0" [] epoch 0.

(** The state a computation leaves. *)
Definition after {A : Type} (m : M A) (w : world) : world := (m w).2.

(** The three callbacks of the caller. *)
Definition registered : Callbacks := mkCallbacks (Some 1%nat) (Some 2%nat) (Some 3%nat).

(** An instance with its callbacks set, initialized. *)
Definition ready (h : Host) : world :=
  after AdquimoSDK.initialize
    (after (AdquimoSDK.setCallbacks (Some (Some 1%nat)) (Some (Some 2%nat))
              (Some (Some 3%nat)))
       (fresh h)).

Definition track_named (name : string) : M unit :=
  AdquimoSDK.track name VUndefined None None None None.


(** An event that breaks the rules of the validator: a name with a
    blank and a bang, a property key with a blank, a property value
    that is an object. *)
Definition invalid_options : TrackingManager.CreateEventOptions :=
  TrackingManager.mkEventOptions "bad name!" (VObj [("bad key", VObj [])])
    None None None None.

(** An initialized instance with the events [a] and [b] in its queue. *)
Definition two_queued (h : Host) : world :=
  after (track_named "b") (after (track_named "a") (ready h)).

End Demo.

(** ** Sanity checks of the embedding on concrete inputs *)

Example toISOString_epoch : toISOString 0 = "1970-01-01T00:00:00.000Z".
Proof. reflexivity. Qed.

Example toISOString_leap_day : toISOString 951782400000 = "2000-02-29T00:00:00.000Z".
Proof. reflexivity. Qed.

Example toISOString_before_epoch : toISOString (-1) = "1969-12-31T23:59:59.999Z".
Proof. reflexivity. Qed.

Example stringify_drops_undefined_and_prints_dates :
  to_json (VObj [("a", VUndefined); ("b", VDate 0); ("c", VNum (-3))]) =
  Some (JObject [("b", JString "1970-01-01T00:00:00.000Z"); ("c", JNumber (-3))]).
Proof. reflexivity. Qed.

Example json_text_length :
  String.length (json_text (JObject [("b", JString "x\y"); ("c", JNumber (-3))])) = 19%nat.
Proof. reflexivity. Qed.

Example calculateDelay_capped :
  map (fun k => NetworkManager.calculateDelay k Demo.retry3) [0; 1; 2; 3; 4] =
  [100; 200; 400; 800; 1000].
Proof. reflexivity. Qed.

(** ** C2, C3: the retry policy of the delivery client *)

Lemma delays_map rc attempt k :
  delays rc attempt k =
  map (fun i => NetworkManager.calculateDelay (attempt + Z.of_nat i) rc) (seq 0 k).
Proof.
  induction k as [|k IH].
  - reflexivity.
  - rewrite delays_snoc, IH, seq_S, map_app. reflexivity.
Qed.

(** C3. A transport that fails on every attempt is tried [maxRetries + 1]
    times: with [maxRetries = 3], [initialDelay = 100],
    [backoffMultiplier = 2] and [maxDelay = 1000] that is 4 calls of
    [fetch] with sleeps of 100, 200 and 400 ms between them.  In
    general attempt [k] is followed by a sleep of
    [min (initialDelay * backoffMultiplier ^ k) maxDelay], and the last
    attempt, [k = maxRetries], by none: the request then answers with a
    [NETWORK_ERROR] response. *)
Theorem C3_retry_schedule (w : world) (body : BatchRequest) :
  (forall n, rejects w n) ->
  (let r := NetworkManager.request (mkRetry 3 100 1000 2) body w in
   fetchCount r.2 = (fetchCount w + 4)%nat
   /\ slept r.2 = slept w ++ [100; 200; 400]
   /\ exists e, r.1 = inr (NetworkManager.createErrorResponse e))
  /\ (forall rc, 0 <= maxRetries rc ->
      let r := NetworkManager.request rc body w in
      fetchCount r.2 = (fetchCount w + Z.to_nat (maxRetries rc) + 1)%nat
      /\ slept r.2 =
         slept w ++
         map (fun k => Z.min (initialDelay rc * backoffMultiplier rc ^ Z.of_nat k)
                         (maxDelay rc))
             (seq 0 (Z.to_nat (maxRetries rc)))
      /\ exists e, r.1 = inr (NetworkManager.createErrorResponse e)).
Proof.
  intros Hrej.
  assert (General : forall rc, 0 <= maxRetries rc ->
      let r := NetworkManager.request rc body w in
      fetchCount r.2 = (fetchCount w + Z.to_nat (maxRetries rc) + 1)%nat
      /\ slept r.2 =
         slept w ++
         map (fun k => Z.min (initialDelay rc * backoffMultiplier rc ^ Z.of_nat k)
                         (maxDelay rc))
             (seq 0 (Z.to_nat (maxRetries rc)))
      /\ exists e, r.1 = inr (NetworkManager.createErrorResponse e)).
  { intros rc Hm r. subst r.
    destruct (request_all_rejected rc body w Hm Hrej) as [e He].
    rewrite He. cbn [fst snd]. split; [|split].
    - cbn. rewrite after_rejects_fetchCount. lia.
    - cbn. rewrite after_rejects_slept, delays_map. reflexivity.
    - now exists e. }
  split; [|exact General].
  destruct (General (mkRetry 3 100 1000 2) ltac:(cbn; lia)) as (Hf & Hs & He).
  repeat split; [rewrite Hf; cbn; lia | exact Hs | exact He].
Qed.

Lemma C3_retry_schedule_witness :
  (forall n, rejects (Demo.fresh Demo.offline) n)
  /\ slept (NetworkManager.request Demo.retry3 Demo.batch0 (Demo.fresh Demo.offline)).2
     = [100; 200; 400].
Proof.
  assert (H : forall n, rejects (Demo.fresh Demo.offline) n)
    by (intros n; exists "Failed to fetch"; reflexivity).
  split; [exact H|].
  exact (proj1 (proj2 (proj1 (C3_retry_schedule (Demo.fresh Demo.offline) Demo.batch0 H)))).
Defined.

(** C2, as the code has it.  Only a thrown transport error is retried:
    every rejected [fetch] but the last is followed by a sleep and a new
    attempt, [maxRetries + 1] attempts at most, and the failure comes
    back as a [NETWORK_ERROR] response.  A response whose status is
    outside the success range is not retried: the attempt that receives
    it is the last, and the request answers at once with an
    [HTTP_ERROR] response. *)
Theorem C2_only_thrown_errors_are_retried (w : world) (rc : RetryConfig)
  (body : BatchRequest) :
  0 <= maxRetries rc ->
  ((forall n, rejects w n) ->
   let r := NetworkManager.request rc body w in
   fetchCount r.2 = (fetchCount w + Z.to_nat (maxRetries rc) + 1)%nat
   /\ exists e, r.1 = inr (mkApiResponse false VUndefined
                             (Some (mkError "NETWORK_ERROR" (message_of e)))))
  /\ (forall (k : nat) (resp : Response),
      Z.of_nat k <= maxRetries rc ->
      (forall i, (i < k)%nat -> rejects w (fetchCount w + i)) ->
      fetch (host w) (fetchCount w + k) = Resolves resp ->
      NetworkManager.ok resp = false ->
      let r := NetworkManager.request rc body w in
      fetchCount r.2 = (fetchCount w + k + 1)%nat
      /\ slept r.2 = slept w ++ delays rc 0 k
      /\ exists m, r.1 = inr (mkApiResponse false VUndefined
                                (Some (mkError "HTTP_ERROR" m)))).
Proof.
  intros Hm. split.
  - intros Hrej r. subst r.
    destruct (request_all_rejected rc body w Hm Hrej) as [e He].
    rewrite He. cbn [fst snd]. split.
    + cbn. rewrite after_rejects_fetchCount. lia.
    + now exists e.
  - intros k resp Hk Hrej Hres Hok r. subst r.
    rewrite (request_http_error_after rc body k w resp Hk Hrej Hres Hok).
    cbn [fst snd]. split; [|split].
    + cbn. rewrite after_rejects_fetchCount. lia.
    + cbn. now rewrite after_rejects_slept.
    + eexists. reflexivity.
Qed.

Lemma C2_only_thrown_errors_are_retried_witness :
  let w := Demo.fresh Demo.flaky in
  let r := NetworkManager.request Demo.retry3 Demo.batch0 w in
  fetchCount r.2 = 2%nat /\ slept r.2 = [100]
  /\ exists m, r.1 = inr (mkApiResponse false VUndefined (Some (mkError "HTTP_ERROR" m))).
Proof.
  refine (proj2 (C2_only_thrown_errors_are_retried (Demo.fresh Demo.flaky) Demo.retry3
                   Demo.batch0 _) 1%nat _ _ _ _ _).
  - cbn; lia.
  - cbn; lia.
  - intros i Hi. assert (i = O) by lia. subst i.
    exists "Failed to fetch". reflexivity.
  - reflexivity.
  - reflexivity.
Defined.

(** C2 as stated fails: with [maxRetries = 3] and a collector that
    answers 500, the request calls [fetch] once and never sleeps, where
    a transport that throws is tried 4 times. *)
Lemma C2_counterexample :
  (let r := NetworkManager.request Demo.retry3 Demo.batch0 (Demo.fresh Demo.failing) in
   fetchCount r.2 = 1%nat /\ slept r.2 = []
   /\ r.1 = inr (mkApiResponse false VUndefined
                   (Some (mkError "HTTP_ERROR" "HTTP 500: Internal Server Error"))))
  /\ (let r := NetworkManager.request Demo.retry3 Demo.batch0 (Demo.fresh Demo.offline) in
      fetchCount r.2 = 4%nat /\ slept r.2 = [100; 200; 400]).
Proof. vm_compute. repeat split. Qed.

(** ** What a request leaves behind, whatever the transport does *)

(** A request writes nothing but the clock, the fetch counter and the
    logs of the network layer.  Its batch reaches the collector at most
    once: it has when the request answers with a success response or
    throws (a success status with a body that is not JSON), and it has
    not when the request answers with a failure response. *)
Definition delivery_account (body : BatchRequest) (w : world)
  (r : (exn + ApiResponse) * world) : Prop :=
  forget_network r.2 = forget_network w
  /\ received r.2 =
     match r.1 with
     | inr resp => if success resp then received w ++ [body] else received w
     | inl _ => received w ++ [body]
     end.

Lemma request_loop_account rc body remaining : forall attempt lastError w,
  delivery_account body w
    (NetworkManager.request_loop remaining rc body attempt lastError w).
Proof.
  induction remaining as [|r IH]; intros attempt lastError w.
  - split; reflexivity.
  - cbn. unfold bind, try_catch, NetworkManager.makeRequest, bind, gets, modify. cbn.
    destruct (fetch (host w) (fetchCount w)) as [msg|resp] eqn:Hf; cbn.
    + destruct (attempt =? maxRetries rc); cbn.
      * split; reflexivity.
      * match goal with |- delivery_account _ _ (NetworkManager.request_loop _ _ _ _ _ ?w1) =>
          destruct (IH (attempt + 1) (Some (JsError msg)) w1) as [Hv Hr]
        end.
        split; [rewrite Hv; reflexivity | rewrite Hr; reflexivity].
    + unfold NetworkManager.handleResponse.
      destruct (NetworkManager.ok resp) eqn:Hok; cbn; rewrite ?Hok; cbn.
      * destruct (bodyJson resp); cbn; split; reflexivity.
      * split; reflexivity.
Qed.

Lemma sendBatch_account batch w :
  delivery_account batch w (NetworkManager.sendBatch batch w).
Proof.
  unfold NetworkManager.sendBatch, NetworkManager.request, bind, modify, gets. cbn.
  match goal with |- delivery_account _ _ (NetworkManager.request_loop ?n ?rc _ _ _ ?w1) =>
    destruct (request_loop_account rc batch n 0 None w1) as [Hv Hr]
  end.
  split; [rewrite Hv; reflexivity | rewrite Hr; reflexivity].
Qed.

(** Reading a field the network layer does not write. *)
Lemma view_eventQueue w w' :
  forget_network w' = forget_network w -> eventQueue w' = eventQueue w.
Proof. intros H. apply (f_equal eventQueue) in H. exact H. Qed.

Lemma view_callbacks w w' :
  forget_network w' = forget_network w -> callbacks w' = callbacks w.
Proof. intros H. apply (f_equal callbacks) in H. exact H. Qed.

Lemma view_calls w w' :
  forget_network w' = forget_network w -> calls w' = calls w.
Proof. intros H. apply (f_equal calls) in H. exact H. Qed.

Lemma view_isInitialized w w' :
  forget_network w' = forget_network w -> isInitialized w' = isInitialized w.
Proof. intros H. apply (f_equal isInitialized) in H. exact H. Qed.

Lemma view_flushTimer w w' :
  forget_network w' = forget_network w -> flushTimer w' = flushTimer w.
Proof. intros H. apply (f_equal flushTimer) in H. exact H. Qed.

Lemma view_intervals w w' :
  forget_network w' = forget_network w -> intervals w' = intervals w.
Proof. intros H. apply (f_equal intervals) in H. exact H. Qed.

Lemma view_config w w' :
  forget_network w' = forget_network w -> config w' = config w.
Proof. intros H. apply (f_equal config) in H. exact H. Qed.

Lemma view_uuids w w' :
  forget_network w' = forget_network w -> uuids w' = uuids w.
Proof. intros H. apply (f_equal uuids) in H. exact H. Qed.

(** ** The queue of the coordinator *)

(** Every event the pipeline holds or has delivered, oldest first: the
    batches the collector accepted, then the queue. *)
Definition all_events (w : world) : list Event :=
  List.concat (map batch_events (received w)) ++ eventQueue w.

(** The state with what a flush may write erased as well: the queue,
    the callback log and the uuid counter. *)
Definition forget_delivery (w : world) : world :=
  forget_network (set_uuids 0 (set_calls [] (set_eventQueue [] w))).

(** The batch [flush] builds in [w], and the state in which it is sent. *)
Definition batch_of (w : world) : BatchRequest :=
  mkBatch (uuid_of (uuids w)) (eventQueue w) (clock w) (List.length (eventQueue w)).

Definition drained (w : world) : world :=
  set_uuids (S (uuids w)) (set_eventQueue [] w).

Lemma sendBatch_eq batch w :
  NetworkManager.sendBatch batch w =
  NetworkManager.request (retryConfig (config w)) batch (set_sent (sent w ++ [batch]) w).
Proof. reflexivity. Qed.

Opaque NetworkManager.sendBatch.

Lemma flush_send_eq w :
  AdquimoSDK.flush_send w =
  match NetworkManager.sendBatch (batch_of w) (drained w) with
  | (inr response, w2) => (inr (eventQueue w, response), w2)
  | (inl e, w2) => (inl e, w2)
  end.
Proof.
  unfold AdquimoSDK.flush_send, uuidv4, now, bind, gets, modify, ret. cbn.
  fold (batch_of w). fold (drained w).
  destruct (NetworkManager.sendBatch (batch_of w) (drained w)) as [[e|response] w2];
    reflexivity.
Qed.

(** The three ways a flush of a non-empty queue ends. *)
Lemma flush_eq w :
  eventQueue w <> [] ->
  AdquimoSDK.flush w =
  match NetworkManager.sendBatch (batch_of w) (drained w) with
  | (inr response, w2) =>
      if success response then
        (inr tt,
         match onSuccess (callbacks w2) with
         | Some h => set_calls (calls w2 ++ [CallOnSuccess h (data response)]) w2
         | None => w2
         end)
      else
        let thrown := match error response with
                      | Some e => Adquimo e
                      | None => ThrownUndefined
                      end in
        let w3 := set_eventQueue (eventQueue w ++ eventQueue w2) w2 in
        (inl (AdquimoSDK.sdkError "FLUSH_ERROR" thrown),
         match onError (callbacks w3) with
         | Some h =>
             set_calls (calls w3 ++ [CallOnError h (AdquimoSDK.sdkError "FLUSH_ERROR" thrown)]) w3
         | None => w3
         end)
  | (inl e, w2) =>
      (inl (AdquimoSDK.sdkError "FLUSH_ERROR" e),
       match onError (callbacks w2) with
       | Some h =>
           set_calls (calls w2 ++ [CallOnError h (AdquimoSDK.sdkError "FLUSH_ERROR" e)]) w2
       | None => w2
       end)
  end.
Proof.
  intros Hq. unfold AdquimoSDK.flush. unfold bind at 1. unfold gets at 1.
  destruct (eventQueue w) as [|e0 q] eqn:Hqueue; [congruence|].
  cbn [List.length Nat.eqb]. unfold try_catch, bind at 1. rewrite flush_send_eq.
  rewrite Hqueue.
  destruct (NetworkManager.sendBatch (batch_of w) (drained w)) as [[e|response] w2].
  - unfold AdquimoSDK.flush_catch, AdquimoSDK.callOnError, bind, gets, invoke, throw.
    destruct (onError (callbacks w2)); reflexivity.
  - cbn [fst snd]. unfold AdquimoSDK.flush_settle.
    destruct (success response).
    + unfold AdquimoSDK.callOnSuccess, bind, gets, invoke.
      destruct (onSuccess (callbacks w2)); reflexivity.
    + unfold AdquimoSDK.flush_catch, AdquimoSDK.callOnError, bind, gets, modify,
        invoke, throw. cbn.
      destruct (onError (callbacks w2)); reflexivity.
Qed.

Lemma flush_empty w : eventQueue w = [] -> AdquimoSDK.flush w = (inr tt, w).
Proof.
  intros Hq. unfold AdquimoSDK.flush, bind, gets. rewrite Hq. reflexivity.
Qed.

(** A flush keeps everything but the queue, the logs and the counters;
    it neither loses nor repeats an event; and when it returns, the
    queue it leaves is empty. *)
Lemma flush_account w :
  let r := AdquimoSDK.flush w in
  forget_delivery r.2 = forget_delivery w
  /\ all_events r.2 = all_events w
  /\ (r.1 = inr tt -> eventQueue r.2 = []).
Proof.
  destruct (eventQueue w) as [|e0 q] eqn:Hq.
  - rewrite flush_empty by assumption. cbn. auto.
  - rewrite flush_eq by congruence.
    destruct (sendBatch_account (batch_of w) (drained w)) as [Hv Hr].
    destruct (NetworkManager.sendBatch (batch_of w) (drained w)) as [[e|response] w2].
    + cbn [fst snd] in *.
      assert (Hq2 : eventQueue w2 = []) by (rewrite (view_eventQueue _ _ Hv); reflexivity).
      assert (Hf : forget_delivery w2 = forget_delivery w).
      { unfold forget_delivery.
        change (set_uuids 0 (set_calls [] (set_eventQueue [] (forget_network w2)))
                = forget_delivery w).
        rewrite Hv. reflexivity. }
      cbn zeta. repeat split.
      * destruct (onError (callbacks w2)); [|exact Hf]. rewrite <- Hf. reflexivity.
      * unfold all_events.
        destruct (onError (callbacks w2)); cbn;
          rewrite Hr, Hq2, map_app, concat_app; cbn; rewrite Hq, !app_nil_r; reflexivity.
      * intros H; discriminate.
    + cbn [fst snd] in *.
      assert (Hq2 : eventQueue w2 = []) by (rewrite (view_eventQueue _ _ Hv); reflexivity).
      assert (Hf : forget_delivery w2 = forget_delivery w).
      { unfold forget_delivery.
        change (set_uuids 0 (set_calls [] (set_eventQueue [] (forget_network w2)))
                = forget_delivery w).
        rewrite Hv. reflexivity. }
      destruct (success response); cbn zeta; repeat split.
      * destruct (onSuccess (callbacks w2)); [|exact Hf]. rewrite <- Hf. reflexivity.
      * unfold all_events.
        destruct (onSuccess (callbacks w2)); cbn;
          rewrite Hr, Hq2, map_app, concat_app; cbn; rewrite Hq, !app_nil_r; reflexivity.
      * intros _. destruct (onSuccess (callbacks w2)); exact Hq2.
      * cbn. destruct (onError (callbacks w2)); rewrite <- Hf; reflexivity.
      * unfold all_events. cbn.
        destruct (onError (callbacks w2)); cbn; rewrite Hr, Hq2, Hq, app_nil_r; reflexivity.
      * intros H; discriminate.
Qed.

(** The effect of calling a callback that may not be registered. *)
Definition logged (c : option Call) (w : world) : world :=
  match c with
  | Some call => set_calls (calls w ++ [call]) w
  | None => w
  end.

Lemma invoke_eq c w : invoke c w = (inr tt, logged c w).
Proof. destruct c; reflexivity. Qed.

Lemma logged_view c w : forget_delivery (logged c w) = forget_delivery w.
Proof. destruct c; reflexivity. Qed.

Lemma logged_eventQueue c w : eventQueue (logged c w) = eventQueue w.
Proof. destruct c; reflexivity. Qed.

Lemma logged_received c w : received (logged c w) = received w.
Proof. destruct c; reflexivity. Qed.

Lemma logged_sent c w : sent (logged c w) = sent w.
Proof. destruct c; reflexivity. Qed.

Lemma logged_all_events c w : all_events (logged c w) = all_events w.
Proof. destruct c; reflexivity. Qed.

(** Reading the fields a flush does not write. *)
Lemma kept_isInitialized w w' :
  forget_delivery w' = forget_delivery w -> isInitialized w' = isInitialized w.
Proof. intros H. apply (f_equal isInitialized) in H. exact H. Qed.

Lemma kept_flushTimer w w' :
  forget_delivery w' = forget_delivery w -> flushTimer w' = flushTimer w.
Proof. intros H. apply (f_equal flushTimer) in H. exact H. Qed.

Lemma kept_intervals w w' :
  forget_delivery w' = forget_delivery w -> intervals w' = intervals w.
Proof. intros H. apply (f_equal intervals) in H. exact H. Qed.

Lemma kept_callbacks w w' :
  forget_delivery w' = forget_delivery w -> callbacks w' = callbacks w.
Proof. intros H. apply (f_equal callbacks) in H. exact H. Qed.

Lemma kept_config w w' :
  forget_delivery w' = forget_delivery w -> config w' = config w.
Proof. intros H. apply (f_equal config) in H. exact H. Qed.

Lemma kept_host w w' :
  forget_delivery w' = forget_delivery w -> host w' = host w.
Proof. intros H. apply (f_equal host) in H. exact H. Qed.

Lemma kept_storage w w' :
  forget_delivery w' = forget_delivery w -> storage w' = storage w.
Proof. intros H. apply (f_equal storage) in H. exact H. Qed.

Lemma kept_currentUser w w' :
  forget_delivery w' = forget_delivery w -> currentUser w' = currentUser w.
Proof. intros H. apply (f_equal currentUser) in H. exact H. Qed.

Lemma kept_currentSession w w' :
  forget_delivery w' = forget_delivery w -> currentSession w' = currentSession w.
Proof. intros H. apply (f_equal currentSession) in H. exact H. Qed.

(** [sendBatch] records its batch, once. *)
Lemma request_loop_sent rc body remaining : forall attempt lastError w,
  sent (NetworkManager.request_loop remaining rc body attempt lastError w).2 = sent w.
Proof.
  induction remaining as [|r IH]; intros attempt lastError w.
  - reflexivity.
  - cbn. unfold bind, try_catch, NetworkManager.makeRequest, bind, gets, modify. cbn.
    destruct (fetch (host w) (fetchCount w)) as [msg|resp] eqn:Hf; cbn.
    + destruct (attempt =? maxRetries rc); cbn; [reflexivity|].
      rewrite IH. reflexivity.
    + unfold NetworkManager.handleResponse.
      destruct (NetworkManager.ok resp) eqn:Hok; cbn; rewrite ?Hok; cbn.
      * destruct (bodyJson resp); reflexivity.
      * reflexivity.
Qed.

Transparent NetworkManager.sendBatch.

Lemma sendBatch_sent batch w :
  sent (NetworkManager.sendBatch batch w).2 = sent w ++ [batch].
Proof.
  unfold NetworkManager.sendBatch, NetworkManager.request, bind, modify, gets. cbn.
  rewrite request_loop_sent. reflexivity.
Qed.

Opaque NetworkManager.sendBatch.

(** A flush of a non-empty queue sends one batch, the whole queue in
    order, and settles in one of two ways: the batch has reached the
    collector and the queue is empty, or it has not and the queue is as
    it was. *)
Lemma flush_outcome w :
  eventQueue w <> [] ->
  let r := AdquimoSDK.flush w in
  sent r.2 = sent w ++ [batch_of w]
  /\ ((eventQueue r.2 = [] /\ received r.2 = received w ++ [batch_of w])
      \/ (eventQueue r.2 = eventQueue w /\ received r.2 = received w
          /\ exists e, r.1 = inl (AdquimoSDK.sdkError "FLUSH_ERROR" e))).
Proof.
  intros Hq. rewrite flush_eq by assumption.
  pose proof (sendBatch_sent (batch_of w) (drained w)) as Hs.
  destruct (sendBatch_account (batch_of w) (drained w)) as [Hv Hr].
  destruct (NetworkManager.sendBatch (batch_of w) (drained w)) as [[e|response] w2].
  - cbn [fst snd] in *.
    pose proof (view_eventQueue _ _ Hv) as Hq2. cbn in Hq2.
    destruct (onError (callbacks w2)); cbn; (split; [exact Hs|left; split; assumption]).
  - cbn [fst snd] in *.
    pose proof (view_eventQueue _ _ Hv) as Hq2. cbn in Hq2.
    destruct (success response); cbn zeta.
    + destruct (onSuccess (callbacks w2)); cbn; (split; [exact Hs|left; split; assumption]).
    + cbn. rewrite Hq2, app_nil_r.
      destruct (onError (callbacks w2)); cbn;
        (split; [exact Hs|right; repeat split; [exact Hr|eexists; reflexivity]]).
Qed.

(** [flush] on a non-empty queue, in its two halves. *)
Lemma flush_unfold w :
  eventQueue w <> [] ->
  AdquimoSDK.flush w =
  match AdquimoSDK.flush_send w with
  | (inr p, w1) =>
      try_catch (AdquimoSDK.flush_settle p.1 p.2) AdquimoSDK.flush_catch w1
  | (inl e, w1) => AdquimoSDK.flush_catch e w1
  end.
Proof.
  intros Hq. unfold AdquimoSDK.flush. unfold bind at 1. unfold gets at 1.
  destruct (eventQueue w) as [|e0 q] eqn:Hqueue; [congruence|].
  cbn [List.length Nat.eqb]. unfold try_catch at 1, bind at 1.
  destruct (AdquimoSDK.flush_send w) as [[e|p] w1]; reflexivity.
Qed.

(** The second half of a flush whose batch was refused, run on a queue
    that may have grown in the meantime: the drained events go back in
    front of it, in their order. *)
Lemma settle_failure events response w :
  success response = false ->
  try_catch (AdquimoSDK.flush_settle events response) AdquimoSDK.flush_catch w =
  let thrown := AdquimoSDK.sdkError "FLUSH_ERROR"
                  (match error response with
                   | Some e => Adquimo e
                   | None => ThrownUndefined
                   end) in
  let w1 := set_eventQueue (events ++ eventQueue w) w in
  (inl thrown, logged ((fun h => CallOnError h thrown) <$> onError (callbacks w1)) w1).
Proof.
  intros Hs. unfold AdquimoSDK.flush_settle, AdquimoSDK.flush_catch,
    AdquimoSDK.callOnError, try_catch, bind, gets, modify, throw.
  rewrite Hs. cbn. rewrite invoke_eq. reflexivity.
Qed.

Opaque AdquimoSDK.flush.

(** ** track *)

(** The event [createEvent] builds in [w]. *)
Definition event_for (options : TrackingManager.CreateEventOptions) (w : world) : Event :=
  mkEvent (uuid_of (uuids w))
    (TrackingManager.name options) (TrackingManager.category options)
    (TrackingManager.action options) (TrackingManager.label options)
    (TrackingManager.value options)
    (or_else (TrackingManager.properties options) (VObj []))
    (or_else (or_else (get_prop_opt (currentUser w) "id") VNull) VUndefined)
    (or_else (or_else (get_prop_opt (currentSession w) "id") VNull) VUndefined)
    (clock w) "sdk" VERSION.

(** [createEvent] always returns: it builds the record and checks
    nothing. *)
Lemma createEvent_eq options w :
  TrackingManager.createEvent options w =
  (inr (event_for options w), set_uuids (S (uuids w)) w).
Proof. reflexivity. Qed.

(** The state after the [push] and the [onEvent] call of [queueEvent]. *)
Definition pushed (event : Event) (w : world) : world :=
  let w1 := set_eventQueue (eventQueue w ++ [event]) w in
  logged ((fun h => CallOnEvent h event) <$> onEvent (callbacks w1)) w1.

Lemma queueEvent_eq event w :
  AdquimoSDK.queueEvent event w =
  if batchSize (config w) <=? Z.of_nat (List.length (eventQueue w ++ [event]))
  then AdquimoSDK.flush (pushed event w)
  else (inr tt, pushed event w).
Proof.
  unfold AdquimoSDK.queueEvent, AdquimoSDK.callOnEvent, bind, gets, modify, pushed, ret.
  cbn [callbacks set_eventQueue].
  destruct (onEvent (callbacks w)); cbn;
    destruct (batchSize (config w) <=? _); reflexivity.
Qed.

(** One call of [track], with its arguments. *)
Record TrackCall : Type := mkTrack {
  t_name : string;
  t_properties : jsval;
  t_category : option string;
  t_action : option string;
  t_label : option string;
  t_value : option Z
}.

Definition do_track (c : TrackCall) : M unit :=
  AdquimoSDK.track (t_name c) (t_properties c) (t_category c) (t_action c)
    (t_label c) (t_value c).

Definition options_of (c : TrackCall) : TrackingManager.CreateEventOptions :=
  TrackingManager.mkEventOptions (t_name c) (or_else (t_properties c) VUndefined)
    (AdquimoSDK.str_arg (t_category c)) (AdquimoSDK.str_arg (t_action c))
    (AdquimoSDK.str_arg (t_label c)) (AdquimoSDK.num_arg (t_value c)).

(** The event a call of [track] queues in [w]. *)
Definition tracked (c : TrackCall) (w : world) : Event := event_for (options_of c) w.

Lemma tracked_name c w : ev_name (tracked c w) = t_name c.
Proof. reflexivity. Qed.

Lemma track_eq c w :
  isInitialized w = true ->
  do_track c w =
  let w1 := pushed (tracked c w) (set_uuids (S (uuids w)) w) in
  if batchSize (config w) <=? Z.of_nat (List.length (eventQueue w ++ [tracked c w]))
  then
    match AdquimoSDK.flush w1 with
    | (inr u, w2) => (inr u, w2)
    | (inl e, w2) =>
        (inl (AdquimoSDK.sdkError "TRACKING_ERROR" e),
         logged ((fun h => CallOnError h (AdquimoSDK.sdkError "TRACKING_ERROR" e))
                   <$> onError (callbacks w2)) w2)
    end
  else (inr tt, w1).
Proof.
  intros Hinit.
  unfold do_track, AdquimoSDK.track, AdquimoSDK.guarded. unfold bind at 1, gets at 1.
  rewrite Hinit. cbn [negb]. unfold try_catch. unfold bind at 1.
  fold (options_of c). rewrite createEvent_eq. rewrite queueEvent_eq.
  fold (tracked c w). cbn [config set_uuids eventQueue].
  destruct (batchSize (config w) <=? Z.of_nat (List.length (eventQueue w ++ [tracked c w]))).
  - cbn zeta. destruct (AdquimoSDK.flush _) as [[e|u] w2]; [|reflexivity].
    unfold AdquimoSDK.callOnError, bind, gets, throw. rewrite invoke_eq. reflexivity.
  - reflexivity.
Qed.

(** ** Runs of the coordinator *)

(** What the caller and the host do to a coordinator, one step after
    the other; each call is awaited before the next. *)
Inductive Action : Type :=
| DoTrack (c : TrackCall)
| DoFlush
| TimerFires
| Wait (ms : Z).

Definition step (a : Action) (w : world) : world :=
  match a with
  | DoTrack c => (do_track c w).2
  | DoFlush => (AdquimoSDK.flush w).2
  | TimerFires => (AdquimoSDK.timerFlush w).2
  | Wait ms => elapse ms w
  end.

(** The events a step adds to the queue. *)
Definition queued_by (a : Action) (w : world) : list Event :=
  match a with
  | DoTrack c => if isInitialized w then [tracked c w] else []
  | _ => []
  end.

Fixpoint run (l : list Action) (w : world) : world :=
  match l with
  | [] => w
  | a :: r => run r (step a w)
  end.

Fixpoint tracked_by (l : list Action) (w : world) : list Event :=
  match l with
  | [] => []
  | a :: r => queued_by a w ++ tracked_by r (step a w)
  end.

Lemma pushed_all_events event w :
  all_events (pushed event w) = all_events w ++ [event].
Proof.
  unfold pushed. cbn zeta. rewrite logged_all_events.
  unfold all_events. cbn. now rewrite app_assoc.
Qed.


Lemma track_not_ready c w :
  isInitialized w = false ->
  do_track c w = (inl (AdquimoSDK.notInitialized "tracking events"), w).
Proof.
  intros Hinit. unfold do_track, AdquimoSDK.track, AdquimoSDK.guarded, bind, gets.
  now rewrite Hinit.
Qed.



(** A flush whose batch is refused, awaited at once. *)
Lemma failed_flush w events response w1 :
  eventQueue w <> [] ->
  AdquimoSDK.flush_send w = (inr (events, response), w1) ->
  success response = false ->
  events = eventQueue w
  /\ eventQueue w1 = []
  /\ eventQueue (AdquimoSDK.flush w).2 = eventQueue w
  /\ received (AdquimoSDK.flush w).2 = received w
  /\ exists e, (AdquimoSDK.flush w).1 = inl (AdquimoSDK.sdkError "FLUSH_ERROR" e).
Proof.
  intros Hq Hsend Hfail.
  pose proof (flush_unfold w Hq) as Hflush. rewrite Hsend in Hflush. cbn [fst snd] in Hflush.
  rewrite flush_send_eq in Hsend.
  destruct (sendBatch_account (batch_of w) (drained w)) as [Hv Hr].
  destruct (NetworkManager.sendBatch (batch_of w) (drained w)) as [[e|resp] w2];
    [discriminate|].
  injection Hsend as <- <- <-. cbn [fst snd] in *. rewrite Hfail in Hr.
  pose proof (view_eventQueue _ _ Hv) as Hq2. cbn in Hq2.
  split; [reflexivity|]. split; [exact Hq2|]. split; [|split].
  - rewrite Hflush, settle_failure by assumption. cbn zeta. cbn [snd].
    rewrite logged_eventQueue. cbn. now rewrite Hq2, app_nil_r.
  - rewrite Hflush, settle_failure by assumption. cbn zeta. cbn [snd].
    rewrite logged_received. exact Hr.
  - rewrite Hflush, settle_failure by assumption. cbn zeta. cbn [fst].
    eexists; reflexivity.
Qed.


Lemma request_without_attempts rc body w :
  maxRetries rc < 0 ->
  NetworkManager.request rc body w =
  (inr (NetworkManager.createErrorResponse (JsError "Unknown error")), w).
Proof.
  intros Hneg. unfold NetworkManager.request.
  replace (Z.to_nat (maxRetries rc + 1)) with O by lia. reflexivity.
Qed.



(** ** C4: a failed flush puts the drained events back *)



(** ** C10: destroy with a failing last flush *)

Lemma destroy_flush_throws w e :
  (AdquimoSDK.flush w).1 = inl e ->
  AdquimoSDK.destroy w = (inl (AdquimoSDK.sdkError "DESTROY_ERROR" e), (AdquimoSDK.flush w).2).
Proof.
  intros Hf. unfold AdquimoSDK.destroy, try_catch. unfold bind at 1.
  destruct (AdquimoSDK.flush w) as [[e'|u] w']; cbn [fst snd] in *; [|discriminate].
  now injection Hf as ->.
Qed.

(** C10. When the flush inside [destroy] throws, [destroy] throws a
    [DESTROY_ERROR] and stops there: the interval timer stays live, the
    timer handle, the callbacks and the initialized flag are as before.
    When the flush threw because the delivery of the non-empty queue
    failed, the queue too is as before: the events are back in it. *)
Theorem C10_destroy_stops_at_a_failed_flush (w : world) :
  (forall e, (AdquimoSDK.flush w).1 = inl e ->
     let r := AdquimoSDK.destroy w in
     r.1 = inl (Adquimo (mkError "DESTROY_ERROR" (message_of e)))
     /\ intervals r.2 = intervals w
     /\ flushTimer r.2 = flushTimer w
     /\ callbacks r.2 = callbacks w
     /\ isInitialized r.2 = isInitialized w)
  /\ (forall events response w1,
        eventQueue w <> [] ->
        AdquimoSDK.flush_send w = (inr (events, response), w1) ->
        success response = false ->
        let r := AdquimoSDK.destroy w in
        r.1 = inl (Adquimo (mkError "DESTROY_ERROR" "[object Object]"))
        /\ eventQueue r.2 = eventQueue w
        /\ intervals r.2 = intervals w
        /\ flushTimer r.2 = flushTimer w
        /\ callbacks r.2 = callbacks w
        /\ isInitialized r.2 = isInitialized w).
Proof.
  assert (General : forall e, (AdquimoSDK.flush w).1 = inl e ->
     let r := AdquimoSDK.destroy w in
     r.1 = inl (Adquimo (mkError "DESTROY_ERROR" (message_of e)))
     /\ intervals r.2 = intervals w
     /\ flushTimer r.2 = flushTimer w
     /\ callbacks r.2 = callbacks w
     /\ isInitialized r.2 = isInitialized w).
  { intros e Hf r. subst r. rewrite (destroy_flush_throws w e Hf). cbn [fst snd].
    destruct (flush_account w) as (Hkept & _ & _).
    split; [reflexivity|].
    split; [exact (kept_intervals _ _ Hkept)|].
    split; [exact (kept_flushTimer _ _ Hkept)|].
    split; [exact (kept_callbacks _ _ Hkept)|exact (kept_isInitialized _ _ Hkept)]. }
  split; [exact General|].
  intros events response w1 Hq Hsend Hfail r. subst r.
  pose proof (flush_unfold w Hq) as Hflush. rewrite Hsend in Hflush.
  cbn [fst snd] in Hflush. rewrite settle_failure in Hflush by assumption.
  cbn zeta in Hflush.
  assert (Hthrown : (AdquimoSDK.flush w).1 =
            inl (AdquimoSDK.sdkError "FLUSH_ERROR"
                   (match error response with
                    | Some e => Adquimo e
                    | None => ThrownUndefined
                    end)))
    by (rewrite Hflush; reflexivity).
  destruct (General _ Hthrown) as (Hr & Hi & Ht & Hc & Hinit).
  split; [exact Hr|]. split; [|now repeat split].
  rewrite (destroy_flush_throws w _ Hthrown).
  cbn [snd].
  destruct (failed_flush _ _ _ _ Hq Hsend Hfail) as (_ & _ & Hrestored & _).
  exact Hrestored.
Qed.

Lemma C10_destroy_stops_at_a_failed_flush_witness :
  let w := Demo.two_queued Demo.failing in
  let r := AdquimoSDK.destroy w in
  r.1 = inl (Adquimo (mkError "DESTROY_ERROR" "[object Object]"))
  /\ eventQueue r.2 = eventQueue w
  /\ intervals r.2 = intervals w
  /\ flushTimer r.2 = flushTimer w
  /\ callbacks r.2 = callbacks w
  /\ isInitialized r.2 = isInitialized w.
Proof.
  assert (Hq : eventQueue (Demo.two_queued Demo.failing) <> [])
    by (vm_compute; discriminate).
  destruct (AdquimoSDK.flush_send (Demo.two_queued Demo.failing))
    as [[e|[events response]] w1] eqn:Hsend; [vm_compute in Hsend; discriminate|].
  assert (Hfail : success response = false)
    by (vm_compute in Hsend; injection Hsend as _ <- _; reflexivity).
  exact (proj2 (C10_destroy_stops_at_a_failed_flush (Demo.two_queued Demo.failing))
           events response w1 Hq Hsend Hfail).
Defined.

Example destroy_keeps_a_live_timer_when_the_flush_fails :
  let r := AdquimoSDK.destroy (Demo.two_queued Demo.failing) in
  intervals r.2 = [O] /\ flushTimer r.2 = Some O /\ isInitialized r.2 = true
  /\ callbacks r.2 = Demo.registered /\ map ev_name (eventQueue r.2) = ["a"; "b"].
Proof. vm_compute. repeat split. Qed.

Example destroy_tears_down_when_the_flush_succeeds :
  let r := AdquimoSDK.destroy (Demo.two_queued Demo.accepting) in
  r.1 = inr tt /\ intervals r.2 = [] /\ isInitialized r.2 = false
  /\ callbacks r.2 = mkCallbacks None None None /\ eventQueue r.2 = [].
Proof. vm_compute. repeat split. Qed.

(** ** C5: the guard of the public operations *)

(** When [initialize] returns, the coordinator is initialized,
    whatever it went through before. *)
Lemma initialize_returns_ready w :
  (AdquimoSDK.initialize w).1 = inr tt -> isInitialized (AdquimoSDK.initialize w).2 = true.
Proof.
  destruct (AdquimoSDK.initialize w) as [r w'] eqn:Hinit. cbn [fst snd].
  intros ->. revert Hinit.
  unfold AdquimoSDK.initialize, try_catch. unfold bind at 1.
  destruct (StorageManager.initialize w) as [[e|u] w1].
  { unfold AdquimoSDK.callOnError, bind, gets, throw. rewrite invoke_eq.
    intros H; discriminate H. }
  unfold bind at 1.
  destruct (UserManager.initialize w1) as [[e|u1] w2].
  { unfold AdquimoSDK.callOnError, bind, gets, throw. rewrite invoke_eq.
    intros H; discriminate H. }
  unfold bind at 1.
  destruct (SessionManager.initialize w2) as [[e|u2] w3].
  { unfold AdquimoSDK.callOnError, bind, gets, throw. rewrite invoke_eq.
    intros H; discriminate H. }
  unfold AdquimoSDK.startEventFlushing, AdquimoSDK.callOnSuccess, setInterval,
    bind, gets, modify, ret. rewrite invoke_eq.
  intros [= <-]. destruct (onSuccess (callbacks w3)); reflexivity.
Qed.

(** C5, as the code has it.  While the coordinator is not initialized
    (before an [initialize] that succeeds, and after a [destroy] that
    returns), [track], [trackPageView], [trackClick], [identify],
    [alias] and [reset] throw [SDK_NOT_INITIALIZED] and change nothing.
    [flush] has no such guard: on an empty queue it returns, whatever
    the state.  [destroy] clears the flag and nothing bars a later
    [initialize], which sets it again when it returns. *)
Theorem C5_guarded_operations :
  (forall w, isInitialized w = false ->
     (forall name properties category action label value,
        AdquimoSDK.track name properties category action label value w =
        (inl (Adquimo (mkError "SDK_NOT_INITIALIZED"
                         "SDK must be initialized before tracking events")), w))
     /\ (forall url title referrer properties,
           AdquimoSDK.trackPageView url title referrer properties w =
           (inl (Adquimo (mkError "SDK_NOT_INITIALIZED"
                            "SDK must be initialized before tracking page views")), w))
     /\ (forall element selector text properties,
           AdquimoSDK.trackClick element selector text properties w =
           (inl (Adquimo (mkError "SDK_NOT_INITIALIZED"
                            "SDK must be initialized before tracking clicks")), w))
     /\ (forall userId properties,
           AdquimoSDK.identify userId properties w =
           (inl (Adquimo (mkError "SDK_NOT_INITIALIZED"
                            "SDK must be initialized before identifying users")), w))
     /\ (forall anonymousId userId,
           AdquimoSDK.alias anonymousId userId w =
           (inl (Adquimo (mkError "SDK_NOT_INITIALIZED"
                            "SDK must be initialized before aliasing users")), w))
     /\ AdquimoSDK.reset w =
        (inl (Adquimo (mkError "SDK_NOT_INITIALIZED"
                         "SDK must be initialized before resetting")), w))
  /\ (forall w, (AdquimoSDK.destroy w).1 = inr tt ->
        isInitialized (AdquimoSDK.destroy w).2 = false)
  /\ (forall w, eventQueue w = [] -> AdquimoSDK.flush w = (inr tt, w))
  /\ (forall w, (AdquimoSDK.initialize w).1 = inr tt ->
        isInitialized (AdquimoSDK.initialize w).2 = true).
Proof.
  split; [|split; [|split]].
  - intros w Hinit.
    repeat split; intros;
      unfold AdquimoSDK.track, AdquimoSDK.trackPageView, AdquimoSDK.trackClick,
        AdquimoSDK.identify, AdquimoSDK.alias, AdquimoSDK.reset,
        AdquimoSDK.guarded, bind, gets;
      rewrite Hinit; reflexivity.
  - intros w Hok.
    unfold AdquimoSDK.destroy, try_catch in *. unfold bind at 1 in Hok. unfold bind at 1.
    destruct (AdquimoSDK.flush w) as [[e|u] w1]; [discriminate|].
    unfold bind, gets, modify, clearInterval in *.
    destruct (flushTimer w1); reflexivity.
  - exact flush_empty.
  - exact initialize_returns_ready.
Qed.

(** C5 as stated fails.  [flush] on a coordinator that was never
    initialized returns without an error; and a destroyed coordinator
    is used again: after [initialize], [reset], [destroy] and a second
    [initialize], [track] queues its event. *)
Lemma C5_counterexample :
  (let w := Demo.fresh Demo.accepting in
   isInitialized w = false /\ AdquimoSDK.flush w = (inr tt, w))
  /\ (let destroyed :=
        Demo.after AdquimoSDK.destroy (Demo.after AdquimoSDK.reset (Demo.ready Demo.accepting)) in
      let again := AdquimoSDK.initialize destroyed in
      let used := Demo.track_named "a" again.2 in
      isInitialized destroyed = false
      /\ again.1 = inr tt
      /\ isInitialized again.2 = true
      /\ used.1 = inr tt
      /\ map ev_name (eventQueue used.2) = ["a"]).
Proof. vm_compute. repeat split. Qed.

(** ** C6: the flush at [batchSize] *)

Lemma pushed_kept event w : forget_delivery (pushed event w) = forget_delivery w.
Proof. unfold pushed. cbn zeta. now rewrite logged_view. Qed.

Lemma pushed_eventQueue event w : eventQueue (pushed event w) = eventQueue w ++ [event].
Proof. unfold pushed. cbn zeta. now rewrite logged_eventQueue. Qed.

Lemma pushed_sent event w : sent (pushed event w) = sent w.
Proof. unfold pushed. cbn zeta. now rewrite logged_sent. Qed.

Lemma pushed_received event w : received (pushed event w) = received w.
Proof. unfold pushed. cbn zeta. now rewrite logged_received. Qed.

(** A call of [track] below the threshold queues its event and sends
    nothing. *)
Lemma track_below c w :
  isInitialized w = true ->
  Z.of_nat (List.length (eventQueue w)) + 1 < batchSize (config w) ->
  do_track c w = (inr tt, pushed (tracked c w) (set_uuids (S (uuids w)) w)).
Proof.
  intros Hinit Hlt. rewrite track_eq by assumption. cbn zeta.
  rewrite length_app. cbn [List.length].
  destruct (Z.leb_spec (batchSize (config w))
              (Z.of_nat (List.length (eventQueue w) + 1))); [lia|reflexivity].
Qed.

Lemma tracks_below calls : forall w,
  isInitialized w = true ->
  Z.of_nat (List.length (eventQueue w) + List.length calls) < batchSize (config w) ->
  let w' := run (map DoTrack calls) w in
  sent w' = sent w
  /\ received w' = received w
  /\ forget_delivery w' = forget_delivery w
  /\ eventQueue w' = eventQueue w ++ tracked_by (map DoTrack calls) w
  /\ map ev_name (tracked_by (map DoTrack calls) w) = map t_name calls.
Proof.
  induction calls as [|c calls IH]; intros w Hinit Hlt; cbn [map run tracked_by].
  - cbn. now rewrite app_nil_r.
  - cbn [List.length] in Hlt. cbn [step queued_by]. rewrite Hinit.
    rewrite track_below by (assumption || lia). cbn [snd].
    set (w1 := pushed (tracked c w) (set_uuids (S (uuids w)) w)).
    assert (Hk : forget_delivery w1 = forget_delivery w) by (subst w1; now rewrite pushed_kept).
    assert (Hq1 : eventQueue w1 = eventQueue w ++ [tracked c w])
      by (subst w1; now rewrite pushed_eventQueue).
    destruct (IH w1) as (Hs & Hr & Hkept & Hq & Hn).
    + now rewrite (kept_isInitialized _ _ Hk).
    + rewrite (kept_config _ _ Hk), Hq1, length_app. cbn [List.length]. lia.
    + cbn zeta. rewrite Hs, Hr, Hkept, Hq, Hq1.
      subst w1. rewrite pushed_sent, pushed_received, pushed_kept.
      repeat split; try reflexivity.
      * now rewrite <- app_assoc.
      * cbn [app map]. now rewrite Hn.
Qed.

(** C6. From an initialized coordinator with an empty queue, the
    first [batchSize - 1] calls of [track] send nothing; the call that
    brings the queue to [batchSize] triggers one flush, whose one batch
    holds the [batchSize] events in the order of the calls.  That flush
    has settled when the call returns: the batch has reached the
    collector and the queue is empty, or it has not and the queue holds
    the events again.  The next call of [track] starts from that state;
    after a delivered batch (and for [batchSize > 1]) it queues its one
    event behind nothing and sends nothing. *)
Theorem C6_one_flush_at_batch_size (w : world) (calls : list TrackCall)
  (last : TrackCall) :
  isInitialized w = true ->
  eventQueue w = [] ->
  Z.of_nat (List.length calls) + 1 = batchSize (config w) ->
  let before := run (map DoTrack calls) w in
  let r := do_track last before in
  sent before = sent w
  /\ exists b,
       sent r.2 = sent w ++ [b]
       /\ map ev_name (batch_events b) = map t_name (calls ++ [last])
       /\ batch_size b = (List.length calls + 1)%nat
       /\ ((eventQueue r.2 = [] /\ received r.2 = received w ++ [b])
           \/ (eventQueue r.2 = batch_events b /\ received r.2 = received w
               /\ exists e, r.1 = inl (AdquimoSDK.sdkError "TRACKING_ERROR" e)))
       /\ (forall next,
             eventQueue r.2 = [] -> 1 < batchSize (config w) ->
             let r' := do_track next r.2 in
             r'.1 = inr tt /\ eventQueue r'.2 = [tracked next r.2]
             /\ sent r'.2 = sent w ++ [b]).
Proof.
  intros Hinit Hempty Hsize before r.
  destruct (tracks_below calls w Hinit) as (Hs & Hr & Hkept & Hq & Hn).
  { rewrite Hempty. cbn [List.length]. lia. }
  fold before in Hs, Hr, Hkept, Hq. rewrite Hempty in Hq. cbn [app] in Hq.
  assert (Hinit' : isInitialized before = true)
    by now rewrite (kept_isInitialized _ _ Hkept).
  assert (Hcfg : config before = config w) by exact (kept_config _ _ Hkept).
  split; [exact Hs|].
  set (w1 := pushed (tracked last before) (set_uuids (S (uuids before)) before)).
  assert (Hq1 : eventQueue w1 = tracked_by (map DoTrack calls) w ++ [tracked last before])
    by (subst w1; rewrite pushed_eventQueue; cbn; now rewrite Hq).
  assert (Hne : eventQueue w1 <> [])
    by (rewrite Hq1; intros H; apply app_eq_nil in H; destruct H; discriminate).
  assert (Hlen : List.length (tracked_by (map DoTrack calls) w) = List.length calls)
    by (rewrite <- (length_map ev_name), Hn, length_map; reflexivity).
  assert (Hk1 : forget_delivery w1 = forget_delivery w)
    by (subst w1; rewrite pushed_kept; exact Hkept).
  exists (batch_of w1).
  assert (Hr_eq : r =
    match AdquimoSDK.flush w1 with
    | (inr u, w2) => (inr u, w2)
    | (inl e, w2) =>
        (inl (AdquimoSDK.sdkError "TRACKING_ERROR" e),
         logged ((fun h => CallOnError h (AdquimoSDK.sdkError "TRACKING_ERROR" e))
                   <$> onError (callbacks w2)) w2)
    end).
  { subst r. rewrite track_eq by assumption. cbn zeta. fold w1.
    rewrite Hcfg, Hq, length_app, Hlen. cbn [List.length].
    destruct (Z.leb_spec (batchSize (config w)) (Z.of_nat (List.length calls + 1)));
      [reflexivity|lia]. }
  destruct (flush_outcome w1 Hne) as (Hsent & Hout).
  destruct (flush_account w1) as (Hkept1 & _ & _).
  assert (Hsent1 : sent w1 = sent w) by (subst w1; rewrite pushed_sent; exact Hs).
  assert (Hrec1 : received w1 = received w) by (subst w1; rewrite pushed_received; exact Hr).
  rewrite Hsent1 in Hsent. rewrite Hrec1 in Hout.
  assert (Hfinal : sent r.2 = sent w ++ [batch_of w1]
                   /\ eventQueue r.2 = eventQueue (AdquimoSDK.flush w1).2
                   /\ received r.2 = received (AdquimoSDK.flush w1).2
                   /\ forget_delivery r.2 = forget_delivery w
                   /\ (forall e, (AdquimoSDK.flush w1).1 = inl e ->
                         r.1 = inl (AdquimoSDK.sdkError "TRACKING_ERROR" e))).
  { rewrite Hr_eq. destruct (AdquimoSDK.flush w1) as [[e|u] w2]; cbn [fst snd] in *.
    - rewrite logged_sent, logged_eventQueue, logged_received, logged_view, Hkept1.
      repeat split; try assumption. now intros e' [= ->].
    - rewrite Hkept1. repeat split; try assumption. intros e' [=]. }
  destruct Hfinal as (Hfs & Hfq & Hfr & Hfk & Hfe).
  split; [exact Hfs|].
  split; [cbn; rewrite Hq1, !map_app, Hn; reflexivity|].
  split; [cbn; rewrite Hq1, length_app, Hlen; reflexivity|].
  split.
  - destruct Hout as [[Hq2 Hr2]|(Hq2 & Hr2 & e & He)].
    + left. now rewrite Hfq, Hfr.
    + right. rewrite Hfq, Hfr. repeat split; try assumption.
      exists (AdquimoSDK.sdkError "FLUSH_ERROR" e). now apply Hfe.
  - intros next Hdone Hbig r'. subst r'.
    assert (Hinit2 : isInitialized r.2 = true)
      by now rewrite (kept_isInitialized _ _ Hfk).
    rewrite track_below; [|assumption|].
    + cbn [fst snd]. rewrite pushed_eventQueue, pushed_sent.
      cbn [eventQueue sent set_uuids]. rewrite Hdone.
      repeat split; assumption.
    + rewrite (kept_config _ _ Hfk), Hdone. cbn [List.length]. lia.
Qed.

Lemma C6_one_flush_at_batch_size_witness :
  let w := Demo.ready Demo.accepting in
  let calls := [mkTrack "a" VUndefined None None None None;
                mkTrack "b" VUndefined None None None None] in
  let last := mkTrack "c" VUndefined None None None None in
  let r := do_track last (run (map DoTrack calls) w) in
  exists b,
    sent r.2 = sent w ++ [b]
    /\ map ev_name (batch_events b) = ["a"; "b"; "c"]
    /\ batch_size b = 3%nat.
Proof.
  cbv zeta.
  destruct (C6_one_flush_at_batch_size (Demo.ready Demo.accepting)
              [mkTrack "a" VUndefined None None None None;
               mkTrack "b" VUndefined None None None None]
              (mkTrack "c" VUndefined None None None None))
    as (_ & b & Hs & Hn & Hsize & _).
  - reflexivity.
  - reflexivity.
  - reflexivity.
  - exists b. split; [exact Hs|]. split; [exact Hn|exact Hsize].
Defined.

Example three_tracks_one_batch :
  let w := Demo.after (Demo.track_named "d")
             (Demo.after (Demo.track_named "c") (Demo.two_queued Demo.accepting)) in
  map (fun b => map ev_name (batch_events b)) (sent w) = [["a"; "b"; "c"]]
  /\ map ev_name (eventQueue w) = ["d"]
  /\ fetchCount w = 1%nat.
Proof. vm_compute. repeat split. Qed.

(** ** What comes back from storage *)

(** A value read from a stored document: [undefined] (a missing
    member) or the image of a document.  No such value is a [Date]. *)
Definition from_json (v : jsval) : Prop := v = VUndefined \/ exists j, v = of_json j.

Lemma assoc_get_of_json k (ms : list (string * json)) :
  assoc_get k (map (fun kv => (kv.1, of_json kv.2)) ms) = of_json <$> assoc_get k ms.
Proof.
  induction ms as [|[k' j] ms IH]; cbn; [reflexivity|].
  destruct (String.eqb k k'); [reflexivity|exact IH].
Qed.

Lemma from_json_member v k : from_json v -> from_json (get_prop_opt v k).
Proof.
  intros [->|[j ->]]; [left; reflexivity|].
  destruct j as [| | | |ms]; cbn; try (left; reflexivity).
  rewrite assoc_get_of_json. destruct (assoc_get k ms) as [j|]; cbn.
  - right. now exists j.
  - left. reflexivity.
Qed.

(** The defect behind C7 and C8: [getTime] is called on a value that
    went through [JSON.stringify] and [JSON.parse], where a date has
    become a string.  The call throws a [TypeError] for every such
    value. *)
Lemma getTime_from_json v : from_json v -> exists msg, getTime v = inl (JsError msg).
Proof.
  intros [->|[j ->]]; [eexists; reflexivity|].
  destruct j; eexists; reflexivity.
Qed.

Lemma get_prop_truthy v k : truthy v = true -> get_prop v k = inr (get_prop_opt v k).
Proof. destruct v; cbn; intros H; try discriminate; reflexivity. Qed.

Lemma toISOString_not_empty ms : String.eqb (toISOString ms) EmptyString = false.
Proof.
  unfold toISOString. destruct (civil_from_days (ms / 86400000)) as [[y m] d].
  destruct (year_text y); reflexivity.
Qed.

(** ** StorageManager.get and StorageManager.set *)

Definition full_key (w : world) (key : string) : string :=
  keyPrefix (StorageManager.cfg w) +:+ key.

(** [get] of a key with nothing stored. *)
Lemma get_absent key w :
  storage w !! full_key w key = None -> StorageManager.get key w = (inr VNull, w).
Proof.
  intros Hnone. unfold StorageManager.get, StorageManager.getFullKey,
    StorageManager.getItem, try_catch, bind, gets.
  fold (full_key w key). rewrite Hnone. reflexivity.
Qed.

(** [get] of an item that carries a [ttl]: the expiry test calls
    [getTime] on the parsed time stamp and throws, at any time. *)
Lemma get_with_ttl key w ms :
  storage w !! full_key w key = Some (JObject ms) ->
  truthy (get_prop_opt (of_json (JObject ms)) "ttl") = true ->
  exists msg,
    StorageManager.get key w = (inl (Adquimo (mkError "STORAGE_GET_ERROR" msg)), w).
Proof.
  intros Hsome Httl.
  destruct (getTime_from_json (get_prop_opt (of_json (JObject ms)) "timestamp"))
    as [msg Hmsg].
  { apply from_json_member. right. now eexists. }
  exists msg.
  unfold StorageManager.get, StorageManager.getFullKey,
    StorageManager.getItem, try_catch, bind, gets, lift, now.
  fold (full_key w key). rewrite Hsome. cbv beta iota zeta.
  rewrite (get_prop_truthy (of_json (JObject ms)) "ttl" eq_refl). rewrite Httl.
  unfold bind, gets.
  rewrite (get_prop_truthy (of_json (JObject ms)) "timestamp" eq_refl).
  rewrite Hmsg. reflexivity.
Qed.

(** [get] of an item without a [ttl]: its value, as [JSON.parse] gives
    it. *)
Lemma get_without_ttl key w ms :
  storage w !! full_key w key = Some (JObject ms) ->
  truthy (get_prop_opt (of_json (JObject ms)) "ttl") = false ->
  StorageManager.get key w = (inr (get_prop_opt (of_json (JObject ms)) "value"), w).
Proof.
  intros Hsome Httl.
  unfold StorageManager.get, StorageManager.getFullKey,
    StorageManager.getItem, try_catch, bind, gets, lift, now.
  fold (full_key w key). rewrite Hsome. cbv beta iota zeta.
  rewrite (get_prop_truthy (of_json (JObject ms)) "ttl" eq_refl). rewrite Httl.
  unfold ret.
  rewrite (get_prop_truthy (of_json (JObject ms)) "value" eq_refl). reflexivity.
Qed.

(** [get] writes nothing: the branch that removes an expired item is
    never reached. *)
Lemma get_reads_only key w : (StorageManager.get key w).2 = w.
Proof.
  destruct (storage w !! full_key w key) as [doc|] eqn:Hdoc.
  - unfold StorageManager.get, StorageManager.getFullKey,
      StorageManager.getItem, try_catch, bind, gets, lift, now.
    fold (full_key w key). rewrite Hdoc.
    destruct doc as [| | | |ms]; try reflexivity.
    destruct (truthy (get_prop_opt (of_json (JObject ms)) "ttl")) eqn:Httl.
    + destruct (get_with_ttl key w ms Hdoc Httl) as [msg Hmsg].
      unfold StorageManager.get, StorageManager.getFullKey,
        StorageManager.getItem, try_catch, bind, gets, lift, now in Hmsg.
      fold (full_key w key) in Hmsg. rewrite Hdoc in Hmsg. rewrite Hmsg. reflexivity.
    + pose proof (get_without_ttl key w ms Hdoc Httl) as Hval.
      unfold StorageManager.get, StorageManager.getFullKey,
        StorageManager.getItem, try_catch, bind, gets, lift, now in Hval.
      fold (full_key w key) in Hval. rewrite Hdoc in Hval. rewrite Hval. reflexivity.
  - now rewrite get_absent.
Qed.

(** The document [set] stores. *)
Definition stored_item (fullKey : string) (value : jsval) (t : Z) (ttl : option Z) : json :=
  JObject
    (("key", JString fullKey)
     :: match to_json value with Some j => [("value", j)] | None => [] end
     ++ ("timestamp", JString (toISOString t))
     :: match ttl with
        | Some n => if n =? 0 then [] else [("ttl", JNumber n)]
        | None => []
        end).

Definition fits (w : world) (doc : json) : bool :=
  negb (negb (maxSize (StorageManager.cfg w) =? 0)
        && (maxSize (StorageManager.cfg w) <? Z.of_nat (String.length (json_text doc)))).

Lemma set_eq key value ttl w :
  StorageManager.set key value ttl w =
  let doc := stored_item (full_key w key) value (clock w) ttl in
  if fits w doc
  then (inr tt, set_storage (<[full_key w key := doc]> (storage w)) w)
  else (inl (Adquimo (mkError "STORAGE_SET_ERROR" "Value exceeds maximum storage size")), w).
Proof.
  unfold StorageManager.set, StorageManager.getFullKey, StorageManager.setItem,
    now, try_catch, bind, gets, modify, throw_new_Error, throw, fits.
  fold (full_key w key).
  assert (Hdoc : to_json
            (VObj [("key", VStr (full_key w key)); ("value", value);
                   ("timestamp", VDate (clock w));
                   ("ttl", or_else (StorageManager.ttl_arg ttl) VUndefined)])
          = Some (stored_item (full_key w key) value (clock w) ttl)).
  { unfold stored_item. cbn. destruct (to_json value); destruct ttl as [n|]; cbn;
      try reflexivity; unfold or_else; cbn; destruct (n =? 0); reflexivity. }
  cbv beta iota zeta. fold (full_key w key). rewrite Hdoc. cbv beta iota zeta.
  destruct (negb (maxSize (StorageManager.cfg w) =? 0)
            && (maxSize (StorageManager.cfg w)
                <? Z.of_nat (String.length
                     (json_text (stored_item (full_key w key) value (clock w) ttl)))));
    reflexivity.
Qed.

Lemma stored_item_ttl fullKey value t ttl :
  truthy (get_prop_opt (of_json (stored_item fullKey value t ttl)) "ttl") =
  match ttl with Some n => negb (n =? 0) | None => false end.
Proof.
  unfold stored_item. destruct (to_json value); destruct ttl as [n|]; cbn;
    try reflexivity; destruct (n =? 0) eqn:Hn; cbn; rewrite ?Hn; reflexivity.
Qed.

Lemma stored_item_value fullKey value t ttl :
  get_prop_opt (of_json (stored_item fullKey value t ttl)) "value" =
  match to_json value with Some j => of_json j | None => VUndefined end.
Proof.
  unfold stored_item. destruct (to_json value); destruct ttl as [n|]; cbn;
    try reflexivity; destruct (n =? 0); reflexivity.
Qed.

Lemma startsWith_app p s : startsWith p (p +:+ s) = true.
Proof.
  induction p as [|c p IH]; [reflexivity|].
  change (String c p +:+ s) with (String c (p +:+ s)).
  cbn -[Ascii.eqb]. now rewrite Ascii.eqb_refl.
Qed.

Lemma substring_from_app p s : substring_from (String.length p) (p +:+ s) = s.
Proof. induction p as [|c p IH]; [reflexivity|exact IH]. Qed.

Lemma startsWith_split p s :
  startsWith p s = true -> s = p +:+ substring_from (String.length p) s.
Proof.
  revert s; induction p as [|c p IH]; intros s H; [reflexivity|].
  destruct s as [|d s]; [discriminate|].
  cbn -[Ascii.eqb] in H.
  destruct (Ascii.eqb_spec c d) as [->|]; [|discriminate].
  change (String d s = String d (p +:+ substring_from (String.length p) s)).
  f_equal. now apply IH.
Qed.

(** [getKeys] lists exactly the keys under which something is stored. *)
Lemma getKeys_spec w :
  exists keys,
    StorageManager.getKeys w = (inr keys, w)
    /\ forall k, In k keys <-> is_Some (storage w !! full_key w k).
Proof.
  eexists. split; [reflexivity|].
  intros k. rewrite in_map_iff. split.
  - intros (full & <- & Hin). apply filter_In in Hin as [Hin Hpre].
    apply startsWith_split in Hpre. unfold full_key. rewrite <- Hpre.
    apply list_elem_of_In, elem_of_elements, elem_of_dom in Hin. exact Hin.
  - intros Hsome. exists (full_key w k). split.
    + apply substring_from_app.
    + apply filter_In. split.
      * apply list_elem_of_In, elem_of_elements, elem_of_dom. exact Hsome.
      * apply startsWith_app.
Qed.

(** ** C8: an item stored with a time to live *)

(** Whatever is stored with a [ttl], [get] throws on it from then on. *)
Lemma get_after_set_with_ttl key value n w w1 :
  n <> 0 ->
  StorageManager.set key value (Some n) w = (inr tt, w1) ->
  forall dt, exists msg,
    StorageManager.get key (elapse dt w1) =
    (inl (Adquimo (mkError "STORAGE_GET_ERROR" msg)), elapse dt w1).
Proof.
  intros Hn Hset dt. rewrite set_eq in Hset. cbn zeta in Hset.
  destruct (fits w _); [|discriminate]. injection Hset as <-.
  eapply get_with_ttl.
  - cbn. unfold full_key, StorageManager.cfg. cbn. apply lookup_insert_eq.
  - change (truthy (get_prop_opt
              (of_json (stored_item (full_key w key) value (clock w) (Some n))) "ttl")
            = true).
    rewrite stored_item_ttl. now apply negb_true_iff, Z.eqb_neq.
Qed.

(** Without a [ttl] the value comes back, as [JSON.parse] reads it. *)
Lemma get_after_set_without_ttl key value w w1 :
  StorageManager.set key value None w = (inr tt, w1) ->
  forall dt,
    StorageManager.get key (elapse dt w1) =
    (inr (match to_json value with Some j => of_json j | None => VUndefined end),
     elapse dt w1).
Proof.
  intros Hset dt. rewrite set_eq in Hset. cbn zeta in Hset.
  destruct (fits w _); [|discriminate]. injection Hset as <-.
  rewrite <- (stored_item_value (full_key w key) value (clock w) None).
  apply (get_without_ttl key _
           (("key", JString (full_key w key))
            :: match to_json value with Some j => [("value", j)] | None => [] end
            ++ [("timestamp", JString (toISOString (clock w)))])).
  - cbn. unfold full_key, StorageManager.cfg. cbn. apply lookup_insert_eq.
  - change (truthy (get_prop_opt
              (of_json (stored_item (full_key w key) value (clock w) None)) "ttl")
            = false).
    now rewrite stored_item_ttl.
Qed.

(** C8 on the code.  After [set("k", "v", 1000)], [get("k")] at once
    does not return ["v"]: it throws [STORAGE_GET_ERROR].  More than
    1000 ms later it throws again instead of returning [null], nothing
    is removed, and [getKeys] still lists [k]. *)
Theorem C8_get_throws_on_an_item_with_ttl :
  let w := Demo.fresh Demo.accepting in
  let stored := StorageManager.set "k" (VStr "v") (Some 1000) w in
  let at_once := StorageManager.get "k" stored.2 in
  let later := StorageManager.get "k" (elapse 1001 stored.2) in
  stored.1 = inr tt
  /\ at_once.1 = inl (Adquimo (mkError "STORAGE_GET_ERROR" "getTime is not a function"))
  /\ later.1 = inl (Adquimo (mkError "STORAGE_GET_ERROR" "getTime is not a function"))
  /\ storage later.2 = storage stored.2
  /\ (StorageManager.getKeys later.2).1 = inr ["k"].
Proof. vm_compute. repeat split. Qed.

Example get_after_set_without_ttl_returns_the_value :
  let stored := StorageManager.set "k" (VStr "v") None (Demo.fresh Demo.accepting) in
  (StorageManager.get "k" stored.2).1 = inr (VStr "v").
Proof. reflexivity. Qed.

Example a_stored_date_comes_back_as_a_string :
  let stored := StorageManager.set "k" (VDate 0) None (Demo.fresh Demo.accepting) in
  (StorageManager.get "k" stored.2).1 = inr (VStr "1970-01-01T00:00:00.000Z").
Proof. reflexivity. Qed.

(** ** C7: a persisted session at initialization *)

(** Whatever session is stored, if it has a start time, [initialize]
    throws: the validity test calls [getTime] on the parsed start
    time.  Neither the age of the session nor the clock matters. *)
Lemma initialize_on_stored_session w ms :
  storage w !! full_key w SESSION_ID = Some (JObject ms) ->
  truthy (get_prop_opt (of_json (JObject ms)) "ttl") = false ->
  truthy (get_prop_opt (of_json (JObject ms)) "value") = true ->
  truthy (get_prop_opt (get_prop_opt (of_json (JObject ms)) "value") "startTime") = true ->
  exists msg,
    SessionManager.initialize w = (inl (Adquimo (mkError "SESSION_INIT_ERROR" msg)), w).
Proof.
  intros Hsome Httl Hvalue Hstart.
  destruct (getTime_from_json
              (get_prop_opt (get_prop_opt (of_json (JObject ms)) "value") "startTime"))
    as [msg Hmsg].
  { apply from_json_member, from_json_member. right. now eexists. }
  exists msg.
  unfold SessionManager.initialize, try_catch. unfold bind at 1.
  rewrite (get_without_ttl _ _ _ Hsome Httl). rewrite Hvalue.
  unfold SessionManager.isSessionValid, now, bind, lift, gets.
  rewrite (get_prop_truthy _ "startTime" Hvalue). rewrite Hstart. cbn [negb].
  rewrite Hmsg. reflexivity.
Qed.

Lemma truthy_to_json v : truthy v = true -> exists j, to_json v = Some j.
Proof. destruct v; cbn; intros H; try discriminate; eexists; reflexivity. Qed.

(** Every session that [createNewSession] persists is such a session:
    from then on, on any state with that storage, [initialize]
    throws. *)
Lemma initialize_after_createNewSession userId properties w session w1 :
  SessionManager.createNewSession userId properties w = (inr session, w1) ->
  forall w2,
    storage w2 = storage w1 ->
    storageConfig (config w2) = storageConfig (config w) ->
    exists msg,
      SessionManager.initialize w2 = (inl (Adquimo (mkError "SESSION_INIT_ERROR" msg)), w2).
Proof.
  intros Hcreate w2 Hstorage Hconfig.
  unfold SessionManager.createNewSession, try_catch in Hcreate.
  unfold bind at 1 in Hcreate. unfold uuidv4, now, SessionManager.getDeviceInfo,
    SessionManager.getBrowserInfo, SessionManager.getLocationInfo in Hcreate.
  unfold bind at 1 2 3 4 5 6, gets, modify, ret in Hcreate.
  cbv beta iota zeta in Hcreate. unfold bind at 1 in Hcreate.
  rewrite set_eq in Hcreate. cbv zeta in Hcreate.
  destruct (fits _ _); [|discriminate].
  cbn -[toISOString] in Hcreate. injection Hcreate as _ <-.
  destruct (truthy_to_json (or_else userId (VStr "anonymous"))) as [ju Hju].
  { unfold or_else. destruct (truthy userId) eqn:Hu; [exact Hu|reflexivity]. }
  destruct (truthy_to_json (or_else properties (VObj []))) as [jp Hjp].
  { unfold or_else. destruct (truthy properties) eqn:Hp; [exact Hp|reflexivity]. }
  eapply initialize_on_stored_session.
  - rewrite Hstorage. unfold full_key, StorageManager.cfg. rewrite Hconfig.
    cbn -[toISOString]. unfold full_key, StorageManager.cfg. cbn -[toISOString].
    rewrite lookup_insert_eq.
    unfold stored_item. cbn -[toISOString]. rewrite Hju, Hjp. reflexivity.
  - reflexivity.
  - cbn -[toISOString].
    destruct (to_json (device (host w))); destruct (to_json (browser (host w)));
      reflexivity.
  - cbn -[toISOString].
    destruct (to_json (device (host w))); destruct (to_json (browser (host w)));
      cbn -[toISOString]; now rewrite toISOString_not_empty.
Qed.

(** C7 on the code.  A first page load creates a session and persists
    it.  On the next load, [dt] ms later, whatever [dt] is,
    [SessionManager.initialize] neither resumes the session nor
    replaces it: it throws [SESSION_INIT_ERROR], and so the
    initialization of the SDK fails. *)
Theorem C7_initialize_throws_on_a_persisted_session (dt : Z) :
  let first := Demo.ready Demo.accepting in
  let reloaded :=
    AdquimoSDK.construct Demo.accepting (Demo.epoch + dt) (storage first) Demo.input in
  let r := SessionManager.initialize reloaded in
  get_prop_opt (currentSession first) "startTime" = VDate Demo.epoch
  /\ r.1 = inl (Adquimo (mkError "SESSION_INIT_ERROR" "getTime is not a function"))
  /\ currentSession r.2 = VNull
  /\ storage r.2 = storage first
  /\ (AdquimoSDK.initialize reloaded).1 =
     inl (Adquimo (mkError "INITIALIZATION_ERROR" "[object Object]")).
Proof. vm_compute. repeat split. Qed.

Example a_session_without_start_time_is_replaced :
  let w := Demo.fresh Demo.accepting in
  let stored := StorageManager.set SESSION_ID (VObj [("id", VStr "old")]) None w in
  let r := SessionManager.initialize (elapse 5 stored.2) in
  r.1 = inr tt /\ get_prop_opt (currentSession r.2) "id" = VStr "uuid-0".
Proof. vm_compute. repeat split. Qed.

(** ** C9: alias *)

(** The user record [alias] builds from the anonymous record. *)
Definition aliased (anonymousUser : jsval) (userId : string) (t : Z) : jsval :=
  spread anonymousUser [("id", VStr userId); ("lastSeenAt", VDate t)].

Lemma alias_eq anonymousId userId w :
  UserManager.alias anonymousId userId w =
  if String.eqb anonymousId EmptyString || String.eqb userId EmptyString then
    (inl (Adquimo (mkError "USER_ALIAS_ERROR" "Both anonymous ID and user ID are required")),
     w)
  else
    match (StorageManager.get (UserManager.anonymous_key anonymousId) w).1 with
    | inl e => (inl (createError "USER_ALIAS_ERROR" e), w)
    | inr anonymousUser =>
        if truthy anonymousUser then
          let user := aliased anonymousUser userId (clock w) in
          let doc := stored_item (full_key w USER_ID) user (clock w) None in
          if fits w doc then
            (inr tt,
             set_storage
               (delete (full_key w (UserManager.anonymous_key anonymousId))
                  (<[full_key w USER_ID := doc]> (storage w)))
               (set_currentUser user w))
          else
            (inl (Adquimo (mkError "USER_ALIAS_ERROR" "[object Object]")), w)
        else (inl (Adquimo (mkError "USER_ALIAS_ERROR" "Anonymous user not found")), w)
    end.
Proof.
  unfold UserManager.alias, try_catch.
  destruct (String.eqb anonymousId EmptyString || String.eqb userId EmptyString);
    [reflexivity|].
  unfold bind at 1.
  pose proof (get_reads_only (UserManager.anonymous_key anonymousId) w) as Hread.
  destruct (StorageManager.get (UserManager.anonymous_key anonymousId) w)
    as [[e|anonymousUser] w0]; cbn [fst snd] in *; subst w0; [reflexivity|].
  destruct (truthy anonymousUser); [|reflexivity].
  cbn [negb]. unfold now. unfold bind at 1. unfold gets at 1. cbv beta iota zeta.
  fold (aliased anonymousUser userId (clock w)). unfold bind at 1.
  rewrite set_eq. cbn zeta.
  destruct (fits w _); reflexivity.
Qed.

Lemma assoc_get_set_eq {A : Type} k (v : A) l : assoc_get k (assoc_set k v l) = Some v.
Proof.
  induction l as [|[k' v'] l IH]; cbn.
  - now rewrite String.eqb_refl.
  - destruct (String.eqb k k') eqn:Hk; cbn.
    + now rewrite String.eqb_refl.
    + now rewrite Hk.
Qed.

Lemma assoc_get_set_ne {A : Type} k k' (v : A) l :
  k <> k' -> assoc_get k (assoc_set k' v l) = assoc_get k l.
Proof.
  intros Hne. induction l as [|[k0 v0] l IH]; cbn.
  - destruct (String.eqb_spec k k'); [congruence|reflexivity].
  - destruct (String.eqb_spec k' k0) as [->|Hk0]; cbn.
    + destruct (String.eqb_spec k k0); [congruence|reflexivity].
    + destruct (String.eqb k k0); [reflexivity|exact IH].
Qed.


Lemma aliased_lastSeenAt anonymousUser userId t :
  get_prop_opt (aliased anonymousUser userId t) "lastSeenAt" = VDate t.
Proof. unfold aliased, spread. cbn. now rewrite assoc_get_set_eq. Qed.




Example alias_without_a_record :
  (UserManager.alias "anon-1" "user-1" (Demo.ready Demo.accepting)).1 =
  inl (Adquimo (mkError "USER_ALIAS_ERROR" "Anonymous user not found")).
Proof. vm_compute. reflexivity. Qed.

(** ** C1: event creation and validation *)

Example validate_accepts_a_well_formed_event :
  EventValidator.validate
    (event_for (TrackingManager.mkEventOptions "signup_done"
                  (VObj [("plan", VStr "free"); ("seats", VNum 3)])
                  (Some "account") None None None)
       (Demo.ready Demo.accepting)) =
  EventValidator.mkResult true [].
Proof. vm_compute. reflexivity. Qed.

(** C1 on the code.  [createEvent] validates nothing: for an event
    name and a property map that [EventValidator.validate] rejects (bad
    name, bad key, value that is an object), it returns the record all
    the same, and [track] puts that record in the queue. *)
Theorem C1_createEvent_returns_invalid_events :
  let w := Demo.ready Demo.accepting in
  let created := TrackingManager.createEvent Demo.invalid_options w in
  let event := event_for Demo.invalid_options w in
  let tracked :=
    AdquimoSDK.track "bad name!" (VObj [("bad key", VObj [])]) None None None None w in
  created.1 = inr event
  /\ ev_name event = "bad name!"
  /\ ev_properties event = VObj [("bad key", VObj [])]
  /\ EventValidator.isValid (EventValidator.validate event) = false
  /\ map (fun i => (EventValidator.field i, EventValidator.rule i))
       (EventValidator.errors (EventValidator.validate event))
     = [("name", "format"); ("properties.bad key", "format");
        ("properties.bad key", "type")]
  /\ tracked.1 = inr tt
  /\ eventQueue tracked.2 = [event].
Proof. vm_compute. repeat split. Qed.

(* ================================================================== *)
(** * Further facts: storage, users, sessions, delivery, the coordinator *)
(* ================================================================== *)

(** ** Keys *)

Lemma append_inj_r (p a b : string) : p +:+ a = p +:+ b -> a = b.
Proof.
  induction p as [|c p IH]; [trivial|].
  change (String c (p +:+ a) = String c (p +:+ b) -> a = b).
  intros [= H]. exact (IH H).
Qed.

Lemma full_key_inj w k k' : full_key w k = full_key w k' -> k = k'.
Proof. apply append_inj_r. Qed.

Lemma set_storage_same w : set_storage (storage w) w = w.
Proof. destruct w; reflexivity. Qed.

(** ** What [get] answers depends on the stored document only *)

Lemma get_congr key w w' :
  keyPrefix (StorageManager.cfg w') = keyPrefix (StorageManager.cfg w) ->
  storage w' !! full_key w key = storage w !! full_key w key ->
  (StorageManager.get key w').1 = (StorageManager.get key w).1.
Proof.
  intros Hp Hs.
  assert (Hk : full_key w' key = full_key w key) by (unfold full_key; now rewrite Hp).
  destruct (storage w !! full_key w key) as [doc|] eqn:Hdoc.
  - destruct doc as [| | | |ms].
    1-4: unfold StorageManager.get, StorageManager.getFullKey,
      StorageManager.getItem, try_catch, bind, gets, lift, now;
      fold (full_key w key); fold (full_key w' key); rewrite Hk, Hs, Hdoc; reflexivity.
    destruct (truthy (get_prop_opt (of_json (JObject ms)) "ttl")) eqn:Httl.
    + destruct (getTime_from_json (get_prop_opt (of_json (JObject ms)) "timestamp"))
        as [msg Hmsg].
      { apply from_json_member. right. now eexists. }
      unfold StorageManager.get, StorageManager.getFullKey,
        StorageManager.getItem, try_catch, bind, gets, lift, now.
      fold (full_key w key). fold (full_key w' key). rewrite Hk, Hs, Hdoc.
      cbv beta iota zeta.
      rewrite (get_prop_truthy (of_json (JObject ms)) "ttl" eq_refl). rewrite Httl.
      unfold bind, gets.
      rewrite (get_prop_truthy (of_json (JObject ms)) "timestamp" eq_refl).
      rewrite Hmsg. reflexivity.
    + rewrite (get_without_ttl key w ms Hdoc Httl).
      rewrite (get_without_ttl key w' ms); [reflexivity| |exact Httl].
      now rewrite Hk, Hs.
  - rewrite (get_absent key w Hdoc), (get_absent key w'); [reflexivity|].
    now rewrite Hk, Hs.
Qed.

Lemma remove_eq key w :
  StorageManager.remove key w =
  (inr tt, set_storage (delete (full_key w key) (storage w)) w).
Proof. reflexivity. Qed.

(** X1. [get] is a pure read.  Whatever is stored and whatever the
    clock shows, it leaves the state as it found it: it never removes
    an item.  For a key with nothing stored it answers [null]. *)
Theorem X1_get_is_a_pure_read (key : string) (w : world) :
  (StorageManager.get key w).2 = w
  /\ (storage w !! full_key w key = None -> (StorageManager.get key w).1 = inr VNull)
  /\ (forall dt, (StorageManager.get key (elapse dt w)).1 = (StorageManager.get key w).1).
Proof.
  split; [apply get_reads_only|]. split.
  - intros Hnone. now rewrite get_absent.
  - intros dt. apply get_congr; reflexivity.
Qed.

(** ** Values that survive JSON *)

(** A value without a date and without [undefined], at any depth:
    what [JSON.stringify] followed by [JSON.parse] gives back
    unchanged. *)
Fixpoint plain (v : jsval) : bool :=
  match v with
  | VUndefined | VDate _ => false
  | VNull | VBool _ | VNum _ | VStr _ => true
  | VObj fs =>
      (fix all (l : list (string * jsval)) : bool :=
         match l with
         | [] => true
         | (_, x) :: r => plain x && all r
         end) fs
  end.

Fixpoint plain_round_trip (v : jsval) :
  plain v = true -> exists j, to_json v = Some j /\ of_json j = v.
Proof.
  destruct v as [| |b|n|s|ms|fs]; cbn [plain]; intros H; try discriminate.
  - exists JNull. split; reflexivity.
  - exists (JBool b). split; reflexivity.
  - exists (JNumber n). split; reflexivity.
  - exists (JString s). split; reflexivity.
  - assert (Hfs : exists js,
              (fix members (l : list (string * jsval)) : list (string * json) :=
                 match l with
                 | [] => []
                 | (k, x) :: r =>
                     match to_json x with
                     | Some j => (k, j) :: members r
                     | None => members r
                     end
                 end) fs = js
              /\ map (fun kv => (kv.1, of_json kv.2)) js = fs).
    { revert H. induction fs as [|[k x] fs IH]; intros H.
      - exists []. split; reflexivity.
      - apply andb_true_iff in H as [Hx Hr].
        destruct (plain_round_trip x Hx) as (j & Hj & Hback).
        destruct (IH Hr) as (js & Hjs & Hmap).
        exists ((k, j) :: js). split.
        + rewrite Hj, Hjs. reflexivity.
        + cbn. now rewrite Hback, Hmap. }
    destruct Hfs as (js & Hjs & Hmap).
    exists (JObject js). split.
    + cbn [to_json]. now rewrite Hjs.
    + cbn [of_json]. now rewrite Hmap.
Qed.

(** X2. Round trip through storage.  A value stored without a time to
    live and made of strings, numbers, booleans, [null] and objects of
    such comes back from [get] as it was stored, at any later time. *)
Theorem X2_set_then_get (key : string) (value : jsval) (w w1 : world) :
  plain value = true ->
  StorageManager.set key value None w = (inr tt, w1) ->
  forall dt, StorageManager.get key (elapse dt w1) = (inr value, elapse dt w1).
Proof.
  intros Hplain Hset dt.
  destruct (plain_round_trip value Hplain) as (j & Hj & Hback).
  rewrite (get_after_set_without_ttl key value w w1 Hset dt), Hj, Hback. reflexivity.
Qed.

Lemma X2_set_then_get_witness :
  let w := Demo.fresh Demo.accepting in
  let value := VObj [("plan", VStr "free"); ("seats", VNum 3); ("owner", VNull)] in
  StorageManager.get "k" (elapse 5000 (StorageManager.set "k" value None w).2)
  = (inr value, elapse 5000 (StorageManager.set "k" value None w).2).
Proof.
  cbv zeta.
  apply (X2_set_then_get "k" _ (Demo.fresh Demo.accepting)); reflexivity.
Defined.

(** ** One key at a time *)

Lemma get_other_key key k' w m :
  k' <> key ->
  (forall k, k <> full_key w key -> m !! k = storage w !! k) ->
  (StorageManager.get k' (set_storage m w)).1 = (StorageManager.get k' w).1.
Proof.
  intros Hne Hm. apply get_congr; [reflexivity|].
  cbn. apply Hm. intros H. apply full_key_inj in H. congruence.
Qed.

(** X3. [set] is all or nothing and writes one key.  It returns, or
    it throws [STORAGE_SET_ERROR] because the text is longer than
    [maxSize] and leaves the state as it was; nothing but the storage
    backend changes; and what [get] answers for any other key is what
    it answered before. *)
Theorem X3_set_writes_one_key (key : string) (value : jsval) (ttl : option Z)
  (w : world) :
  let r := StorageManager.set key value ttl w in
  (r.1 = inr tt
   \/ r = (inl (Adquimo (mkError "STORAGE_SET_ERROR" "Value exceeds maximum storage size")),
           w))
  /\ set_storage (storage w) r.2 = w
  /\ (forall k', k' <> key ->
        (StorageManager.get k' r.2).1 = (StorageManager.get k' w).1).
Proof.
  cbv zeta. rewrite set_eq. cbv zeta.
  destruct (fits w _); cbn [fst snd].
  - split; [now left|]. split; [destruct w; reflexivity|].
    intros k' Hne. apply (get_other_key key); [exact Hne|].
    intros k Hk. now apply lookup_insert_ne.
  - split; [now right|]. split; [apply set_storage_same|]. reflexivity.
Qed.

(** X4. [remove] never throws.  Afterwards [get] answers [null] for
    the key, whatever was stored under it; the other keys answer as
    before; and removing a key with nothing stored changes nothing. *)
Theorem X4_remove (key : string) (w : world) :
  let r := StorageManager.remove key w in
  r.1 = inr tt
  /\ StorageManager.get key r.2 = (inr VNull, r.2)
  /\ (forall k', k' <> key ->
        (StorageManager.get k' r.2).1 = (StorageManager.get k' w).1)
  /\ (storage w !! full_key w key = None -> r.2 = w).
Proof.
  cbv zeta. rewrite remove_eq. cbn [fst snd].
  split; [reflexivity|]. split; [|split].
  - apply get_absent. cbn. apply lookup_delete_eq.
  - intros k' Hne. apply (get_other_key key); [exact Hne|].
    intros k Hk. now apply lookup_delete_ne.
  - intros Hnone. rewrite delete_id by assumption. apply set_storage_same.
Qed.

Lemma NoDup_map_on {A B : Type} (f : A -> B) (l : list A) :
  (forall x y, In x l -> In y l -> f x = f y -> x = y) ->
  NoDup l -> NoDup (map f l).
Proof.
  intros Hinj Hnd. induction Hnd as [|x l Hx Hnd IH]; cbn.
  - constructor.
  - constructor.
    + intros Hin. apply list_elem_of_In, in_map_iff in Hin as (y & Hy & Hin).
      assert (y = x) by (apply Hinj; cbn; auto).
      subst y. apply Hx. now apply list_elem_of_In.
    + apply IH. intros a b Ha Hb. apply Hinj; cbn; auto.
Qed.

Lemma NoDup_List_filter {A : Type} (f : A -> bool) (l : list A) :
  NoDup l -> NoDup (List.filter f l).
Proof.
  intros Hnd. induction Hnd as [|x l Hx Hnd IH]; cbn.
  - constructor.
  - destruct (f x); [|exact IH].
    constructor; [|exact IH].
    intros Hin. apply Hx. apply list_elem_of_In.
    apply list_elem_of_In, filter_In in Hin. tauto.
Qed.

(** X5. [getKeys] never throws and changes nothing; it lists, without
    the prefix and each once, exactly the keys for which something is
    stored under the prefix. *)
Theorem X5_getKeys (w : world) :
  exists keys,
    StorageManager.getKeys w = (inr keys, w)
    /\ NoDup keys
    /\ forall k, In k keys <-> is_Some (storage w !! full_key w k).
Proof.
  destruct (getKeys_spec w) as (keys & Hkeys & Hspec).
  exists keys. split; [exact Hkeys|]. split; [|exact Hspec].
  assert (Hk : keys =
                map (substring_from (String.length (keyPrefix (StorageManager.cfg w))))
                  (List.filter (startsWith (keyPrefix (StorageManager.cfg w)))
                     (elements (dom (storage w)))))
    by (injection Hkeys as <-; reflexivity).
  rewrite Hk. apply NoDup_map_on.
  - intros x y Hx Hy Heq.
    apply filter_In in Hx as [_ Hx]. apply filter_In in Hy as [_ Hy].
    apply startsWith_split in Hx. apply startsWith_split in Hy.
    rewrite Hx, Hy. now rewrite Heq.
  - apply NoDup_List_filter. apply NoDup_elements.
Qed.

(** ** clear *)

Lemma clear_loop prefix keys : forall w,
  prefix = keyPrefix (StorageManager.cfg w) ->
  exists m,
    StorageMaintenance.forEach keys
      (fun key =>
         Run.bind (gets (fun w => keyPrefix (StorageManager.cfg w)))
           (fun prefix =>
              if startsWith prefix key then StorageManager.removeItem key else ret tt)) w
    = (inr tt, set_storage m w)
    /\ forall k,
         m !! k = if startsWith prefix k && bool_decide (k ∈ keys) then None
                  else storage w !! k.
Proof.
  induction keys as [|x keys IH]; intros w Hp.
  - exists (storage w). split.
    + cbn. now rewrite set_storage_same.
    + intros k. rewrite bool_decide_eq_false_2 by apply not_elem_of_nil.
      now rewrite andb_false_r.
  - cbn [StorageMaintenance.forEach]. unfold bind at 1. unfold bind at 1, gets at 1.
    rewrite <- Hp.
    destruct (startsWith prefix x) eqn:Hx.
    + unfold StorageManager.removeItem, modify.
      destruct (IH (set_storage (delete x (storage w)) w) Hp) as (m & Hm & Hlook).
      exists m. split; [exact Hm|].
      intros k. rewrite Hlook. cbn [storage set_storage].
      destruct (startsWith prefix k) eqn:Hk; cbn [andb].
      * destruct (decide (k = x)) as [->|Hne].
        -- rewrite (bool_decide_eq_true_2 (x ∈ x :: keys)) by (apply elem_of_cons; auto).
           destruct (bool_decide (x ∈ keys)); [reflexivity|apply lookup_delete_eq].
        -- rewrite lookup_delete_ne by congruence.
           destruct (bool_decide_reflect (k ∈ keys)) as [Hin|Hin].
           ++ rewrite bool_decide_eq_true_2 by (apply elem_of_cons; auto).
              reflexivity.
           ++ rewrite bool_decide_eq_false_2; [reflexivity|].
              intros H. apply elem_of_cons in H as [?|?]; congruence.
      * apply lookup_delete_ne. intros ->. congruence.
    + unfold ret.
      destruct (IH w Hp) as (m & Hm & Hlook).
      exists m. split; [exact Hm|].
      intros k. rewrite Hlook.
      destruct (startsWith prefix k) eqn:Hk; cbn [andb]; [|reflexivity].
      destruct (bool_decide_reflect (k ∈ keys)) as [Hin|Hin].
      * rewrite bool_decide_eq_true_2 by (apply elem_of_cons; auto).
        reflexivity.
      * rewrite bool_decide_eq_false_2; [reflexivity|].
        intros H. apply elem_of_cons in H as [->|?]; congruence.
Qed.

Lemma List_filter_none {A : Type} (f : A -> bool) (l : list A) :
  (forall x : A, In x l -> f x = false) -> List.filter f l = [].
Proof.
  induction l as [|x l IH]; intros H; cbn; [reflexivity|].
  rewrite (H x) by (cbn; auto). apply IH. intros y Hy. apply H. cbn; auto.
Qed.

Lemma clear_eq w :
  exists m,
    StorageMaintenance.clear w = (inr tt, set_storage m w)
    /\ forall k,
         m !! k =
         if StorageMaintenance.isLocalStorage w then
           if startsWith (keyPrefix (StorageManager.cfg w)) k then None
           else storage w !! k
         else None.
Proof.
  unfold StorageMaintenance.clear, try_catch. unfold bind at 1, gets at 1.
  destruct (StorageMaintenance.isLocalStorage w).
  - unfold bind at 1, gets at 1.
    destruct (clear_loop (keyPrefix (StorageManager.cfg w))
                (elements (dom (storage w))) w eq_refl) as (m & Hm & Hlook).
    exists m. rewrite Hm. split; [reflexivity|].
    intros k. rewrite Hlook.
    destruct (startsWith (keyPrefix (StorageManager.cfg w)) k); [|reflexivity].
    cbn [andb]. destruct (bool_decide_reflect (k ∈ elements (dom (storage w))))
      as [Hin|Hin]; [reflexivity|].
    destruct (storage w !! k) eqn:Hk; [|reflexivity].
    exfalso. apply Hin. apply elem_of_elements, elem_of_dom. eauto.
  - exists ∅. split; [reflexivity|]. intros k. apply lookup_empty.
Qed.

(** X6. [clear] never throws and writes nothing but the storage
    backend.  On web storage it removes every key that starts with the
    prefix and leaves every other key of the page alone; a [Map]
    backend is emptied.  Afterwards [getKeys] lists nothing. *)
Theorem X6_clear (w : world) :
  let r := StorageMaintenance.clear w in
  r.1 = inr tt
  /\ set_storage (storage w) r.2 = w
  /\ (forall k,
        storage r.2 !! k =
        if StorageMaintenance.isLocalStorage w then
          if startsWith (keyPrefix (StorageManager.cfg w)) k then None
          else storage w !! k
        else None)
  /\ StorageManager.getKeys r.2 = (inr [], r.2).
Proof.
  cbv zeta. destruct (clear_eq w) as (m & Hm & Hlook). rewrite Hm. cbn [fst snd].
  split; [reflexivity|]. split; [destruct w; reflexivity|]. split; [exact Hlook|].
  unfold StorageManager.getKeys, try_catch, gets. cbn [storage set_storage].
  f_equal. f_equal.
  change (StorageManager.cfg (set_storage m w)) with (StorageManager.cfg w).
  rewrite List_filter_none; [reflexivity|].
  intros x Hx. apply list_elem_of_In, elem_of_elements, elem_of_dom in Hx.
  rewrite Hlook in Hx.
  destruct (StorageMaintenance.isLocalStorage w); [|destruct Hx; discriminate].
  destruct (startsWith (keyPrefix (StorageManager.cfg w)) x); [|reflexivity].
  destruct Hx; discriminate.
Qed.

(** ** cleanup *)

(** The stored document carries a time to live. *)
Definition has_ttl (doc : json) : bool := truthy (get_prop_opt (of_json doc) "ttl").

(** What the loop of [cleanup] can step over: a key with nothing
    stored, or a document that is not [null] and has no time to live. *)
Definition steps_over (w : world) (key : string) : bool :=
  match storage w !! full_key w key with
  | None => true
  | Some JNull => false
  | Some doc => negb (has_ttl doc)
  end.

Lemma cleanup_item_eq t key w :
  exists msg,
    StorageMaintenance.cleanup_item t key w =
    (if steps_over w key then inr tt else inl (JsError msg), w).
Proof.
  unfold StorageMaintenance.cleanup_item, StorageManager.getFullKey,
    StorageManager.getItem, steps_over.
  unfold bind at 1, gets at 1. unfold bind at 1, gets at 1.
  fold (full_key w key).
  destruct (storage w !! full_key w key) as [doc|]; [|exists EmptyString; reflexivity].
  destruct doc as [|b|n|s|ms];
    [eexists; reflexivity|exists EmptyString; reflexivity|exists EmptyString; reflexivity
    |exists EmptyString; reflexivity|].
  unfold has_ttl.
  destruct (getTime_from_json (get_prop_opt (of_json (JObject ms)) "timestamp"))
    as [msg Hmsg].
  { apply from_json_member. right. now eexists. }
  exists msg. cbv beta iota zeta. unfold bind at 1, lift at 1.
  rewrite (get_prop_truthy (of_json (JObject ms)) "ttl" eq_refl).
  destruct (truthy (get_prop_opt (of_json (JObject ms)) "ttl")); [|reflexivity].
  unfold bind, lift.
  rewrite (get_prop_truthy (of_json (JObject ms)) "timestamp" eq_refl).
  rewrite Hmsg. reflexivity.
Qed.

Lemma cleanup_loop t keys : forall w,
  exists msg,
    StorageMaintenance.forEach keys (StorageMaintenance.cleanup_item t) w =
    (if forallb (steps_over w) keys then inr tt else inl (JsError msg), w).
Proof.
  induction keys as [|key keys IH]; intros w.
  - exists EmptyString. reflexivity.
  - cbn [StorageMaintenance.forEach forallb]. unfold bind at 1.
    destruct (cleanup_item_eq t key w) as [msg Hmsg]. rewrite Hmsg.
    destruct (steps_over w key); cbn [andb].
    + apply IH.
    + now exists msg.
Qed.

(** X7. [cleanup] never removes anything, expired or not: it leaves
    the state as it found it.  When some stored item carries a time to
    live it throws [STORAGE_CLEANUP_ERROR]; when every stored item is a
    document other than [null] without a time to live it returns. *)
Theorem X7_cleanup_removes_nothing (w : world) :
  (StorageMaintenance.cleanup w).2 = w
  /\ ((exists key doc,
         storage w !! full_key w key = Some doc /\ has_ttl doc = true) ->
      exists msg,
        (StorageMaintenance.cleanup w).1 =
        inl (Adquimo (mkError "STORAGE_CLEANUP_ERROR" msg)))
  /\ ((forall key doc,
         storage w !! full_key w key = Some doc -> doc <> JNull /\ has_ttl doc = false) ->
      (StorageMaintenance.cleanup w).1 = inr tt).
Proof.
  destruct (getKeys_spec w) as (keys & Hkeys & Hspec).
  destruct (cleanup_loop (clock w) keys w) as [msg Hloop].
  assert (Hrun : StorageMaintenance.cleanup w =
                 (if forallb (steps_over w) keys then inr tt
                  else inl (Adquimo (mkError "STORAGE_CLEANUP_ERROR" msg)), w)).
  { unfold StorageMaintenance.cleanup, try_catch. unfold bind at 1. rewrite Hkeys.
    unfold bind at 1, now, gets at 1. rewrite Hloop.
    destruct (forallb (steps_over w) keys); reflexivity. }
  rewrite Hrun. cbn [fst snd]. split; [reflexivity|]. split.
  - intros (key & doc & Hdoc & Httl).
    assert (Hbad : forallb (steps_over w) keys = false).
    { apply not_true_is_false. intros Hall.
      rewrite forallb_forall in Hall.
      assert (Hin : In key keys) by (apply Hspec; eauto).
      specialize (Hall key Hin). unfold steps_over in Hall. rewrite Hdoc in Hall.
      destruct doc; try discriminate; rewrite Httl in Hall; discriminate. }
    rewrite Hbad. now exists msg.
  - intros Hgood.
    assert (Hall : forallb (steps_over w) keys = true).
    { apply forallb_forall. intros key Hin. apply Hspec in Hin as [doc Hdoc].
      unfold steps_over. rewrite Hdoc.
      destruct (Hgood key doc Hdoc) as [Hnull Httl].
      destruct doc; try congruence; now rewrite Httl. }
    now rewrite Hall.
Qed.

Example cleanup_keeps_an_expired_item :
  let w := Demo.fresh Demo.accepting in
  let stored := (StorageManager.set "k" (VStr "v") (Some 1000) w).2 in
  let r := StorageMaintenance.cleanup (elapse 5000 stored) in
  r.1 = inl (Adquimo (mkError "STORAGE_CLEANUP_ERROR" "getTime is not a function"))
  /\ storage r.2 = storage stored.
Proof. vm_compute. repeat split. Qed.

(** ** getSize *)

Fixpoint Zsum (l : list Z) : Z :=
  match l with
  | [] => 0
  | x :: r => x + Zsum r
  end.

Lemma Zsum_perm l l' : l ≡ₚ l' -> Zsum l = Zsum l'.
Proof. induction 1; cbn; lia. Qed.

Lemma Zsum_zero l : (forall x, In x l -> x = 0) -> Zsum l = 0.
Proof.
  induction l as [|x l IH]; intros H; cbn; [reflexivity|].
  rewrite (H x) by (cbn; auto). rewrite IH; [reflexivity|].
  intros y Hy. apply H. cbn; auto.
Qed.

(** What one stored item counts for: the length of its full key and
    of its text. *)
Definition item_size (fullKey : string) (doc : json) : Z :=
  Z.of_nat (String.length fullKey) + Z.of_nat (String.length (json_text doc)).

Definition weight (prefix : string) (m : gmap string json) (k : string) : Z :=
  if startsWith prefix k then
    match m !! k with
    | Some doc => item_size k doc
    | None => 0
    end
  else 0.

(** The size of the items of [m] under [prefix]. *)
Definition size_of (prefix : string) (m : gmap string json) : Z :=
  Zsum (map (weight prefix m) (elements (dom m))).

Lemma string_of_Z_not_empty n : String.eqb (string_of_Z n) EmptyString = false.
Proof.
  unfold string_of_Z, NilZero.string_of_int, NilZero.string_of_uint.
  destruct (Z.to_int n) as [d|d]; [|reflexivity].
  destruct d; reflexivity.
Qed.

Lemma json_text_not_empty doc : String.eqb (json_text doc) EmptyString = false.
Proof.
  destruct doc as [|[|]|n|s|ms]; try reflexivity.
  apply string_of_Z_not_empty.
Qed.

Lemma getSize_eq w :
  StorageMaintenance.getSize w =
  (inr (size_of (keyPrefix (StorageManager.cfg w)) (storage w)), w).
Proof.
  unfold StorageMaintenance.getSize, try_catch, bind, gets, size_of.
  f_equal. f_equal.
  generalize (elements (dom (storage w))) as keys.
  assert (Hfold : forall keys a,
    fold_left
      (fun (size : Z) (key : string) =>
         if startsWith (keyPrefix (StorageManager.cfg w)) key
         then
           match storage w !! key with
           | Some value =>
               if StorageMaintenance.isLocalStorage w
                  && String.eqb (json_text value) EmptyString
               then size
               else size + (Z.of_nat (String.length key)
                            + Z.of_nat (String.length (json_text value)))
           | None => size
           end
         else size) keys a
    = a + Zsum (map (weight (keyPrefix (StorageManager.cfg w)) (storage w)) keys)).
  { induction keys as [|key keys IH]; intros a; cbn [fold_left map Zsum]; [lia|].
    rewrite IH. unfold weight at 2, item_size.
    destruct (startsWith (keyPrefix (StorageManager.cfg w)) key); [|lia].
    destruct (storage w !! key) as [value|]; [|lia].
    rewrite json_text_not_empty, andb_false_r. lia. }
  intros keys. rewrite Hfold. lia.
Qed.

Lemma size_insert_fresh prefix m i x :
  m !! i = None ->
  size_of prefix (<[i := x]> m) =
  (if startsWith prefix i then item_size i x else 0) + size_of prefix m.
Proof.
  intros Hnone. unfold size_of.
  rewrite dom_insert_L.
  rewrite (Zsum_perm _ (map (weight prefix (<[i := x]> m)) (i :: elements (dom m)))).
  - cbn [map Zsum]. f_equal.
    + unfold weight. now rewrite lookup_insert_eq.
    + f_equal. apply map_ext_in. intros k Hk.
      unfold weight. rewrite lookup_insert_ne; [reflexivity|].
      intros ->. apply list_elem_of_In, elem_of_elements, elem_of_dom in Hk.
      rewrite Hnone in Hk. destruct Hk; discriminate.
  - apply Permutation_map. apply elements_union_singleton.
    rewrite elem_of_dom, Hnone. intros [? ?]; discriminate.
Qed.

(** The size of what is stored under one full key. *)
Definition held (prefix : string) (m : gmap string json) (i : string) : Z :=
  match m !! i with
  | Some old => if startsWith prefix i then item_size i old else 0
  | None => 0
  end.

Lemma size_delete prefix m i :
  size_of prefix (delete i m) = size_of prefix m - held prefix m i.
Proof.
  unfold held. destruct (m !! i) as [old|] eqn:Hi.
  - rewrite <- (insert_delete_id m i old Hi) at 2.
    rewrite size_insert_fresh by apply lookup_delete_eq. lia.
  - rewrite delete_id by assumption. lia.
Qed.

Lemma size_insert prefix m i x :
  size_of prefix (<[i := x]> m) =
  size_of prefix m - held prefix m i + (if startsWith prefix i then item_size i x else 0).
Proof.
  rewrite <- insert_delete_eq.
  rewrite size_insert_fresh by apply lookup_delete_eq.
  rewrite size_delete. lia.
Qed.

Lemma size_of_nonneg prefix m : 0 <= size_of prefix m.
Proof.
  unfold size_of. generalize (elements (dom m)) as keys.
  induction keys as [|k keys IH]; cbn [map Zsum]; [lia|].
  assert (0 <= weight prefix m k); [|lia].
  unfold weight, item_size. destruct (startsWith prefix k); [|lia].
  destruct (m !! k); lia.
Qed.

(** X8. [getSize] never throws and changes nothing; its answer [n] is
    the sum, over the items stored under the prefix, of the lengths of
    the full key and of the stored text.  A [set] that returns brings
    it to [n] less what the key held before plus the new item; a
    [remove] to [n] less what the key held; after [clear] it is 0. *)
Theorem X8_getSize (w : world) :
  let prefix := keyPrefix (StorageManager.cfg w) in
  exists n,
    StorageMaintenance.getSize w = (inr n, w)
    /\ 0 <= n
    /\ (forall key value ttl w1,
          StorageManager.set key value ttl w = (inr tt, w1) ->
          StorageMaintenance.getSize w1 =
          (inr (n - held prefix (storage w) (full_key w key)
                + item_size (full_key w key)
                    (stored_item (full_key w key) value (clock w) ttl)), w1))
    /\ (forall key,
          (StorageMaintenance.getSize (StorageManager.remove key w).2).1 =
          inr (n - held prefix (storage w) (full_key w key)))
    /\ (StorageMaintenance.getSize (StorageMaintenance.clear w).2).1 = inr 0.
Proof.
  cbv zeta. exists (size_of (keyPrefix (StorageManager.cfg w)) (storage w)).
  split; [apply getSize_eq|]. split; [apply size_of_nonneg|]. split; [|split].
  - intros key value ttl w1 Hset. rewrite set_eq in Hset. cbv zeta in Hset.
    destruct (fits w _); [|discriminate]. injection Hset as <-.
    rewrite getSize_eq. cbn [storage set_storage]. f_equal. f_equal.
    change (StorageManager.cfg (set_storage _ w)) with (StorageManager.cfg w).
    rewrite size_insert.
    assert (Hpre : startsWith (keyPrefix (StorageManager.cfg w)) (full_key w key) = true)
      by apply startsWith_app.
    now rewrite Hpre.
  - intros key. rewrite remove_eq. cbn [snd]. rewrite getSize_eq. cbn [fst].
    f_equal. cbn [storage set_storage].
    change (StorageManager.cfg (set_storage _ w)) with (StorageManager.cfg w).
    apply size_delete.
  - rewrite getSize_eq. cbn [fst]. f_equal.
    destruct (clear_eq w) as (m & Hm & Hlook). rewrite Hm. cbn [snd storage set_storage].
    change (StorageManager.cfg (set_storage m w)) with (StorageManager.cfg w).
    unfold size_of. apply Zsum_zero.
    intros x Hx. apply in_map_iff in Hx as (k & <- & Hk).
    apply list_elem_of_In, elem_of_elements, elem_of_dom in Hk.
    rewrite Hlook in Hk. unfold weight.
    destruct (startsWith (keyPrefix (StorageManager.cfg w)) k); [|reflexivity].
    destruct (StorageMaintenance.isLocalStorage w); destruct Hk; discriminate.
Qed.

(** ** Object spread *)

Lemma assoc_get_fold_set k (updates base : list (string * jsval)) :
  assoc_get k (fold_left (fun acc kv => assoc_set kv.1 kv.2 acc) updates base) =
  match assoc_get k (rev updates) with
  | Some v => Some v
  | None => assoc_get k base
  end.
Proof.
  induction updates as [|[k' v'] updates IH] using rev_ind; [reflexivity|].
  rewrite fold_left_app, rev_app_distr. cbn.
  destruct (String.eqb_spec k k') as [->|Hne].
  - apply assoc_get_set_eq.
  - rewrite assoc_get_set_ne by assumption. exact IH.
Qed.

(** A property of [{...base, ...updates}]: the last update of that
    name, or else what [base] has. *)
Lemma spread_get base updates k :
  get_prop_opt (spread base updates) k =
  match assoc_get k (rev updates) with
  | Some v => v
  | None => default VUndefined (assoc_get k (own_fields base))
  end.
Proof.
  unfold spread. cbn [get_prop_opt]. rewrite assoc_get_fold_set.
  destruct (assoc_get k (rev updates)); reflexivity.
Qed.

(** ** The validators of the user and session stores *)

(** What [validateUserProperties] and [validateSessionProperties]
    accept: an object with at most [limit] properties, each with a key
    of letters, digits, underscores and hyphens and a value that is a
    string, a number, a boolean or [null]. *)
Definition acceptable (limit : nat) (properties : jsval) : bool :=
  truthy properties && Properties.typeof_object properties
  && (List.length (Properties.entries properties) <=? limit)%nat
  && forallb (fun kv => Properties.isValidPropertyKey kv.1
                        && Properties.isValidPropertyValue kv.2)
       (Properties.entries properties).

Lemma validate_each_eq l w :
  exists msg,
    Properties.validate_each l w =
    (if forallb (fun kv => Properties.isValidPropertyKey kv.1
                           && Properties.isValidPropertyValue kv.2) l
     then inr tt else inl (JsError msg), w).
Proof.
  induction l as [|[k v] l IH].
  - exists EmptyString. reflexivity.
  - cbn [Properties.validate_each forallb fst snd].
    destruct (Properties.isValidPropertyKey k); cbn [negb andb].
    + destruct (Properties.isValidPropertyValue v); cbn [negb andb].
      * exact IH.
      * eexists. reflexivity.
    + eexists. reflexivity.
Qed.

Lemma validateProperties_eq noun limit properties w :
  exists msg,
    Properties.validateProperties noun limit properties w =
    (if acceptable limit properties then inr tt else inl (JsError msg), w).
Proof.
  unfold Properties.validateProperties, acceptable.
  destruct (truthy properties); cbn [negb orb andb]; [|eexists; reflexivity].
  destruct (Properties.typeof_object properties); cbn [negb orb andb];
    [|eexists; reflexivity].
  destruct (Nat.ltb_spec limit (List.length (Properties.entries properties))) as [Hlt|Hle].
  - rewrite (proj2 (Nat.leb_gt _ _) Hlt). cbn [andb]. eexists. reflexivity.
  - rewrite (proj2 (Nat.leb_le _ _) Hle). cbn [andb]. apply validate_each_eq.
Qed.

(** X9. The property validators of the user and session stores change
    nothing, and they return exactly for an object with at most the
    ceiling of properties (50 for a user, 25 for a session), every key
    made of letters, digits, underscores and hyphens, every value a
    string, a number, a boolean or [null]; otherwise they throw an
    [Error]. *)
Theorem X9_property_validators (properties : jsval) (w : world) :
  let user := UserManager.validateUserProperties properties w in
  let session := SessionLifecycle.validateSessionProperties properties w in
  user.2 = w /\ session.2 = w
  /\ (user.1 = inr tt <-> acceptable 50 properties = true)
  /\ (session.1 = inr tt <-> acceptable 25 properties = true)
  /\ (acceptable 50 properties = false -> exists msg, user.1 = inl (JsError msg))
  /\ (acceptable 25 properties = false -> exists msg, session.1 = inl (JsError msg)).
Proof.
  cbv zeta. unfold UserManager.validateUserProperties,
    SessionLifecycle.validateSessionProperties.
  destruct (validateProperties_eq "User" MAX_USER_PROPERTIES properties w) as [m1 H1].
  destruct (validateProperties_eq "Session" MAX_SESSION_PROPERTIES properties w)
    as [m2 H2].
  rewrite H1, H2. cbn [fst snd].
  change MAX_USER_PROPERTIES with 50%nat. change MAX_SESSION_PROPERTIES with 25%nat.
  destruct (acceptable 50 properties); destruct (acceptable 25 properties);
    repeat split; intros; try discriminate; try reflexivity; eauto.
Qed.

(** ** identify and updateProperties *)

(** The user record [identify] builds. *)
Definition identified (current : jsval) (userId : string) (properties : jsval) (t : Z)
  : jsval :=
  if truthy current then
    spread current
      [("id", VStr userId);
       ("properties", spread (get_prop_opt current "properties") (own_fields properties));
       ("lastSeenAt", VDate t)]
  else
    VObj [("id", VStr userId); ("properties", or_else properties (VObj []));
          ("createdAt", VDate t); ("lastSeenAt", VDate t)].

(** The state after a user record was persisted and made current. *)
Definition with_user (user : jsval) (w : world) : world :=
  set_currentUser user
    (set_storage
       (<[full_key w USER_ID := stored_item (full_key w USER_ID) user (clock w) None]>
          (storage w)) w).

Definition blank (s : string) : bool := String.eqb s EmptyString || trim_is_empty s.

Lemma identified_is_object current userId properties t :
  truthy (identified current userId properties t) = true.
Proof. unfold identified. destruct (truthy current); reflexivity. Qed.

Lemma identify_eq userId properties w :
  let user := identified (currentUser w) userId properties (clock w) in
  exists msg,
    UserManager.identify userId properties w =
    if negb (blank userId)
       && acceptable 50 (or_else (get_prop_opt user "properties") (VObj []))
       && fits w (stored_item (full_key w USER_ID) user (clock w) None)
    then (inr tt, with_user user w)
    else (inl (Adquimo (mkError "USER_IDENTIFY_ERROR" msg)), w).
Proof.
  cbv zeta. unfold UserManager.identify, try_catch, blank.
  destruct (String.eqb userId EmptyString || trim_is_empty userId);
    [eexists; reflexivity|].
  cbn [negb andb].
  unfold now. unfold bind at 1, gets at 1. unfold bind at 1, gets at 1.
  assert (Hbuild :
    (if truthy (currentUser w)
     then
       Run.bind (lift (get_prop (currentUser w) "properties"))
         (fun old =>
            ret (spread (currentUser w)
                   [("id", VStr userId);
                    ("properties", spread old (own_fields properties));
                    ("lastSeenAt", VDate (clock w))]))
     else
       ret (VObj [("id", VStr userId); ("properties", or_else properties (VObj []));
                  ("createdAt", VDate (clock w)); ("lastSeenAt", VDate (clock w))])) w
    = (inr (identified (currentUser w) userId properties (clock w)), w)).
  { unfold identified. destruct (truthy (currentUser w)) eqn:Hc; [|reflexivity].
    unfold bind, lift. now rewrite (get_prop_truthy _ _ Hc). }
  unfold bind at 1. rewrite Hbuild.
  unfold bind at 1, lift at 1.
  rewrite (get_prop_truthy _ "properties" (identified_is_object _ _ _ _)).
  unfold bind at 1. unfold UserManager.validateUserProperties.
  destruct (validateProperties_eq "User" MAX_USER_PROPERTIES
              (or_else (get_prop_opt
                          (identified (currentUser w) userId properties (clock w))
                          "properties") (VObj [])) w) as [msg Hmsg].
  rewrite Hmsg. change MAX_USER_PROPERTIES with 50%nat.
  destruct (acceptable 50 _); cbn [andb]; [|exists msg; reflexivity].
  unfold bind at 1. rewrite set_eq. cbv zeta.
  destruct (fits w _); [|eexists; reflexivity].
  exists EmptyString. unfold modify, with_user. destruct w; reflexivity.
Qed.

Lemma identified_id current userId properties t :
  get_prop_opt (identified current userId properties t) "id" = VStr userId.
Proof.
  unfold identified. destruct (truthy current); [|reflexivity].
  now rewrite spread_get.
Qed.

Lemma identified_lastSeenAt current userId properties t :
  get_prop_opt (identified current userId properties t) "lastSeenAt" = VDate t.
Proof.
  unfold identified. destruct (truthy current); [|reflexivity].
  now rewrite spread_get.
Qed.

(** X10. [identify] is all or nothing.  When it throws, the error is
    a [USER_IDENTIFY_ERROR] and the state is as before: no user record
    half written.  It throws for a user id that is empty or blank.
    When it returns, the current user has the given id and the time of
    the call as [lastSeenAt], the same record is what storage holds
    under the user key, and nothing else has changed. *)
Theorem X10_identify_is_all_or_nothing (userId : string) (properties : jsval)
  (w : world) :
  let r := UserManager.identify userId properties w in
  match r.1 with
  | inl e => r.2 = w /\ exists msg, e = Adquimo (mkError "USER_IDENTIFY_ERROR" msg)
  | inr _ =>
      blank userId = false
      /\ get_prop_opt (currentUser r.2) "id" = VStr userId
      /\ get_prop_opt (currentUser r.2) "lastSeenAt" = VDate (clock w)
      /\ storage r.2 !! full_key w USER_ID =
         Some (stored_item (full_key w USER_ID) (currentUser r.2) (clock w) None)
      /\ r.2 = with_user (currentUser r.2) w
  end.
Proof.
  cbv zeta. destruct (identify_eq userId properties w) as [msg Heq]. rewrite Heq.
  destruct (blank userId); cbn [negb andb fst snd]; [split; eauto|].
  destruct (acceptable 50 _); cbn [andb fst snd]; [|split; eauto].
  destruct (fits w _); cbn [fst snd]; [|split; eauto].
  split; [reflexivity|]. split; [apply identified_id|].
  split; [apply identified_lastSeenAt|]. split; [|reflexivity].
  cbn. apply lookup_insert_eq.
Qed.

(** X11. What [identify] does to a current user that is an object
    with an object of properties: the given properties are laid over
    the ones the user has, so that a property of the call wins and the
    others stay; every other field of the record but [id] and
    [lastSeenAt] stays as well. *)
Theorem X11_identify_merges_properties (userId : string)
  (fields old given : list (string * jsval)) (w w' : world) :
  currentUser w = VObj fields ->
  assoc_get "properties" fields = Some (VObj old) ->
  UserManager.identify userId (VObj given) w = (inr tt, w') ->
  (forall k,
     get_prop_opt (get_prop_opt (currentUser w') "properties") k =
     match assoc_get k (rev given) with
     | Some v => v
     | None => get_prop_opt (VObj old) k
     end)
  /\ (forall k, k <> "id" -> k <> "properties" -> k <> "lastSeenAt" ->
        get_prop_opt (currentUser w') k = get_prop_opt (currentUser w) k).
Proof.
  intros Hcur Hold Hid. destruct (identify_eq userId (VObj given) w) as [msg Heq].
  rewrite Heq in Hid.
  destruct (negb (blank userId) && _ && _); [|discriminate].
  injection Hid as <-. cbn [currentUser with_user set_currentUser].
  unfold identified. rewrite Hcur. cbn [truthy]. split.
  - intros k. rewrite spread_get. cbn [rev app assoc_get].
    cbn -[spread]. rewrite Hold. cbn -[spread]. rewrite spread_get. reflexivity.
  - intros k Hid Hprops Hseen. rewrite spread_get. cbn [rev app assoc_get].
    destruct (String.eqb_spec k "lastSeenAt"); [congruence|].
    destruct (String.eqb_spec k "properties"); [congruence|].
    destruct (String.eqb_spec k "id"); [congruence|]. reflexivity.
Qed.

Lemma X11_identify_merges_properties_witness :
  let w := Demo.ready Demo.accepting in
  let first := (UserManager.identify "u-1" (VObj [("plan", VStr "free"); ("seats", VNum 3)]) w).2 in
  let second := (UserManager.identify "u-1" (VObj [("plan", VStr "team")]) first).2 in
  get_prop_opt (get_prop_opt (currentUser second) "properties") "plan" = VStr "team"
  /\ get_prop_opt (get_prop_opt (currentUser second) "properties") "seats" = VNum 3.
Proof.
  cbv zeta.
  set (first := (UserManager.identify "u-1"
                   (VObj [("plan", VStr "free"); ("seats", VNum 3)])
                   (Demo.ready Demo.accepting)).2).
  destruct (X11_identify_merges_properties "u-1"
              [("id", VStr "u-1");
               ("properties", VObj [("plan", VStr "free"); ("seats", VNum 3)]);
               ("createdAt", VDate Demo.epoch); ("lastSeenAt", VDate Demo.epoch)]
              [("plan", VStr "free"); ("seats", VNum 3)]
              [("plan", VStr "team")] first
              (UserManager.identify "u-1" (VObj [("plan", VStr "team")]) first).2)
    as [Hprops _].
  - vm_compute. reflexivity.
  - reflexivity.
  - vm_compute. reflexivity.
  - split.
    + rewrite (Hprops "plan"). reflexivity.
    + rewrite (Hprops "seats"). vm_compute. reflexivity.
Defined.

(** The user record [updateProperties] builds. *)
Definition updated_user (current properties : jsval) (t : Z) : jsval :=
  spread current
    [("properties",
      spread (get_prop_opt current "properties") (own_fields (or_else properties (VObj []))));
     ("lastSeenAt", VDate t)].

Lemma updateProperties_eq properties w :
  let user := updated_user (currentUser w) properties (clock w) in
  exists msg,
    UserProfile.updateProperties properties w =
    if truthy (currentUser w) then
      if acceptable 50 properties
         && fits w (stored_item (full_key w USER_ID) user (clock w) None)
      then (inr tt, with_user user w)
      else (inl (Adquimo (mkError "USER_UPDATE_ERROR" msg)), w)
    else (inl (Adquimo (mkError "USER_UPDATE_ERROR" "No user identified")), w).
Proof.
  cbv zeta. unfold UserProfile.updateProperties, try_catch.
  unfold bind at 1, gets at 1.
  destruct (truthy (currentUser w)) eqn:Hc; cbn [negb]; [|exists EmptyString; reflexivity].
  unfold bind at 1. unfold UserManager.validateUserProperties.
  destruct (validateProperties_eq "User" MAX_USER_PROPERTIES properties w) as [msg Hmsg].
  rewrite Hmsg. change MAX_USER_PROPERTIES with 50%nat.
  destruct (acceptable 50 properties); cbn [andb]; [|exists msg; reflexivity].
  unfold bind at 1, lift at 1. rewrite (get_prop_truthy _ _ Hc).
  unfold now. unfold bind at 1, gets at 1.
  fold (updated_user (currentUser w) properties (clock w)).
  unfold bind at 1. rewrite set_eq. cbv zeta.
  destruct (fits w _); [|eexists; reflexivity].
  exists EmptyString. unfold modify, with_user. destruct w; reflexivity.
Qed.

(** X12. [updateProperties] checks the properties it is given, not
    the properties the user ends up with.  Without a current user it
    throws "No user identified".  With one, acceptable properties and a
    record that fits the size limit, it returns, the record with the
    properties laid over the old ones is persisted and current, however
    many properties that makes.  When it throws, the error is a
    [USER_UPDATE_ERROR] and the state is as before. *)
Theorem X12_updateProperties (properties : jsval) (w : world) :
  let user := updated_user (currentUser w) properties (clock w) in
  let r := UserProfile.updateProperties properties w in
  (truthy (currentUser w) = false ->
   r = (inl (Adquimo (mkError "USER_UPDATE_ERROR" "No user identified")), w))
  /\ (truthy (currentUser w) = true ->
      acceptable 50 properties = true ->
      fits w (stored_item (full_key w USER_ID) user (clock w) None) = true ->
      r = (inr tt, with_user user w))
  /\ match r.1 with
     | inl e => r.2 = w /\ exists msg, e = Adquimo (mkError "USER_UPDATE_ERROR" msg)
     | inr _ => acceptable 50 properties = true
     end.
Proof.
  cbv zeta. destruct (updateProperties_eq properties w) as [msg Heq]. rewrite Heq.
  split; [|split].
  - now intros ->.
  - now intros -> -> ->.
  - destruct (truthy (currentUser w)); [|split; eauto].
    destruct (acceptable 50 properties); cbn [andb]; [|split; eauto].
    destruct (fits w _); cbn [fst snd]; [reflexivity|split; eauto].
Qed.

(** Fifty properties [p0] ... [p49]. *)
Definition fifty : list (string * jsval) :=
  map (fun i => ("p" +:+ string_of_Z (Z.of_nat i), VNum 1)) (seq 0 50).

(** A user with 50 properties takes a 51st through [updateProperties];
    [identify], which checks the merged properties, refuses it. *)
Example updateProperties_exceeds_the_ceiling :
  let w := (UserManager.identify "u-1" (VObj fifty) (Demo.ready Demo.accepting)).2 in
  let updated := UserProfile.updateProperties (VObj [("extra", VNum 1)]) w in
  let again := UserManager.identify "u-1" (VObj [("extra", VNum 1)]) w in
  List.length (Properties.entries (get_prop_opt (currentUser w) "properties")) = 50%nat
  /\ updated.1 = inr tt
  /\ List.length (Properties.entries (get_prop_opt (currentUser updated.2) "properties"))
     = 51%nat
  /\ again.1 = inl (Adquimo (mkError "USER_IDENTIFY_ERROR"
                               "User properties exceed maximum limit of 50")).
Proof. vm_compute. repeat split. Qed.

(** ** The user after initialize and reset *)

Lemma createAnonymousUser_eq w :
  let user := VObj [("id", VStr (uuid_of (uuids w))); ("properties", VObj []);
                    ("createdAt", VDate (clock w)); ("lastSeenAt", VDate (clock w))] in
  UserManager.createAnonymousUser w =
  if fits w (stored_item (full_key w USER_ID) user (clock w) None)
  then (inr tt, with_user user (set_uuids (S (uuids w)) w))
  else (inl (Adquimo (mkError "ANONYMOUS_USER_ERROR" "[object Object]")),
        set_uuids (S (uuids w)) w).
Proof.
  cbv zeta. unfold UserManager.createAnonymousUser, try_catch, uuidv4, now.
  unfold bind at 1. unfold bind at 1, gets at 1. unfold bind at 1, modify at 1.
  unfold ret at 1. unfold bind at 1, gets at 1. unfold bind at 1.
  rewrite set_eq. cbv zeta.
  change (fits (set_uuids (S (uuids w)) w)) with (fits w).
  change (full_key (set_uuids (S (uuids w)) w)) with (full_key w).
  cbn [clock set_uuids].
  destruct (fits w _); [|reflexivity].
  unfold modify, with_user. destruct w; reflexivity.
Qed.

(** X13. [isIdentified] does not tell an identified user from an
    anonymous one: whenever [initialize] or [reset] of the user store
    returns, it answers [true].  After a [reset] that returns, the
    current user is a new anonymous one, with the next id of the
    generator and no properties, and [getUserProperties] answers an
    empty object. *)
Theorem X13_isIdentified_after_initialize_and_reset (w : world) :
  ((UserManager.initialize w).1 = inr tt ->
   (UserProfile.isIdentified (UserManager.initialize w).2).1 = inr true)
  /\ ((UserManager.reset w).1 = inr tt ->
      let w' := (UserManager.reset w).2 in
      (UserProfile.isIdentified w').1 = inr true
      /\ (UserManager.getUserId w').1 = inr (VStr (uuid_of (uuids w)))
      /\ (UserProfile.getUserProperties w').1 = inr (VObj [])
      /\ get_prop_opt (currentUser w') "createdAt" = VDate (clock w)).
Proof.
  split.
  - assert (Hshape : (UserManager.initialize w).1 = inr tt ->
                     truthy (currentUser (UserManager.initialize w).2) = true).
    { unfold UserManager.initialize, try_catch, bind.
      pose proof (get_reads_only USER_ID w) as Hread.
      destruct (StorageManager.get USER_ID w) as [[e|storedUser] w0];
        cbn [fst snd] in *; subst w0; [discriminate|].
      destruct (truthy storedUser) eqn:Hs; [intros _; exact Hs|].
      rewrite createAnonymousUser_eq. cbv zeta.
      destruct (fits w _); [reflexivity|discriminate]. }
    intros Hok. specialize (Hshape Hok). unfold UserProfile.isIdentified, gets.
    cbn [fst]. destruct (currentUser _); try discriminate; reflexivity.
  - assert (Hshape : UserManager.reset w =
              let w0 := set_storage
                          (delete (full_key w USER_PROPERTIES)
                             (delete (full_key w USER_ID) (storage w)))
                          (set_currentUser VNull w) in
              match UserManager.createAnonymousUser w0 with
              | (inl e, w1) => (inl (createError "USER_RESET_ERROR" e), w1)
              | r => r
              end).
    { unfold UserManager.reset, try_catch, bind, modify.
      rewrite !remove_eq. cbv zeta. cbn [storage set_storage set_currentUser].
      destruct (UserManager.createAnonymousUser _) as [[e|u] w1]; reflexivity. }
    rewrite Hshape. cbv zeta. rewrite createAnonymousUser_eq. cbv zeta.
    destruct (fits _ _); [|discriminate].
    intros _. cbn [fst snd]. repeat split.
Qed.

(** ** Sessions *)

(** The session record [createNewSession] builds in [w]. *)
Definition new_session (userId properties : jsval) (w : world) : jsval :=
  VObj [("id", VStr (uuid_of (uuids w)));
        ("userId", or_else userId (VStr "anonymous"));
        ("startTime", VDate (clock w));
        ("properties", or_else properties (VObj []));
        ("device", device (host w)); ("browser", browser (host w));
        ("location", VUndefined)].

(** The state after a session record was persisted. *)
Definition with_stored_session (session : jsval) (w : world) : world :=
  set_storage
    (<[full_key w SESSION_ID := stored_item (full_key w SESSION_ID) session (clock w) None]>
       (storage w)) w.

Lemma createNewSession_eq userId properties w :
  let session := new_session userId properties w in
  SessionManager.createNewSession userId properties w =
  if fits w (stored_item (full_key w SESSION_ID) session (clock w) None)
  then (inr session,
        set_sessionStartTime (VDate (clock w))
          (set_currentSession session
             (with_stored_session session (set_uuids (S (uuids w)) w))))
  else (inl (Adquimo (mkError "SESSION_CREATE_ERROR" "[object Object]")),
        set_uuids (S (uuids w)) w).
Proof.
  cbv zeta. unfold SessionManager.createNewSession, try_catch, uuidv4, now,
    SessionManager.getDeviceInfo, SessionManager.getBrowserInfo,
    SessionManager.getLocationInfo.
  unfold bind at 1. unfold bind at 1, gets at 1. unfold bind at 1, modify at 1.
  unfold ret at 1. unfold bind at 1, gets at 1. unfold bind at 1, gets at 1.
  unfold bind at 1, gets at 1. unfold bind at 1, ret at 1.
  cbn [host clock set_uuids]. fold (new_session userId properties w).
  unfold bind at 1. rewrite set_eq. cbv zeta.
  change (fits (set_uuids (S (uuids w)) w)) with (fits w).
  change (full_key (set_uuids (S (uuids w)) w)) with (full_key w).
  cbn [clock set_uuids].
  destruct (fits w _); [|reflexivity].
  unfold bind, modify, ret, with_stored_session. destruct w; reflexivity.
Qed.

(** The session store is consistent: it holds no session and no start
    time, or a session object that has not ended together with its
    start time, as a [Date]. *)
Definition session_consistent (w : world) : Prop :=
  (currentSession w = VNull /\ sessionStartTime w = VNull)
  \/ exists fields t,
       currentSession w = VObj fields
       /\ sessionStartTime w = VDate t
       /\ get_prop_opt (VObj fields) "startTime" = VDate t
       /\ get_prop_opt (VObj fields) "endTime" = VUndefined.

Lemma session_consistent_same w w' :
  currentSession w' = currentSession w ->
  sessionStartTime w' = sessionStartTime w ->
  session_consistent w -> session_consistent w'.
Proof. unfold session_consistent. intros -> ->. trivial. Qed.

Lemma createNewSession_consistent userId properties w :
  session_consistent w ->
  session_consistent (SessionManager.createNewSession userId properties w).2.
Proof.
  intros Hc. rewrite createNewSession_eq. cbv zeta.
  destruct (fits w _); cbn [snd].
  - right. eexists _, (clock w). repeat split.
  - revert Hc. now apply session_consistent_same.
Qed.

(** The session record [endSession] persists. *)
Definition ended_session (current : jsval) (t duration : Z) : jsval :=
  spread current [("endTime", VDate t); ("duration", VNum duration)].

Lemma endSession_eq w :
  SessionManager.endSession w =
  if truthy (currentSession w) then
    match (if truthy (sessionStartTime w)
           then match getTime (sessionStartTime w) with
                | inr s => inr (clock w - s)
                | inl e => inl e
                end
           else inr 0) with
    | inl e => (inl (createError "SESSION_END_ERROR" e), w)
    | inr duration =>
        let ended := ended_session (currentSession w) (clock w) duration in
        if fits w (stored_item (full_key w SESSION_ID) ended (clock w) None)
        then (inr tt,
              set_sessionStartTime VNull
                (set_currentSession VNull (with_stored_session ended w)))
        else (inl (Adquimo (mkError "SESSION_END_ERROR" "[object Object]")), w)
    end
  else (inr tt, w).
Proof.
  unfold SessionManager.endSession, try_catch, now.
  unfold bind at 1, gets at 1.
  destruct (truthy (currentSession w)); cbn [negb]; [|reflexivity].
  unfold bind at 1, gets at 1. unfold bind at 1, gets at 1. unfold bind at 1.
  destruct (truthy (sessionStartTime w)).
  - unfold bind at 1, lift at 1.
    destruct (getTime (sessionStartTime w)) as [e|s]; [reflexivity|].
    unfold ret at 1. fold (ended_session (currentSession w) (clock w) (clock w - s)).
    unfold bind at 1. rewrite set_eq. cbv zeta.
    destruct (fits w _); [|reflexivity].
    unfold bind, modify, with_stored_session. destruct w; reflexivity.
  - unfold ret at 1. fold (ended_session (currentSession w) (clock w) 0).
    unfold bind at 1. rewrite set_eq. cbv zeta.
    destruct (fits w _); [|reflexivity].
    unfold bind, modify, with_stored_session. destruct w; reflexivity.
Qed.

Lemma endSession_consistent w :
  session_consistent w -> session_consistent (SessionManager.endSession w).2.
Proof.
  intros Hc. rewrite endSession_eq.
  destruct (truthy (currentSession w)); [|exact Hc].
  destruct (if truthy (sessionStartTime w) then _ else _) as [e|duration]; [exact Hc|].
  cbv zeta. destruct (fits w _); [|exact Hc].
  left. split; reflexivity.
Qed.

(** What [get] returns came out of [JSON.parse]. *)
Lemma get_from_json key w v : (StorageManager.get key w).1 = inr v -> from_json v.
Proof.
  destruct (storage w !! full_key w key) as [doc|] eqn:Hdoc.
  - destruct doc as [|b|n|s|ms].
    1-4: unfold StorageManager.get, StorageManager.getFullKey,
      StorageManager.getItem, try_catch, bind, gets, lift, now;
      fold (full_key w key); rewrite Hdoc; cbn;
      intros [= <-] || (intros H; discriminate H); now left.
    destruct (truthy (get_prop_opt (of_json (JObject ms)) "ttl")) eqn:Httl.
    + destruct (get_with_ttl key w ms Hdoc Httl) as [msg ->]. intros H; discriminate H.
    + rewrite (get_without_ttl key w ms Hdoc Httl). cbn [fst]. intros H.
      injection H as <-.
      apply (from_json_member (of_json (JObject ms)) "value"). right. now eexists.
  - rewrite (get_absent key w Hdoc). intros [= <-]. right. now exists JNull.
Qed.

(** On a value read from storage [isSessionValid] never answers
    [true]: without a start time it answers [false], with one it
    throws. *)
Lemma isSessionValid_from_json session w :
  from_json session ->
  truthy session = true ->
  (exists msg, SessionManager.isSessionValid session w = (inl (JsError msg), w))
  \/ SessionManager.isSessionValid session w = (inr false, w).
Proof.
  intros Hj Ht.
  assert (Heq : SessionManager.isSessionValid session w =
                if truthy (get_prop_opt session "startTime") then
                  match getTime (get_prop_opt session "startTime") with
                  | inl e => (inl e, w)
                  | inr start => (inr (clock w - start <? SessionManager.maxInactivity), w)
                  end
                else (inr false, w)).
  { unfold SessionManager.isSessionValid, now, bind, lift, gets, ret.
    rewrite (get_prop_truthy _ _ Ht).
    destruct (truthy (get_prop_opt session "startTime")); cbn [negb]; [|reflexivity].
    destruct (getTime (get_prop_opt session "startTime")); reflexivity. }
  rewrite Heq.
  destruct (truthy (get_prop_opt session "startTime")); [|right; reflexivity].
  left. destruct (getTime_from_json (get_prop_opt session "startTime")) as [msg Hmsg].
  { now apply from_json_member. }
  exists msg. now rewrite Hmsg.
Qed.

Lemma session_initialize_consistent w :
  session_consistent w -> session_consistent (SessionManager.initialize w).2.
Proof.
  intros Hc. unfold SessionManager.initialize, try_catch. unfold bind at 1.
  pose proof (get_reads_only SESSION_ID w) as Hread.
  pose proof (get_from_json SESSION_ID w) as Hjson.
  destruct (StorageManager.get SESSION_ID w) as [[e|stored] w0];
    cbn [fst snd] in *; subst w0; [exact Hc|].
  pose proof (createNewSession_consistent VUndefined VUndefined w Hc) as Hnew.
  destruct (truthy stored) eqn:Hs.
  - unfold bind at 1.
    destruct (isSessionValid_from_json stored w (Hjson _ eq_refl) Hs) as [[msg ->]| ->].
    + exact Hc.
    + unfold bind.
      destruct (SessionManager.createNewSession VUndefined VUndefined w) as [[e|s] w1];
        exact Hnew.
  - unfold bind.
    destruct (SessionManager.createNewSession VUndefined VUndefined w) as [[e|s] w1];
      exact Hnew.
Qed.

Lemma startSession_consistent userId properties w :
  session_consistent w ->
  session_consistent (SessionLifecycle.startSession userId properties w).2.
Proof.
  intros Hc. unfold SessionLifecycle.startSession, try_catch.
  unfold bind at 1, gets at 1. unfold bind at 1.
  destruct (truthy (currentSession w)).
  - pose proof (endSession_consistent w Hc) as He.
    destruct (SessionManager.endSession w) as [[e|u] w1]; cbn [snd] in *; [exact He|].
    pose proof (createNewSession_consistent userId properties w1 He) as Hn.
    destruct (SessionManager.createNewSession userId properties w1) as [[e|s] w2];
      exact Hn.
  - unfold ret at 1.
    pose proof (createNewSession_consistent userId properties w Hc) as Hn.
    destruct (SessionManager.createNewSession userId properties w) as [[e|s] w2];
      exact Hn.
Qed.

(** The session record [updateSessionProperties] builds. *)
Definition updated_session (current properties : jsval) : jsval :=
  spread current
    [("properties", spread (get_prop_opt current "properties") (own_fields properties))].

Lemma updateSessionProperties_eq properties w :
  let session := updated_session (currentSession w) properties in
  exists msg,
    SessionLifecycle.updateSessionProperties properties w =
    if truthy (currentSession w) then
      if acceptable 25 properties
         && fits w (stored_item (full_key w SESSION_ID) session (clock w) None)
      then (inr tt, set_currentSession session (with_stored_session session w))
      else (inl (Adquimo (mkError "SESSION_UPDATE_ERROR" msg)), w)
    else (inl (Adquimo (mkError "SESSION_UPDATE_ERROR" "No active session")), w).
Proof.
  cbv zeta. unfold SessionLifecycle.updateSessionProperties, try_catch.
  unfold bind at 1, gets at 1.
  destruct (truthy (currentSession w)) eqn:Hc; cbn [negb]; [|exists EmptyString; reflexivity].
  unfold bind at 1. unfold SessionLifecycle.validateSessionProperties.
  destruct (validateProperties_eq "Session" MAX_SESSION_PROPERTIES properties w)
    as [msg Hmsg].
  rewrite Hmsg. change MAX_SESSION_PROPERTIES with 25%nat.
  destruct (acceptable 25 properties); cbn [andb]; [|exists msg; reflexivity].
  unfold bind at 1, lift at 1. rewrite (get_prop_truthy _ _ Hc).
  fold (updated_session (currentSession w) properties).
  unfold bind at 1. rewrite set_eq. cbv zeta.
  destruct (fits w _); [|eexists; reflexivity].
  exists EmptyString. unfold modify, with_stored_session. destruct w; reflexivity.
Qed.

Lemma updateSessionProperties_consistent properties w :
  session_consistent w ->
  session_consistent (SessionLifecycle.updateSessionProperties properties w).2.
Proof.
  intros Hc. destruct (updateSessionProperties_eq properties w) as [msg ->].
  destruct (truthy (currentSession w)) eqn:Ht; [|exact Hc].
  destruct (acceptable 25 properties && _); [|exact Hc].
  cbn [snd]. destruct Hc as [[Hnull _]|(fields & t & Hcur & Hstart & Hst & Hend)].
  - rewrite Hnull in Ht. discriminate.
  - right. unfold updated_session. rewrite Hcur.
    eexists _, t. split; [reflexivity|]. split; [exact Hstart|].
    unfold spread at 1. split.
    + change (get_prop_opt
                (spread (VObj fields)
                   [("properties",
                     spread (get_prop_opt (VObj fields) "properties")
                       (own_fields properties))]) "startTime" = VDate t).
      rewrite spread_get. exact Hst.
    + change (get_prop_opt
                (spread (VObj fields)
                   [("properties",
                     spread (get_prop_opt (VObj fields) "properties")
                       (own_fields properties))]) "endTime" = VUndefined).
      rewrite spread_get. exact Hend.
Qed.

Lemma session_reset_consistent w :
  session_consistent w -> session_consistent (SessionManager.reset w).2.
Proof.
  intros Hc. unfold SessionManager.reset, try_catch.
  unfold bind at 1, gets at 1. unfold bind at 1.
  assert (Hrest : forall w1,
    session_consistent
      (Run.bind (StorageManager.remove SESSION_ID)
         (fun _ => Run.bind (StorageManager.remove SESSION_PROPERTIES)
            (fun _ => Run.bind (modify (set_currentSession VNull))
               (fun _ => modify (set_sessionStartTime VNull)))) w1).2).
  { intros w1. unfold bind, modify. rewrite !remove_eq. left. split; reflexivity. }
  destruct (truthy (currentSession w)).
  - pose proof (endSession_consistent w Hc) as He.
    destruct (SessionManager.endSession w) as [[e|u] w1]; cbn [snd] in *; [exact He|].
    specialize (Hrest w1).
    destruct (Run.bind (StorageManager.remove SESSION_ID) _ w1) as [[e|u'] w2];
      exact Hrest.
  - unfold ret at 1. specialize (Hrest w).
    destruct (Run.bind (StorageManager.remove SESSION_ID) _ w) as [[e|u'] w2];
      exact Hrest.
Qed.

(** ** Runs of the session store *)

(** What a caller does to the session store, one awaited call after
    the other. *)
Inductive SessionOp : Type :=
| SInitialize
| SStart (userId properties : jsval)
| SEnd
| SUpdate (properties : jsval)
| SReset
| SWait (ms : Z).

Definition session_step (op : SessionOp) (w : world) : world :=
  match op with
  | SInitialize => (SessionManager.initialize w).2
  | SStart userId properties => (SessionLifecycle.startSession userId properties w).2
  | SEnd => (SessionManager.endSession w).2
  | SUpdate properties => (SessionLifecycle.updateSessionProperties properties w).2
  | SReset => (SessionManager.reset w).2
  | SWait ms => elapse ms w
  end.

Fixpoint session_run (ops : list SessionOp) (w : world) : world :=
  match ops with
  | [] => w
  | op :: r => session_run r (session_step op w)
  end.

Lemma session_step_consistent op w :
  session_consistent w -> session_consistent (session_step op w).
Proof.
  destruct op; cbn [session_step].
  - apply session_initialize_consistent.
  - apply startSession_consistent.
  - apply endSession_consistent.
  - apply updateSessionProperties_consistent.
  - apply session_reset_consistent.
  - now apply session_consistent_same.
Qed.

Lemma session_run_consistent ops : forall w,
  session_consistent w -> session_consistent (session_run ops w).
Proof.
  induction ops as [|op ops IH]; intros w Hc; cbn [session_run]; [exact Hc|].
  apply IH. now apply session_step_consistent.
Qed.

(** X14. The session store stays consistent.  A new SDK instance
    holds no session and no start time; and from a consistent state,
    whatever calls of [initialize], [startSession], [endSession],
    [updateSessionProperties] and [reset] follow, returning or
    throwing, the store holds no session and no start time, or a
    session object that has not ended together with its start time as
    a [Date].  So [getSessionDuration] never throws: it answers the
    time since the start, or 0 without a session; and [isSessionActive]
    answers whether there is a current session. *)
Theorem X14_session_store_stays_consistent :
  (forall h t stored c, session_consistent (AdquimoSDK.construct h t stored c))
  /\ (forall ops w,
        session_consistent w ->
        let w' := session_run ops w in
        session_consistent w'
        /\ SessionLifecycle.getSessionDuration w' =
           (inr (match sessionStartTime w' with
                 | VDate start => clock w' - start
                 | _ => 0
                 end), w')
        /\ SessionLifecycle.isSessionActive w' = (inr (truthy (currentSession w')), w')).
Proof.
  split.
  - intros h t stored c. left. split; reflexivity.
  - intros ops w Hc w'. subst w'.
    pose proof (session_run_consistent ops w Hc) as Hc'.
    split; [exact Hc'|].
    destruct Hc' as [[Hnull Hstart]|(fields & t & Hcur & Hstart & Hst & Hend)].
    + unfold SessionLifecycle.getSessionDuration, SessionLifecycle.isSessionActive,
        bind, gets, now, lift, ret.
      rewrite Hnull, Hstart. split; reflexivity.
    + unfold SessionLifecycle.getSessionDuration, SessionLifecycle.isSessionActive,
        bind, gets, now, lift, ret.
      rewrite Hcur, Hstart. cbn [truthy negb getTime get_prop].
      cbn [get_prop_opt] in Hend. rewrite Hend. split; reflexivity.
Qed.

Example session_run_example :
  let w := session_run [SInitialize; SWait 1500; SUpdate (VObj [("tab", VNum 2)])]
             (Demo.fresh Demo.accepting) in
  (SessionLifecycle.getSessionDuration w).1 = inr 1500
  /\ (SessionLifecycle.isSessionActive w).1 = inr true
  /\ get_prop_opt (get_prop_opt (currentSession w) "properties") "tab" = VNum 2.
Proof. vm_compute. repeat split. Qed.

(** ** endSession and startSession *)

(** X15. [endSession] without a current session does nothing.  With
    a session that started at [t], it either throws a
    [SESSION_END_ERROR] and leaves the state as it was, or it persists
    the session record with [endTime] the time of the call and
    [duration] the time since [t] under the session key and forgets the
    session: there is no current session and no start time, and a
    second [endSession] does nothing. *)
Theorem X15_endSession (w : world) :
  session_consistent w ->
  let r := SessionManager.endSession w in
  (currentSession w = VNull -> r = (inr tt, w))
  /\ match r.1 with
     | inl e => r.2 = w /\ exists msg, e = Adquimo (mkError "SESSION_END_ERROR" msg)
     | inr _ =>
         currentSession r.2 = VNull
         /\ sessionStartTime r.2 = VNull
         /\ SessionManager.endSession r.2 = (inr tt, r.2)
         /\ (SessionManager.getSessionId r.2).1 = inr VNull
         /\ forall fields t,
              currentSession w = VObj fields ->
              sessionStartTime w = VDate t ->
              storage r.2 !! full_key w SESSION_ID =
              Some (stored_item (full_key w SESSION_ID)
                      (spread (VObj fields)
                         [("endTime", VDate (clock w)); ("duration", VNum (clock w - t))])
                      (clock w) None)
     end.
Proof.
  intros Hc. cbv zeta. rewrite endSession_eq.
  destruct Hc as [[Hnull Hstart]|(fields & t & Hcur & Hstart & Hst & Hend)].
  - rewrite Hnull. cbn [truthy fst snd]. split; [reflexivity|].
    split; [exact Hnull|]. split; [exact Hstart|].
    split; [rewrite endSession_eq, Hnull; reflexivity|].
    split; [unfold SessionManager.getSessionId, gets; rewrite Hnull; reflexivity|].
    intros fields t Hcur. congruence.
  - rewrite Hcur, Hstart. cbn [truthy getTime]. cbv zeta.
    split; [intros H; discriminate H|].
    destruct (fits w _); cbn [fst snd]; [|split; eauto].
    split; [reflexivity|]. split; [reflexivity|].
    split; [rewrite endSession_eq; reflexivity|].
    split; [reflexivity|].
    intros fields' t' [= <-] [= <-]. cbn. apply lookup_insert_eq.
Qed.

Lemma X15_endSession_witness :
  let w := elapse 1500 (Demo.ready Demo.accepting) in
  let r := SessionManager.endSession w in
  r.1 = inr tt
  /\ currentSession r.2 = VNull
  /\ SessionManager.endSession r.2 = (inr tt, r.2).
Proof.
  cbv zeta.
  assert (Hc : session_consistent (elapse 1500 (Demo.ready Demo.accepting))).
  { right. eexists _, Demo.epoch. repeat split; vm_compute; reflexivity. }
  pose proof (X15_endSession _ Hc) as H. cbv zeta in H. destruct H as [_ H].
  destruct (SessionManager.endSession (elapse 1500 (Demo.ready Demo.accepting)))
    as [[e|u] w1] eqn:Hend; [vm_compute in Hend; discriminate|].
  cbn [fst snd] in *. destruct u. destruct H as (H1 & _ & H2 & _).
  split; [reflexivity|]. split; assumption.
Defined.

Lemma endSession_frame w :
  let w1 := (SessionManager.endSession w).2 in
  uuids w1 = uuids w /\ clock w1 = clock w /\ host w1 = host w /\ config w1 = config w.
Proof.
  cbv zeta. rewrite endSession_eq.
  destruct (truthy (currentSession w)); [|now repeat split].
  destruct (if truthy (sessionStartTime w) then _ else _) as [e|d]; [now repeat split|].
  cbv zeta. destruct (fits w _); now repeat split.
Qed.

(** X16. When [startSession] returns, the session it returns is the
    current one, it starts at the time of the call, its id is the next
    one of the generator, its user id is the one given or else
    [anonymous], and its properties are the ones given, unchecked, or
    else an empty object; the session is active, and what storage holds
    under the session key is this session: the record of the session
    that was ended to make room is overwritten. *)
Theorem X16_startSession (userId properties session : jsval) (w w' : world) :
  SessionLifecycle.startSession userId properties w = (inr session, w') ->
  session = new_session userId properties w
  /\ currentSession w' = session
  /\ sessionStartTime w' = VDate (clock w)
  /\ storage w' !! full_key w SESSION_ID =
     Some (stored_item (full_key w SESSION_ID) session (clock w) None)
  /\ (SessionLifecycle.isSessionActive w').1 = inr true
  /\ (SessionManager.getSessionId w').1 = inr (VStr (uuid_of (uuids w))).
Proof.
  unfold SessionLifecycle.startSession, try_catch.
  unfold bind at 1, gets at 1. unfold bind at 1.
  assert (Hnew : forall w1,
            uuids w1 = uuids w -> clock w1 = clock w -> host w1 = host w ->
            config w1 = config w ->
            match SessionManager.createNewSession userId properties w1 with
            | (inl e, w2) => (inl (createError "SESSION_START_ERROR" e), w2)
            | r => r
            end = (inr session, w') ->
            session = new_session userId properties w
            /\ currentSession w' = session
            /\ sessionStartTime w' = VDate (clock w)
            /\ storage w' !! full_key w SESSION_ID =
               Some (stored_item (full_key w SESSION_ID) session (clock w) None)
            /\ (SessionLifecycle.isSessionActive w').1 = inr true
            /\ (SessionManager.getSessionId w').1 = inr (VStr (uuid_of (uuids w)))).
  { intros w1 Hu Hclock Hhost Hconfig. rewrite createNewSession_eq. cbv zeta.
    assert (Hs : new_session userId properties w1 = new_session userId properties w)
      by (unfold new_session; now rewrite Hu, Hclock, Hhost).
    assert (Hk : full_key w1 SESSION_ID = full_key w SESSION_ID)
      by (unfold full_key, StorageManager.cfg; now rewrite Hconfig).
    rewrite Hs, Hk, Hclock.
    destruct (fits w1 _); [|intros H; discriminate H].
    intros [= <- <-]. split; [reflexivity|]. split; [reflexivity|].
    split; [reflexivity|]. split.
    - cbn.
      change (full_key (set_uuids (S (uuids w1)) w1) SESSION_ID)
        with (full_key w1 SESSION_ID).
      rewrite Hk, Hclock. apply lookup_insert_eq.
    - split; reflexivity. }
  destruct (truthy (currentSession w)).
  - destruct (endSession_frame w) as (Hu & Hclock & Hhost & Hconfig).
    destruct (SessionManager.endSession w) as [[e|u] w1]; cbn [snd] in *;
      [intros H; discriminate H|].
    now apply Hnew.
  - unfold ret at 1. now apply Hnew.
Qed.

Lemma X16_startSession_witness :
  let w := elapse 1500 (Demo.ready Demo.accepting) in
  let r := SessionLifecycle.startSession (VStr "u-1") (VObj [("bad key", VObj [])]) w in
  exists session,
    r.1 = inr session
    /\ get_prop_opt session "properties" = VObj [("bad key", VObj [])]
    /\ storage r.2 !! full_key w SESSION_ID =
       Some (stored_item (full_key w SESSION_ID) session (clock w) None).
Proof.
  cbv zeta.
  destruct (SessionLifecycle.startSession (VStr "u-1") (VObj [("bad key", VObj [])])
              (elapse 1500 (Demo.ready Demo.accepting)))
    as [[e|session] w1] eqn:Hstart; [vm_compute in Hstart; discriminate|].
  destruct (X16_startSession _ _ _ _ _ Hstart) as (Hs & _ & _ & Hstored & _).
  exists session. split; [reflexivity|]. split; [|exact Hstored].
  rewrite Hs. reflexivity.
Defined.

(** X17. [updateSessionProperties] without a current session throws
    "No active session".  It is all or nothing: when it throws, the
    error is a [SESSION_UPDATE_ERROR] and the state is as before.  When
    it returns, the properties given were acceptable, they are laid
    over the ones of the session, every other field of a session that
    is an object and the start time stay as they are, and the new
    record is what storage holds under the session key. *)
Theorem X17_updateSessionProperties (properties : jsval) (w : world) :
  let r := SessionLifecycle.updateSessionProperties properties w in
  (truthy (currentSession w) = false ->
   r = (inl (Adquimo (mkError "SESSION_UPDATE_ERROR" "No active session")), w))
  /\ match r.1 with
     | inl e => r.2 = w /\ exists msg, e = Adquimo (mkError "SESSION_UPDATE_ERROR" msg)
     | inr _ =>
         acceptable 25 properties = true
         /\ sessionStartTime r.2 = sessionStartTime w
         /\ storage r.2 !! full_key w SESSION_ID =
            Some (stored_item (full_key w SESSION_ID) (currentSession r.2) (clock w) None)
         /\ forall fields,
              currentSession w = VObj fields ->
              (forall k, k <> "properties" ->
                 get_prop_opt (currentSession r.2) k = get_prop_opt (currentSession w) k)
              /\ (forall k,
                    get_prop_opt (get_prop_opt (currentSession r.2) "properties") k =
                    match assoc_get k (rev (own_fields properties)) with
                    | Some v => v
                    | None =>
                        default VUndefined
                          (assoc_get k
                             (own_fields (get_prop_opt (currentSession w) "properties")))
                    end)
     end.
Proof.
  cbv zeta. destruct (updateSessionProperties_eq properties w) as [msg Heq].
  rewrite Heq. split; [now intros ->|].
  destruct (truthy (currentSession w)); [|split; eauto].
  destruct (acceptable 25 properties); cbn [andb]; [|split; eauto].
  destruct (fits w _); cbn [fst snd]; [|split; eauto].
  split; [reflexivity|]. split; [reflexivity|]. split; [cbn; apply lookup_insert_eq|].
  intros fields Hcur. cbn [currentSession set_currentSession].
  unfold updated_session. rewrite Hcur. split.
  - intros k Hk. rewrite spread_get. cbn [rev app assoc_get].
    destruct (String.eqb_spec k "properties"); [congruence|]. reflexivity.
  - intros k. rewrite spread_get. cbn [rev app assoc_get].
    cbn -[spread]. now rewrite spread_get.
Qed.

(** ** The retry loop, whatever the transport does *)

Lemma delays_capped rc attempt k : Forall (fun d => d <= maxDelay rc) (delays rc attempt k).
Proof.
  revert attempt. induction k as [|k IH]; intros attempt; cbn [delays]; constructor.
  - unfold NetworkManager.calculateDelay. lia.
  - apply IH.
Qed.

(** ** A response with a success status *)

Lemma request_loop_resolved rc body r attempt lastError w resp :
  fetch (host w) (fetchCount w) = Resolves resp ->
  NetworkManager.ok resp = true ->
  NetworkManager.request_loop (S r) rc body attempt lastError w =
  (match bodyJson resp with
   | Some doc => inr (mkApiResponse true (of_json doc) None)
   | None => inl (JsError "Unexpected token in JSON")
   end,
   set_received (received w ++ [body]) (set_fetchCount (S (fetchCount w)) w)).
Proof.
  intros Hres Hok.
  cbn. unfold bind, try_catch, NetworkManager.makeRequest, bind, gets, modify. cbn.
  rewrite Hres. cbn. rewrite Hok. cbn.
  unfold NetworkManager.handleResponse. rewrite Hok. cbn.
  destruct (bodyJson resp); reflexivity.
Qed.

(** An attempt that is answered, with whatever status, is the last. *)
Lemma request_loop_answered rc body r attempt lastError w resp :
  fetch (host w) (fetchCount w) = Resolves resp ->
  let res := NetworkManager.request_loop (S r) rc body attempt lastError w in
  fetchCount res.2 = S (fetchCount w) /\ slept res.2 = slept w /\ clock res.2 = clock w.
Proof.
  intros Hres. cbv zeta. destruct (NetworkManager.ok resp) eqn:Hok.
  - rewrite (request_loop_resolved rc body r attempt lastError w resp Hres Hok).
    repeat split.
  - rewrite (request_loop_http_error rc body r attempt lastError w resp Hres Hok).
    repeat split.
Qed.

(** The loop entered at [attempt] with the iterations that lead up to
    attempt [maxRetries]: after [k] sleeps and [k + 1] calls of [fetch]
    it is left, with [k] at most the number of retries to go. *)
Lemma request_loop_bounded rc body remaining : forall attempt lastError w,
  attempt + Z.of_nat remaining = maxRetries rc ->
  let r := NetworkManager.request_loop (S remaining) rc body attempt lastError w in
  exists k,
    (k <= remaining)%nat
    /\ fetchCount r.2 = (fetchCount w + k + 1)%nat
    /\ slept r.2 = slept w ++ delays rc attempt k
    /\ clock r.2 = clock w + Zsum (delays rc attempt k).
Proof.
  induction remaining as [|remaining IH]; intros attempt lastError w Hinv; cbv zeta.
  - assert (Hlast : attempt = maxRetries rc) by lia. subst attempt.
    exists O. cbn [delays Zsum]. rewrite app_nil_r.
    destruct (fetch (host w) (fetchCount w)) as [msg|resp] eqn:Hf.
    + destruct (request_loop_last_reject rc body 0 lastError w) as [e He];
        [now exists msg|].
      rewrite He. cbn. repeat split; lia.
    + destruct (request_loop_answered rc body 0 (maxRetries rc) lastError w resp Hf)
        as (H1 & H2 & H3).
      rewrite H1, H2, H3. repeat split; lia.
  - destruct (fetch (host w) (fetchCount w)) as [msg|resp] eqn:Hf.
    + destruct (request_loop_reject rc body (S remaining) attempt lastError w)
        as [e He]; [now exists msg|lia|].
      rewrite He.
      match goal with
      | |- context [NetworkManager.request_loop (S remaining) rc body (attempt + 1) ?e ?w1] =>
          destruct (IH (attempt + 1) e w1 ltac:(lia)) as (k & Hk & Hfc & Hs & Hc)
      end.
      exists (S k). cbn [delays Zsum]. rewrite Hfc, Hs, Hc. cbn.
      rewrite <- app_assoc. cbn. repeat split; lia.
    + exists O. cbn [delays Zsum]. rewrite app_nil_r.
      destruct (request_loop_answered rc body (S remaining) attempt lastError w resp Hf)
        as (H1 & H2 & H3).
      rewrite H1, H2, H3. repeat split; lia.
Qed.

(** X18. Whatever the transport does, a request with
    [maxRetries >= 0] calls [fetch] at least once and at most
    [maxRetries + 1] times; it sleeps between two calls and not after
    the last, each time for the delay of the back-off schedule, never
    longer than [maxDelay]; and the clock moves by the time slept.
    With [maxRetries < 0] it calls [fetch] not at all and answers with
    a [NETWORK_ERROR] response. *)
Theorem X18_request_attempts_are_bounded (rc : RetryConfig) (body : BatchRequest)
  (w : world) :
  let r := NetworkManager.request rc body w in
  (0 <= maxRetries rc ->
   exists k,
     Z.of_nat k <= maxRetries rc
     /\ fetchCount r.2 = (fetchCount w + k + 1)%nat
     /\ slept r.2 = slept w ++ delays rc 0 k
     /\ Forall (fun d => d <= maxDelay rc) (delays rc 0 k)
     /\ clock r.2 = clock w + Zsum (delays rc 0 k))
  /\ (maxRetries rc < 0 ->
      r = (inr (mkApiResponse false VUndefined
                  (Some (mkError "NETWORK_ERROR" "Unknown error"))), w)).
Proof.
  cbv zeta. split.
  - intros Hm. unfold NetworkManager.request.
    replace (Z.to_nat (maxRetries rc + 1)) with (S (Z.to_nat (maxRetries rc))) by lia.
    destruct (request_loop_bounded rc body (Z.to_nat (maxRetries rc)) 0 None w)
      as (k & Hk & Hf & Hs & Hc); [lia|].
    exists k. split; [lia|]. split; [exact Hf|]. split; [exact Hs|].
    split; [apply delays_capped|exact Hc].
  - intros Hneg. now rewrite request_without_attempts.
Qed.

(** [k] rejected attempts, then a response with a success status. *)
Lemma request_resolved_after rc body k w resp :
  Z.of_nat k <= maxRetries rc ->
  (forall i, (i < k)%nat -> rejects w (fetchCount w + i)) ->
  fetch (host w) (fetchCount w + k) = Resolves resp ->
  NetworkManager.ok resp = true ->
  NetworkManager.request rc body w =
  (match bodyJson resp with
   | Some doc => inr (mkApiResponse true (of_json doc) None)
   | None => inl (JsError "Unexpected token in JSON")
   end,
   set_received (received w ++ [body])
     (set_fetchCount (S (fetchCount (after_rejects rc 0 k w))) (after_rejects rc 0 k w))).
Proof.
  intros Hk Hrej Hres Hok. unfold NetworkManager.request.
  replace (Z.to_nat (maxRetries rc + 1))
    with (k + S (Z.to_nat (maxRetries rc) - k))%nat by lia.
  destruct (request_loop_rejects rc body k (S (Z.to_nat (maxRetries rc) - k)) 0 None w)
    as [e He]; [assumption|lia|].
  rewrite He.
  rewrite (request_loop_resolved rc body _ _ _ _ resp); [|
    now rewrite after_rejects_host, after_rejects_fetchCount|assumption].
  now rewrite after_rejects_received.
Qed.

(** X19. A request whose transport throws [k <= maxRetries] times and
    is then answered with a success status stops there, after [k + 1]
    calls of [fetch] and the first [k] delays of the schedule, and the
    batch has reached the collector.  With a JSON body the request
    answers with a success response that carries the parsed body; with
    a body that is not JSON the request itself throws, and the error is
    not retried. *)
Theorem X19_request_answered_with_success (rc : RetryConfig) (body : BatchRequest)
  (k : nat) (w : world) (resp : Response) :
  Z.of_nat k <= maxRetries rc ->
  (forall i, (i < k)%nat -> rejects w (fetchCount w + i)) ->
  fetch (host w) (fetchCount w + k) = Resolves resp ->
  NetworkManager.ok resp = true ->
  let r := NetworkManager.request rc body w in
  r.1 = match bodyJson resp with
        | Some doc => inr (mkApiResponse true (of_json doc) None)
        | None => inl (JsError "Unexpected token in JSON")
        end
  /\ fetchCount r.2 = (fetchCount w + k + 1)%nat
  /\ slept r.2 = slept w ++ delays rc 0 k
  /\ received r.2 = received w ++ [body].
Proof.
  intros Hk Hrej Hres Hok. cbv zeta.
  rewrite (request_resolved_after rc body k w resp Hk Hrej Hres Hok). cbn [fst snd].
  split; [reflexivity|]. cbn.
  rewrite after_rejects_fetchCount, after_rejects_slept. repeat split. lia.
Qed.

(** One rejected [fetch], then 200 with an empty JSON object. *)
Definition hiccup : Host :=
  Demo.probes (fun n => match n with O => Rejects "Failed to fetch" | _ => Demo.accepted end).

Lemma X19_request_answered_with_success_witness :
  let w := Demo.fresh hiccup in
  let r := NetworkManager.request Demo.retry3 Demo.batch0 w in
  r.1 = inr (mkApiResponse true (VObj []) None)
  /\ fetchCount r.2 = 2%nat
  /\ slept r.2 = [100]
  /\ received r.2 = [Demo.batch0].
Proof.
  refine (X19_request_answered_with_success Demo.retry3 Demo.batch0 1%nat
            (Demo.fresh hiccup) (mkResponse 200 "OK" "{}" (Some (JObject []))) _ _ _ _).
  - cbn; lia.
  - intros i Hi. assert (i = O) by lia. subst i.
    exists "Failed to fetch". reflexivity.
  - reflexivity.
  - reflexivity.
Defined.

(** ** A flush answered with a success status *)

Lemma after_rejects_sent rc attempt k w : sent (after_rejects rc attempt k w) = sent w.
Proof. revert attempt w; induction k; intros; simpl; [|rewrite IHk]; reflexivity. Qed.

(** X20. A flush of a non-empty queue whose batch is answered with a
    success status, after [k <= maxRetries] rejected attempts, leaves
    the queue empty and the batch with the collector, whatever the
    body.  With a JSON body the flush returns and [onSuccess] is called
    with the parsed body.  With a body that is not JSON the flush
    throws a [FLUSH_ERROR] and [onError] is called, although the batch
    was delivered; the events are not put back, so they are not sent
    twice. *)
Theorem X20_flush_answered_with_success (w : world) (k : nat) (resp : Response) :
  eventQueue w <> [] ->
  Z.of_nat k <= maxRetries (retryConfig (config w)) ->
  (forall i, (i < k)%nat -> rejects w (fetchCount w + i)) ->
  fetch (host w) (fetchCount w + k) = Resolves resp ->
  NetworkManager.ok resp = true ->
  let r := AdquimoSDK.flush w in
  eventQueue r.2 = []
  /\ received r.2 = received w ++ [batch_of w]
  /\ sent r.2 = sent w ++ [batch_of w]
  /\ match bodyJson resp with
     | Some doc =>
         r.1 = inr tt
         /\ calls r.2 =
            calls w ++ match onSuccess (callbacks w) with
                       | Some h => [CallOnSuccess h (of_json doc)]
                       | None => []
                       end
     | None =>
         let e := Adquimo (mkError "FLUSH_ERROR" "Unexpected token in JSON") in
         r.1 = inl e
         /\ calls r.2 =
            calls w ++ match onError (callbacks w) with
                       | Some h => [CallOnError h e]
                       | None => []
                       end
     end.
Proof.
  intros Hq Hk Hrej Hres Hok. cbv zeta.
  rewrite flush_eq by assumption. rewrite sendBatch_eq.
  rewrite (request_resolved_after (retryConfig (config (drained w))) (batch_of w) k
             (set_sent (sent (drained w) ++ [batch_of w]) (drained w)) resp
             Hk Hrej Hres Hok).
  destruct (bodyJson resp) as [doc|]; cbn [success data].
  - cbn [callbacks set_received set_fetchCount].
    set (w2 := after_rejects (retryConfig (config (drained w))) 0 k
                 (set_sent (sent (drained w) ++ [batch_of w]) (drained w))).
    assert (Hv : forget_network w2 =
                 forget_network (set_sent (sent (drained w) ++ [batch_of w]) (drained w)))
      by apply after_rejects_view.
    pose proof (view_callbacks _ _ Hv) as Hcb. cbn in Hcb.
    pose proof (view_calls _ _ Hv) as Hcalls. cbn in Hcalls.
    pose proof (view_eventQueue _ _ Hv) as Hqueue. cbn in Hqueue.
    assert (Hsent : sent w2 = sent w ++ [batch_of w])
      by (subst w2; now rewrite after_rejects_sent).
    rewrite Hcb. destruct (onSuccess (callbacks w)); cbn;
      rewrite ?Hcalls, ?Hqueue, ?Hsent, ?app_nil_r; repeat split.
  - cbn [callbacks set_received set_fetchCount].
    set (w2 := after_rejects (retryConfig (config (drained w))) 0 k
                 (set_sent (sent (drained w) ++ [batch_of w]) (drained w))).
    assert (Hv : forget_network w2 =
                 forget_network (set_sent (sent (drained w) ++ [batch_of w]) (drained w)))
      by apply after_rejects_view.
    pose proof (view_callbacks _ _ Hv) as Hcb. cbn in Hcb.
    pose proof (view_calls _ _ Hv) as Hcalls. cbn in Hcalls.
    pose proof (view_eventQueue _ _ Hv) as Hqueue. cbn in Hqueue.
    assert (Hsent : sent w2 = sent w ++ [batch_of w])
      by (subst w2; now rewrite after_rejects_sent).
    rewrite Hcb. destruct (onError (callbacks w)); cbn;
      rewrite ?Hcalls, ?Hqueue, ?Hsent, ?app_nil_r; repeat split.
Qed.

(** A collector behind a proxy that answers 200 with a page of HTML. *)
Definition garbled : Host :=
  Demo.probes (fun _ => Resolves (mkResponse 200 "OK" "<html></html>" None)).

Lemma X20_flush_answered_with_success_witness :
  let w := Demo.two_queued garbled in
  let r := AdquimoSDK.flush w in
  eventQueue r.2 = []
  /\ received r.2 = [batch_of w]
  /\ r.1 = inl (Adquimo (mkError "FLUSH_ERROR" "Unexpected token in JSON")).
Proof.
  cbv zeta.
  destruct (X20_flush_answered_with_success (Demo.two_queued garbled) 0
              (mkResponse 200 "OK" "<html></html>" None))
    as (Hq & Hr & _ & He & _).
  - vm_compute. discriminate.
  - vm_compute. discriminate.
  - intros i Hi. lia.
  - reflexivity.
  - reflexivity.
  - split; [exact Hq|]. split; [exact Hr|exact He].
Defined.

(** ** The batches a coordinator sends *)

(** A batch as [flush] builds them: it holds at least one event and
    its [size] is the number of its events. *)
Definition well_formed (b : BatchRequest) : Prop :=
  batch_events b <> [] /\ batch_size b = List.length (batch_events b).

(** Every batch sent is well formed, and the collector has accepted
    only batches that were sent. *)
Definition ledger_ok (w : world) : Prop :=
  Forall well_formed (sent w) /\ forall b, In b (received w) -> In b (sent w).

Lemma batch_of_well_formed w : eventQueue w <> [] -> well_formed (batch_of w).
Proof. intros Hq. split; [exact Hq|reflexivity]. Qed.

Lemma flush_ledger w : ledger_ok w -> ledger_ok (AdquimoSDK.flush w).2.
Proof.
  intros [Hs Hr]. destruct (eventQueue w) as [|e0 q] eqn:Hq.
  - rewrite flush_empty by assumption. now split.
  - assert (Hne : eventQueue w <> []) by (rewrite Hq; discriminate).
    destruct (flush_outcome w Hne) as (Hsent & Hout). split.
    + rewrite Hsent. apply Forall_app. split; [exact Hs|].
      constructor; [now apply batch_of_well_formed|constructor].
    + intros b Hb. rewrite Hsent. apply in_or_app.
      destruct Hout as [[_ Hrec]|(_ & Hrec & _)]; rewrite Hrec in Hb.
      * apply in_app_or in Hb as [Hb|Hb]; [left; now apply Hr|now right].
      * left. now apply Hr.
Qed.

Lemma ledger_same w w' :
  sent w' = sent w -> received w' = received w -> ledger_ok w -> ledger_ok w'.
Proof. unfold ledger_ok. intros -> ->. trivial. Qed.

Lemma step_ledger a w : ledger_ok w -> ledger_ok (step a w).
Proof.
  intros Hl. destruct a as [c| | |ms]; cbn [step].
  - destruct (isInitialized w) eqn:Hinit.
    + rewrite track_eq by assumption. cbv zeta.
      assert (Hp : ledger_ok (pushed (tracked c w) (set_uuids (S (uuids w)) w))).
      { revert Hl. apply ledger_same; [now rewrite pushed_sent|now rewrite pushed_received]. }
      destruct (batchSize (config w) <=? _); [|exact Hp].
      pose proof (flush_ledger _ Hp) as Hf.
      destruct (AdquimoSDK.flush _) as [[e|u] w2]; cbn [snd] in *; [|exact Hf].
      revert Hf. apply ledger_same; [apply logged_sent|apply logged_received].
    + rewrite track_not_ready by assumption. exact Hl.
  - now apply flush_ledger.
  - unfold AdquimoSDK.timerFlush, try_catch.
    pose proof (flush_ledger w Hl) as Hf.
    destruct (AdquimoSDK.flush w) as [[e|u] w2]; exact Hf.
  - exact Hl.
Qed.

(** X21. No empty batch is ever sent.  On a new SDK instance, and
    from then on across any run of awaited [track] and [flush] calls
    and timer flushes, every batch handed to the delivery client holds
    at least one event, its [size] field is the number of its events,
    and the collector has accepted only batches that were sent. *)
Theorem X21_batches_are_well_formed :
  (forall h t stored c, ledger_ok (AdquimoSDK.construct h t stored c))
  /\ (forall l w, ledger_ok w -> ledger_ok (run l w)).
Proof.
  split.
  - intros h t stored c. split; [constructor|]. intros b [].
  - induction l as [|a l IH]; intros w Hl; cbn [run]; [exact Hl|].
    apply IH. now apply step_ledger.
Qed.

(** A batch may hold more events than [batchSize]: after a flush that
    failed, the next call of [track] sends the whole queue again. *)
Example a_batch_larger_than_batchSize :
  let w := run [DoTrack (mkTrack "a" VUndefined None None None None);
                DoTrack (mkTrack "b" VUndefined None None None None);
                DoTrack (mkTrack "c" VUndefined None None None None);
                DoTrack (mkTrack "d" VUndefined None None None None)]
             (Demo.ready Demo.recovering) in
  batchSize (config w) = 3
  /\ map batch_size (sent w) = [3; 4]%nat
  /\ map batch_size (received w) = [4%nat]
  /\ eventQueue w = [].
Proof. vm_compute. repeat split. Qed.

(** ** trackPageView and trackClick *)

Lemma queueEvent_all_events event w :
  all_events (AdquimoSDK.queueEvent event w).2 = all_events w ++ [event].
Proof.
  rewrite queueEvent_eq. destruct (batchSize (config w) <=? _).
  - destruct (flush_account (pushed event w)) as (_ & Hall & _).
    rewrite Hall. apply pushed_all_events.
  - apply pushed_all_events.
Qed.

Lemma own_fields_or_else properties :
  own_fields (or_else (or_else properties VUndefined) (VObj [])) = own_fields properties.
Proof.
  unfold or_else. destruct properties as [| |[|]|n|s|ms|fs]; cbn; try reflexivity.
  - destruct (n =? 0) eqn:Hn; cbn; rewrite ?Hn; reflexivity.
  - destruct s; reflexivity.
Qed.

(** The id of the current user and of the current session, as the
    event factory reads them. *)
Definition user_of (w : world) : jsval :=
  or_else (or_else (get_prop_opt (currentUser w) "id") VNull) VUndefined.

Definition session_of (w : world) : jsval :=
  or_else (or_else (get_prop_opt (currentSession w) "id") VNull) VUndefined.

(** The event [trackPageView] queues in [w]. *)
Definition page_view_event (url : string) (title referrer : option string)
  (properties : jsval) (w : world) : Event :=
  mkEvent (uuid_of (uuids w)) "page_view" (Some "page") (Some "view") None None
    (spread
       (VObj [("url", VStr url);
              ("title", AdquimoSDK.opt_str (AdquimoSDK.str_arg title));
              ("referrer", AdquimoSDK.opt_str (AdquimoSDK.str_arg referrer))])
       (own_fields properties))
    (user_of w) (session_of w) (clock w) "sdk" VERSION.

(** The event [trackClick] queues in [w]. *)
Definition click_event (element : string) (selector text : option string)
  (properties : jsval) (w : world) : Event :=
  mkEvent (uuid_of (uuids w)) "click" (Some "interaction") (Some "click") None None
    (spread
       (VObj [("element", VStr element);
              ("selector", AdquimoSDK.opt_str (AdquimoSDK.str_arg selector));
              ("text", AdquimoSDK.opt_str (AdquimoSDK.str_arg text));
              ("coordinates", VUndefined)])
       (own_fields properties))
    (user_of w) (session_of w) (clock w) "sdk" VERSION.

Lemma trackPageView_all_events url title referrer properties w :
  isInitialized w = true ->
  all_events (AdquimoSDK.trackPageView url title referrer properties w).2 =
  all_events w ++ [page_view_event url title referrer properties w].
Proof.
  intros Hinit. unfold AdquimoSDK.trackPageView, AdquimoSDK.guarded.
  unfold bind at 1, gets at 1. rewrite Hinit. cbn [negb]. unfold try_catch.
  unfold bind at 1.
  change (TrackingManager.createPageView
            (TrackingManager.mkPageViewOptions url (AdquimoSDK.str_arg title)
               (AdquimoSDK.str_arg referrer) (or_else properties VUndefined)) w)
    with (inr (A:=exn)
            (mkPageView (uuid_of (uuids w)) url (AdquimoSDK.str_arg title)
               (AdquimoSDK.str_arg referrer)
               (or_else (or_else properties VUndefined) (VObj []))
               (user_of w) (session_of w) (clock w) 0),
          set_uuids (S (uuids w)) w).
  cbn [pv_id pv_url pv_title pv_referrer pv_properties pv_userId pv_sessionId
       pv_timestamp].
  rewrite own_fields_or_else. fold (page_view_event url title referrer properties w).
  pose proof (queueEvent_all_events (page_view_event url title referrer properties w)
                (set_uuids (S (uuids w)) w)) as Hall.
  destruct (AdquimoSDK.queueEvent _ _) as [[e|u] w2]; cbn [snd] in *; [|exact Hall].
  unfold AdquimoSDK.callOnError, bind, gets, throw. rewrite invoke_eq. cbn [snd].
  now rewrite logged_all_events.
Qed.

Lemma trackClick_all_events element selector text properties w :
  isInitialized w = true ->
  all_events (AdquimoSDK.trackClick element selector text properties w).2 =
  all_events w ++ [click_event element selector text properties w].
Proof.
  intros Hinit. unfold AdquimoSDK.trackClick, AdquimoSDK.guarded.
  unfold bind at 1, gets at 1. rewrite Hinit. cbn [negb]. unfold try_catch.
  unfold bind at 1.
  change (TrackingManager.createClickEvent
            (TrackingManager.mkClickOptions element (AdquimoSDK.str_arg selector)
               (AdquimoSDK.str_arg text) (or_else properties VUndefined)) w)
    with (inr (A:=exn)
            (mkClick (uuid_of (uuids w)) element (AdquimoSDK.str_arg selector)
               (AdquimoSDK.str_arg text)
               (or_else (or_else properties VUndefined) (VObj []))
               (user_of w) (session_of w) (clock w) VUndefined),
          set_uuids (S (uuids w)) w).
  cbn [ck_id ck_element ck_selector ck_text ck_properties ck_userId ck_sessionId
       ck_timestamp ck_coordinates].
  rewrite own_fields_or_else. fold (click_event element selector text properties w).
  pose proof (queueEvent_all_events (click_event element selector text properties w)
                (set_uuids (S (uuids w)) w)) as Hall.
  destruct (AdquimoSDK.queueEvent _ _) as [[e|u] w2]; cbn [snd] in *; [|exact Hall].
  unfold AdquimoSDK.callOnError, bind, gets, throw. rewrite invoke_eq. cbn [snd].
  now rewrite logged_all_events.
Qed.

(** X22. On an initialized coordinator [trackPageView] and
    [trackClick] add exactly one event to the pipeline, whether the
    call returns or a flush it triggers fails: an event named
    [page_view] (category [page], action [view]) or [click] (category
    [interaction], action [click]).  Its properties are the built-in
    ones ([url], [title], [referrer]; [element], [selector], [text],
    [coordinates]) with the properties of the caller laid over them: a
    property of the caller with a built-in name replaces the built-in
    value. *)
Theorem X22_page_views_and_clicks (w : world) (properties : jsval) :
  isInitialized w = true ->
  (forall url title referrer,
     let e := page_view_event url title referrer properties w in
     all_events (AdquimoSDK.trackPageView url title referrer properties w).2 =
       all_events w ++ [e]
     /\ ev_name e = "page_view"
     /\ forall k,
          get_prop_opt (ev_properties e) k =
          match assoc_get k (rev (own_fields properties)) with
          | Some v => v
          | None =>
              get_prop_opt
                (VObj [("url", VStr url);
                       ("title", AdquimoSDK.opt_str (AdquimoSDK.str_arg title));
                       ("referrer", AdquimoSDK.opt_str (AdquimoSDK.str_arg referrer))]) k
          end)
  /\ (forall element selector text,
        let e := click_event element selector text properties w in
        all_events (AdquimoSDK.trackClick element selector text properties w).2 =
          all_events w ++ [e]
        /\ ev_name e = "click"
        /\ forall k,
             get_prop_opt (ev_properties e) k =
             match assoc_get k (rev (own_fields properties)) with
             | Some v => v
             | None =>
                 get_prop_opt
                   (VObj [("element", VStr element);
                          ("selector", AdquimoSDK.opt_str (AdquimoSDK.str_arg selector));
                          ("text", AdquimoSDK.opt_str (AdquimoSDK.str_arg text));
                          ("coordinates", VUndefined)]) k
             end).
Proof.
  intros Hinit. split.
  - intros url title referrer e. subst e.
    split; [now apply trackPageView_all_events|]. split; [reflexivity|].
    intros k. cbn [ev_properties page_view_event]. now rewrite spread_get.
  - intros element selector text e. subst e.
    split; [now apply trackClick_all_events|]. split; [reflexivity|].
    intros k. cbn [ev_properties click_event]. now rewrite spread_get.
Qed.

Lemma X22_page_views_and_clicks_witness :
  let w := Demo.ready Demo.accepting in
  let r := AdquimoSDK.trackPageView "/home" (Some "Home") None
             (VObj [("url", VStr "/override"); ("section", VStr "shop")]) w in
  map ev_name (all_events r.2) = ["page_view"]
  /\ map (fun e => get_prop_opt (ev_properties e) "url") (all_events r.2)
     = [VStr "/override"]
  /\ map (fun e => get_prop_opt (ev_properties e) "title") (all_events r.2)
     = [VStr "Home"].
Proof.
  cbv zeta.
  destruct (proj1 (X22_page_views_and_clicks (Demo.ready Demo.accepting)
                     (VObj [("url", VStr "/override"); ("section", VStr "shop")])
                     eq_refl) "/home" (Some "Home") None)
    as (Hall & Hname & Hprops).
  assert (Hempty : all_events (Demo.ready Demo.accepting) = [])
    by (vm_compute; reflexivity).
  rewrite Hall, Hempty. cbn [map app]. cbv zeta in Hprops.
  rewrite (Hprops "url"), (Hprops "title"). repeat split.
Defined.

(** ** identify and alias of the coordinator *)

(** X23. On an initialized coordinator [identify] and [alias] never
    touch the event queue or the network.  When the user store
    returns, so do they, with the state it left.  When it throws, they
    throw [USER_IDENTIFICATION_ERROR] or [USER_ALIAS_ERROR] with the
    message "[object Object]": the error of the user store is a plain
    object, so its message is lost.  A failed [identify] calls
    [onError] and changes nothing else; a failed [alias] changes
    nothing at all and does not call [onError]. *)
Theorem X23_identify_and_alias_of_the_coordinator (w : world) :
  isInitialized w = true ->
  (forall userId properties,
     let r := AdquimoSDK.identify userId properties w in
     eventQueue r.2 = eventQueue w /\ sent r.2 = sent w
     /\ received r.2 = received w /\ fetchCount r.2 = fetchCount w
     /\ match r.1 with
        | inr _ => r = UserManager.identify userId properties w
        | inl e =>
            e = Adquimo (mkError "USER_IDENTIFICATION_ERROR" "[object Object]")
            /\ r.2 = logged ((fun h => CallOnError h e) <$> onError (callbacks w)) w
        end)
  /\ (forall anonymousId userId,
        let r := AdquimoSDK.alias anonymousId userId w in
        eventQueue r.2 = eventQueue w /\ sent r.2 = sent w
        /\ received r.2 = received w /\ fetchCount r.2 = fetchCount w
        /\ match r.1 with
           | inr _ => r = UserManager.alias anonymousId userId w
           | inl e =>
               e = Adquimo (mkError "USER_ALIAS_ERROR" "[object Object]") /\ r.2 = w
           end).
Proof.
  intros Hinit. split.
  - intros userId properties. cbv zeta.
    assert (Hsdk : AdquimoSDK.identify userId properties w =
              match UserManager.identify userId properties w with
              | (inl e, w1) =>
                  let err := AdquimoSDK.sdkError "USER_IDENTIFICATION_ERROR" e in
                  (inl err, logged ((fun h => CallOnError h err) <$> onError (callbacks w1)) w1)
              | r => r
              end).
    { unfold AdquimoSDK.identify, AdquimoSDK.guarded, bind, gets.
      rewrite Hinit. cbn [negb]. unfold try_catch.
      destruct (UserManager.identify userId properties w) as [[e|u] w1]; [|reflexivity].
      unfold AdquimoSDK.callOnError, bind, gets, throw. now rewrite invoke_eq. }
    rewrite Hsdk.
    destruct (identify_eq userId properties w) as [msg Heq]. cbv zeta in Heq.
    destruct (UserManager.identify userId properties w) as [[e|[]] w1].
    + destruct (negb (blank userId) && _ && _); [discriminate|].
      injection Heq as -> ->. cbv zeta. cbn [fst snd].
      rewrite logged_eventQueue, logged_sent, logged_received.
      repeat split. destruct (onError (callbacks w)); reflexivity.
    + destruct (negb (blank userId) && _ && _); [|discriminate].
      injection Heq as ->. cbn [fst snd]. repeat split.
  - intros anonymousId userId. cbv zeta.
    assert (Hsdk : AdquimoSDK.alias anonymousId userId w =
              match UserManager.alias anonymousId userId w with
              | (inl e, w1) => (inl (AdquimoSDK.sdkError "USER_ALIAS_ERROR" e), w1)
              | r => r
              end).
    { unfold AdquimoSDK.alias, AdquimoSDK.guarded, bind, gets.
      rewrite Hinit. cbn [negb]. unfold try_catch.
      destruct (UserManager.alias anonymousId userId w) as [[e|u] w1]; reflexivity. }
    rewrite Hsdk. pose proof (alias_eq anonymousId userId w) as Heq.
    destruct (UserManager.alias anonymousId userId w) as [[e|[]] w1].
    + destruct (String.eqb anonymousId EmptyString || String.eqb userId EmptyString);
        [injection Heq as -> ->; cbn; repeat split|].
      destruct (StorageManager.get (UserManager.anonymous_key anonymousId) w).1
        as [e'|anonymousUser]; [injection Heq as -> ->; cbn; repeat split|].
      destruct (truthy anonymousUser); [|injection Heq as -> ->; cbn; repeat split].
      cbv zeta in Heq. destruct (fits w _); [discriminate|].
      injection Heq as -> ->; cbn; repeat split.
    + destruct (String.eqb anonymousId EmptyString || String.eqb userId EmptyString);
        [discriminate|].
      destruct (StorageManager.get (UserManager.anonymous_key anonymousId) w).1
        as [e'|anonymousUser]; [discriminate|].
      destruct (truthy anonymousUser); [|discriminate].
      cbv zeta in Heq. destruct (fits w _); [|discriminate].
      injection Heq as ->. cbn [fst snd]. repeat split.
Qed.

Lemma X23_identify_and_alias_of_the_coordinator_witness :
  let w := Demo.two_queued Demo.accepting in
  let r := AdquimoSDK.identify "   " VUndefined w in
  r.1 = inl (Adquimo (mkError "USER_IDENTIFICATION_ERROR" "[object Object]"))
  /\ eventQueue r.2 = eventQueue w.
Proof.
  cbv zeta.
  destruct (proj1 (X23_identify_and_alias_of_the_coordinator
                     (Demo.two_queued Demo.accepting) eq_refl) "   " VUndefined)
    as (Hq & _ & _ & _ & Hr).
  split; [|exact Hq].
  destruct (AdquimoSDK.identify "   " VUndefined (Demo.two_queued Demo.accepting))
    as [[e|u] w1] eqn:Hid; cbn [fst snd] in *.
  - destruct Hr as [-> _]. reflexivity.
  - vm_compute in Hid. discriminate.
Defined.

(** ** reset of the coordinator *)

(** The state with what the user and session stores write erased:
    the storage backend, the current user and session, the start time
    and the uuid counter. *)
Definition forget_identity (w : world) : world :=
  set_storage ∅
    (set_currentUser VNull
       (set_currentSession VNull (set_sessionStartTime VNull (set_uuids 0 w)))).

(** The anonymous user record created in [w]. *)
Definition anonymous_user (w : world) : jsval :=
  VObj [("id", VStr (uuid_of (uuids w))); ("properties", VObj []);
        ("createdAt", VDate (clock w)); ("lastSeenAt", VDate (clock w))].

Lemma user_reset_eq w :
  UserManager.reset w =
  let w0 := set_storage
              (delete (full_key w USER_PROPERTIES)
                 (delete (full_key w USER_ID) (storage w)))
              (set_currentUser VNull w) in
  if fits w0 (stored_item (full_key w USER_ID) (anonymous_user w) (clock w) None)
  then (inr tt, with_user (anonymous_user w) (set_uuids (S (uuids w)) w0))
  else (inl (Adquimo (mkError "USER_RESET_ERROR" "[object Object]")),
        set_uuids (S (uuids w)) w0).
Proof.
  unfold UserManager.reset, try_catch, bind, modify.
  rewrite !remove_eq. cbv zeta. cbn [storage set_storage set_currentUser].
  rewrite createAnonymousUser_eq. cbv zeta.
  match goal with |- _ = (if ?b then _ else _) => set (c := b) end.
  match goal with
  | |- (let (_, _) := (if ?b' then _ else _) in _) = _ => change b' with c
  end.
  destruct c; reflexivity.
Qed.

Lemma user_reset_view w : forget_identity (UserManager.reset w).2 = forget_identity w.
Proof. rewrite user_reset_eq. cbv zeta. destruct (fits _ _); reflexivity. Qed.

(** The state after [SessionManager.reset] has cleared [w]. *)
Definition session_cleared (w : world) : world :=
  set_sessionStartTime VNull
    (set_currentSession VNull
       (set_storage
          (delete (full_key w SESSION_PROPERTIES)
             (delete (full_key w SESSION_ID) (storage w))) w)).

Lemma session_reset_eq w :
  SessionManager.reset w =
  if truthy (currentSession w) then
    match SessionManager.endSession w with
    | (inl e, w1) => (inl (createError "SESSION_RESET_ERROR" e), w1)
    | (inr _, w1) => (inr tt, session_cleared w1)
    end
  else (inr tt, session_cleared w).
Proof.
  unfold SessionManager.reset, try_catch. unfold bind at 1, gets at 1. unfold bind at 1.
  destruct (truthy (currentSession w)).
  - destruct (SessionManager.endSession w) as [[e|u] w1]; [reflexivity|].
    unfold bind, modify. rewrite !remove_eq. reflexivity.
  - unfold ret at 1. unfold bind, modify. rewrite !remove_eq. reflexivity.
Qed.

Lemma endSession_view w :
  forget_identity (SessionManager.endSession w).2 = forget_identity w.
Proof.
  rewrite endSession_eq.
  destruct (truthy (currentSession w)); [|reflexivity].
  destruct (if truthy (sessionStartTime w) then _ else _) as [e|d]; [reflexivity|].
  cbv zeta. destruct (fits w _); reflexivity.
Qed.

Lemma session_reset_view w :
  forget_identity (SessionManager.reset w).2 = forget_identity w.
Proof.
  rewrite session_reset_eq. pose proof (endSession_view w) as He.
  destruct (truthy (currentSession w)); [|reflexivity].
  destruct (SessionManager.endSession w) as [[e|u] w1]; cbn [snd] in *; [exact He|].
  rewrite <- He. reflexivity.
Qed.

Lemma endSession_currentUser w :
  currentUser (SessionManager.endSession w).2 = currentUser w.
Proof.
  rewrite endSession_eq.
  destruct (truthy (currentSession w)); [|reflexivity].
  destruct (if truthy (sessionStartTime w) then _ else _) as [e|d]; [reflexivity|].
  cbv zeta. destruct (fits w _); reflexivity.
Qed.

Lemma session_reset_returns w w' :
  SessionManager.reset w = (inr tt, w') ->
  currentSession w' = VNull /\ sessionStartTime w' = VNull
  /\ currentUser w' = currentUser w
  /\ storage w' !! full_key w SESSION_ID = None.
Proof.
  rewrite session_reset_eq. pose proof (endSession_currentUser w) as He.
  destruct (endSession_frame w) as (_ & _ & _ & Hconfig).
  destruct (truthy (currentSession w)).
  - destruct (SessionManager.endSession w) as [[e|u] w1]; cbn [snd] in *;
      [intros H; discriminate H|].
    intros [= <-]. split; [reflexivity|]. split; [reflexivity|]. split; [exact He|].
    cbn. assert (Hk : forall k, full_key w1 k = full_key w k)
      by (intros k; unfold full_key, StorageManager.cfg; now rewrite Hconfig).
    rewrite !Hk.
    rewrite lookup_delete_ne by (intros H; apply full_key_inj in H; discriminate H).
    apply lookup_delete_eq.
  - intros [= <-]. split; [reflexivity|]. split; [reflexivity|]. split; [reflexivity|].
    cbn.
    rewrite lookup_delete_ne by (intros H; apply full_key_inj in H; discriminate H).
    apply lookup_delete_eq.
Qed.

(** X24. When [reset] of the coordinator returns, the events that
    were queued are gone without having been sent; the user is a new
    anonymous one, with the next id of the generator and no
    properties; and there is no session: no current session, no start
    time, nothing stored under the session key, so the events tracked
    next carry no session id.  The callbacks, the timer, the
    initialized flag and the logs of the network are as before. *)
Theorem X24_reset_of_the_coordinator (w w' : world) :
  AdquimoSDK.reset w = (inr tt, w') ->
  eventQueue w' = []
  /\ sent w' = sent w /\ received w' = received w /\ fetchCount w' = fetchCount w
  /\ calls w' = calls w /\ callbacks w' = callbacks w
  /\ isInitialized w' = true /\ flushTimer w' = flushTimer w
  /\ currentUser w' = anonymous_user w
  /\ currentSession w' = VNull /\ sessionStartTime w' = VNull
  /\ storage w' !! full_key w SESSION_ID = None
  /\ forall c, ev_sessionId (tracked c w') = VUndefined
                /\ ev_userId (tracked c w') = VStr (uuid_of (uuids w)).
Proof.
  unfold AdquimoSDK.reset, AdquimoSDK.guarded. unfold bind at 1, gets at 1.
  destruct (isInitialized w) eqn:Hinit; cbn [negb]; [|intros H; discriminate H].
  unfold try_catch. unfold bind at 1.
  pose proof (user_reset_view w) as Hu. pose proof (user_reset_eq w) as Hueq.
  destruct (UserManager.reset w) as [[e|[]] wu]; cbn [snd] in *;
    [intros H; discriminate H|].
  unfold bind at 1.
  pose proof (session_reset_view wu) as Hs.
  pose proof (session_reset_returns wu) as Hret.
  destruct (SessionManager.reset wu) as [[e|[]] ws]; cbn [snd] in *;
    [intros H; discriminate H|].
  unfold modify. intros [= <-].
  destruct (Hret ws eq_refl) as (Hcs & Hst & Hcu & Hgone).
  assert (Hview : forget_identity ws = forget_identity w) by now rewrite Hs.
  assert (Huser : currentUser wu = anonymous_user w
                  /\ forall k, full_key wu k = full_key w k).
  { cbv zeta in Hueq. destruct (fits _ _); [|discriminate].
    injection Hueq as ->. split; [reflexivity|]. intros k. reflexivity. }
  destruct Huser as [Huser Hk].
  cbn [eventQueue sent received fetchCount calls callbacks isInitialized flushTimer
       currentUser currentSession sessionStartTime storage set_eventQueue].
  split; [reflexivity|].
  split; [exact (f_equal sent Hview)|]. split; [exact (f_equal received Hview)|].
  split; [exact (f_equal fetchCount Hview)|]. split; [exact (f_equal calls Hview)|].
  split; [exact (f_equal callbacks Hview)|].
  split; [rewrite <- Hinit; exact (f_equal isInitialized Hview)|].
  split; [exact (f_equal flushTimer Hview)|].
  split; [now rewrite Hcu|]. split; [exact Hcs|]. split; [exact Hst|].
  split; [now rewrite <- Hk|].
  intros c. unfold tracked, event_for.
  cbn [ev_sessionId ev_userId currentSession currentUser set_eventQueue].
  rewrite Hcs, Hcu, Huser. split; reflexivity.
Qed.

Lemma X24_reset_of_the_coordinator_witness :
  let w := Demo.two_queued Demo.accepting in
  let r := AdquimoSDK.reset w in
  r.1 = inr tt /\ List.length (eventQueue w) = 2%nat
  /\ eventQueue r.2 = [] /\ sent r.2 = [] /\ currentSession r.2 = VNull.
Proof.
  cbv zeta.
  destruct (AdquimoSDK.reset (Demo.two_queued Demo.accepting)) as [[e|[]] w'] eqn:Hreset;
    [vm_compute in Hreset; discriminate|].
  destruct (X24_reset_of_the_coordinator _ _ Hreset)
    as (Hq & Hsent & _ & _ & _ & _ & _ & _ & _ & Hcs & _).
  cbn [fst snd]. split; [reflexivity|]. split; [vm_compute; reflexivity|].
  split; [exact Hq|]. split; [rewrite Hsent; vm_compute; reflexivity|exact Hcs].
Defined.

(** ** The configuration after the defaults *)

Lemma num_or_not_zero o d : d <> 0 -> AdquimoSDK.num_or o d <> 0.
Proof.
  intros Hd. unfold AdquimoSDK.num_or. destruct o as [n|]; [|exact Hd].
  destruct (Z.eqb_spec n 0); assumption.
Qed.

Lemma str_or_not_empty o d : d <> EmptyString -> AdquimoSDK.str_or o d <> EmptyString.
Proof.
  intros Hd. unfold AdquimoSDK.str_or. destruct o as [s|]; [|exact Hd].
  destruct (String.eqb_spec s EmptyString); assumption.
Qed.

(** X25. Zero is not a setting.  In the configuration an SDK
    instance works with, the batch size, the flush interval, the
    number of retries, the delays, the back-off multiplier and the
    storage size limit are never 0, and the base URL and the key prefix
    are never empty: a 0 or an empty string given by the caller is
    replaced by the default (so [maxRetries: 0] gives 3 retries and
    [maxSize: 0] a limit of 1 MB), while any other value given is
    kept. *)
Theorem X25_zero_is_not_a_setting (c : AdquimoSDK.ConfigInput) :
  let m := AdquimoSDK.mergeWithDefaults c in
  (batchSize m <> 0 /\ flushInterval m <> 0
   /\ maxRetries (retryConfig m) <> 0 /\ initialDelay (retryConfig m) <> 0
   /\ maxDelay (retryConfig m) <> 0 /\ backoffMultiplier (retryConfig m) <> 0
   /\ maxSize (storageConfig m) <> 0
   /\ baseUrl m <> EmptyString /\ keyPrefix (storageConfig m) <> EmptyString)
  /\ (forall given, AdquimoSDK.in_retryConfig c = Some given ->
        maxRetries (retryConfig m) = (if maxRetries given =? 0 then 3 else maxRetries given)
        /\ initialDelay (retryConfig m) =
           (if initialDelay given =? 0 then 1000 else initialDelay given)
        /\ maxDelay (retryConfig m) = (if maxDelay given =? 0 then 10000 else maxDelay given)
        /\ backoffMultiplier (retryConfig m) =
           (if backoffMultiplier given =? 0 then 2 else backoffMultiplier given))
  /\ (forall n, AdquimoSDK.in_batchSize c = Some n ->
        batchSize m = (if n =? 0 then 50 else n))
  /\ (forall n, AdquimoSDK.in_maxSize c = Some n ->
        maxSize (storageConfig m) = (if n =? 0 then 1048576 else n)).
Proof.
  cbv zeta. split; [|split; [|split]].
  - unfold AdquimoSDK.mergeWithDefaults. cbn.
    repeat split; (apply num_or_not_zero || apply str_or_not_empty); discriminate.
  - intros given Hgiven. unfold AdquimoSDK.mergeWithDefaults. cbn. rewrite Hgiven.
    repeat split.
  - intros n Hn. unfold AdquimoSDK.mergeWithDefaults. cbn. rewrite Hn. reflexivity.
  - intros n Hn. unfold AdquimoSDK.mergeWithDefaults. cbn. rewrite Hn. reflexivity.
Qed.

(** An instance configured with [maxRetries: 0] on a host without
    network: the request is tried four times all the same. *)
Example retries_cannot_be_switched_off :
  let c := AdquimoSDK.mkInput "key" None None None None None
             (Some (mkRetry 0 100 1000 2)) None None None in
  let w := AdquimoSDK.construct Demo.offline Demo.epoch ∅ c in
  fetchCount (NetworkManager.sendBatch Demo.batch0 w).2 = 4%nat.
Proof. vm_compute. reflexivity. Qed.

(** ** What the event validator accepts *)

Definition is_nil {A : Type} (l : list A) : bool :=
  match l with [] => true | _ => false end.

Lemma is_nil_app {A : Type} (l k : list A) : is_nil (l ++ k) = is_nil l && is_nil k.
Proof. destruct l; reflexivity. Qed.

Lemma is_nil_when b i : is_nil (EventValidator.when b i) = negb b.
Proof. destruct b; reflexivity. Qed.

Lemma name_char_is_no_space c : Properties.is_name_char c = true -> is_space c = false.
Proof.
  destruct c as [[] [] [] [] [] [] [] []]; vm_compute; intros H;
    reflexivity || discriminate H.
Qed.

Lemma name_check s :
  negb (EventValidator.missing s)
  && negb (EventValidator.nonempty s && negb (EventValidator.isValidEventName s))
  = Properties.matches_name s.
Proof.
  unfold EventValidator.missing, EventValidator.nonempty, EventValidator.isValidEventName,
    Properties.matches_name, trim_is_empty.
  destruct s as [|c r]; [reflexivity|].
  cbn [String.eqb negb orb andb all_chars].
  destruct (Properties.is_name_char c) eqn:Hc; cbn [andb].
  - rewrite (name_char_is_no_space c Hc). cbn [andb negb].
    destruct (all_chars Properties.is_name_char r); reflexivity.
  - cbn [negb]. now rewrite andb_false_r.
Qed.

(** What [validate] asks of an optional name: nothing when it is
    absent or empty. *)
Definition optional_name (o : option string) : bool :=
  match o with
  | Some s => negb (EventValidator.nonempty s) || Properties.matches_name s
  | None => true
  end.

(** What [validate] asks of an id: nothing when it is falsy. *)
Definition optional_id (v : jsval) : bool := negb (truthy v) || EventValidator.isValidId v.

(** The events [validate] accepts. *)
Definition accepted_event (e : Event) : bool :=
  negb (EventValidator.missing (ev_id e))
  && Properties.matches_name (ev_name e)
  && (if truthy (ev_properties e) then
        (List.length (own_fields (ev_properties e)) <=? 100)%nat
        && forallb (fun kv => Properties.isValidPropertyKey kv.1
                              && Properties.isValidPropertyValue kv.2)
             (own_fields (ev_properties e))
      else true)
  && optional_name (ev_category e) && optional_name (ev_action e)
  && optional_id (ev_userId e) && optional_id (ev_sessionId e)
  && optional_name (Some (ev_source e))
  && (negb (EventValidator.nonempty (ev_version e))
      || EventValidator.isValidVersion (ev_version e)).

Lemma is_nil_validateEntries fieldName l :
  is_nil (EventValidator.validateEntries fieldName l) =
  forallb (fun kv => Properties.isValidPropertyKey kv.1
                     && Properties.isValidPropertyValue kv.2) l.
Proof.
  induction l as [|[k v] l IH]; [reflexivity|].
  cbn [EventValidator.validateEntries forallb fst snd].
  rewrite !is_nil_app, !is_nil_when, IH, !negb_involutive. now rewrite andb_assoc.
Qed.

Lemma is_nil_opt_format f text o :
  is_nil (EventValidator.opt_format f text o) = optional_name o.
Proof.
  destruct o as [s|]; [|reflexivity].
  cbn [EventValidator.opt_format optional_name]. rewrite is_nil_when.
  unfold EventValidator.isValidEventName.
  destruct (EventValidator.nonempty s); destruct (Properties.matches_name s); reflexivity.
Qed.

(** X26. The acceptance rule of the event validator.  [validate]
    reports no error exactly for an event with an id that is not
    blank, a name of letters, digits, underscores and hyphens, at most
    100 properties with such keys and with values that are strings,
    numbers, booleans or [null], a category, an action and a source
    that are empty or such names, a user id and a session id that are
    falsy or strings that are not blank, and a version that is empty
    or starts with three dotted numbers; and [isValid] says whether
    the list of errors is empty. *)
Theorem X26_what_validate_accepts (e : Event) :
  EventValidator.isValid (EventValidator.validate e) = accepted_event e
  /\ (EventValidator.errors (EventValidator.validate e) = [] <->
      accepted_event e = true).
Proof.
  assert (Hnil : is_nil (EventValidator.errors (EventValidator.validate e))
                 = accepted_event e).
  { unfold EventValidator.validate. cbv zeta. cbn [EventValidator.errors].
    rewrite !is_nil_app, !is_nil_when, !is_nil_opt_format.
    unfold accepted_event.
    rewrite <- (name_check (ev_name e)).
    assert (Hprops :
      is_nil (if truthy (ev_properties e)
              then EventValidator.validateProperties (ev_properties e) "properties"
              else [])
      = (if truthy (ev_properties e) then
           (List.length (own_fields (ev_properties e)) <=? 100)%nat
           && forallb (fun kv => Properties.isValidPropertyKey kv.1
                                 && Properties.isValidPropertyValue kv.2)
                (own_fields (ev_properties e))
         else true)).
    { destruct (truthy (ev_properties e)); [|reflexivity].
      unfold EventValidator.validateProperties.
      rewrite is_nil_app, is_nil_when, is_nil_validateEntries.
      change MAX_EVENT_PROPERTIES with 100%nat.
      now rewrite Nat.ltb_antisym, negb_involutive. }
    rewrite Hprops. unfold optional_id, optional_name.
    unfold EventValidator.isValidEventName.
    rewrite !negb_andb, !negb_involutive, !andb_assoc. reflexivity. }
  split.
  - rewrite <- Hnil. unfold EventValidator.validate. cbv zeta. reflexivity.
  - rewrite <- Hnil.
    destruct (EventValidator.errors (EventValidator.validate e)); cbn; split;
      intros H; reflexivity || discriminate H.
Qed.

(** ** destroy that returns *)

(** X27. When [destroy] returns, every event that was queued has
    reached the collector, the queue is empty, the interval timer of
    the coordinator is no longer live, the callbacks are cleared and
    the coordinator is no longer initialized. *)
Theorem X27_destroy_that_returns (w w' : world) :
  AdquimoSDK.destroy w = (inr tt, w') ->
  eventQueue w' = []
  /\ List.concat (map batch_events (received w')) = all_events w
  /\ isInitialized w' = false
  /\ callbacks w' = mkCallbacks None None None
  /\ (forall h, flushTimer w = Some h -> ~ In h (intervals w')).
Proof.
  unfold AdquimoSDK.destroy, try_catch. unfold bind at 1.
  destruct (flush_account w) as (Hkept & Hall & Hempty).
  destruct (AdquimoSDK.flush w) as [[e|[]] w1]; cbn [fst snd] in *;
    [intros H; discriminate H|].
  specialize (Hempty eq_refl).
  unfold bind at 1, gets at 1. rewrite (kept_flushTimer _ _ Hkept).
  unfold all_events in Hall. rewrite Hempty, app_nil_r in Hall.
  destruct (flushTimer w) as [h|].
  - unfold bind, modify, clearInterval. intros [= <-]. cbn.
    split; [reflexivity|]. split; [exact Hall|]. split; [reflexivity|].
    split; [reflexivity|].
    intros h' [= <-] Hin. apply filter_In in Hin as [_ Hin].
    now rewrite Nat.eqb_refl in Hin.
  - unfold bind, modify, ret. intros [= <-]. cbn.
    split; [reflexivity|]. split; [exact Hall|]. split; [reflexivity|].
    split; [reflexivity|]. intros h' H. discriminate H.
Qed.

Lemma X27_destroy_that_returns_witness :
  let w := Demo.two_queued Demo.accepting in
  let r := AdquimoSDK.destroy w in
  r.1 = inr tt
  /\ eventQueue r.2 = []
  /\ List.concat (map batch_events (received r.2)) = eventQueue w
  /\ intervals r.2 = [].
Proof.
  cbv zeta.
  destruct (AdquimoSDK.destroy (Demo.two_queued Demo.accepting)) as [[e|[]] w'] eqn:Hd;
    [vm_compute in Hd; discriminate|].
  destruct (X27_destroy_that_returns _ _ Hd) as (Hq & Hall & _).
  cbn [fst snd]. split; [reflexivity|]. split; [exact Hq|].
  split; [rewrite Hall; vm_compute; reflexivity|].
  assert (Hi : intervals (AdquimoSDK.destroy (Demo.two_queued Demo.accepting)).2 = [])
    by (vm_compute; reflexivity).
  now rewrite Hd in Hi.
Defined.

(** ** The back-off schedule *)



(** ** One initialization per storage *)

(** Storage holds a session record as [createNewSession] writes them:
    an item without a time to live whose value has a start time. *)
Definition persisted_session (w : world) : Prop :=
  exists ms,
    storage w !! full_key w SESSION_ID = Some (JObject ms)
    /\ truthy (get_prop_opt (of_json (JObject ms)) "ttl") = false
    /\ truthy (get_prop_opt (of_json (JObject ms)) "value") = true
    /\ truthy (get_prop_opt (get_prop_opt (of_json (JObject ms)) "value") "startTime")
       = true.

Lemma persisted_session_same w w' :
  keyPrefix (StorageManager.cfg w') = keyPrefix (StorageManager.cfg w) ->
  storage w' !! full_key w SESSION_ID = storage w !! full_key w SESSION_ID ->
  persisted_session w -> persisted_session w'.
Proof.
  intros Hp Hs (ms & Hdoc & Hrest). exists ms. split; [|exact Hrest].
  unfold full_key. rewrite Hp. fold (full_key w SESSION_ID). now rewrite Hs.
Qed.

Lemma persisted_session_blocks w :
  persisted_session w ->
  exists msg,
    SessionManager.initialize w = (inl (Adquimo (mkError "SESSION_INIT_ERROR" msg)), w).
Proof.
  intros (ms & Hdoc & Httl & Hvalue & Hstart).
  now apply (initialize_on_stored_session w ms).
Qed.

Lemma new_session_persisted userId properties w t :
  let doc := stored_item (full_key w SESSION_ID) (new_session userId properties w) t None in
  exists ms,
    doc = JObject ms
    /\ truthy (get_prop_opt (of_json (JObject ms)) "ttl") = false
    /\ truthy (get_prop_opt (of_json (JObject ms)) "value") = true
    /\ truthy (get_prop_opt (get_prop_opt (of_json (JObject ms)) "value") "startTime")
       = true.
Proof.
  cbv zeta. eexists. split; [reflexivity|].
  destruct (truthy_to_json (or_else userId (VStr "anonymous"))) as [ju Hju].
  { unfold or_else. destruct (truthy userId) eqn:Hu; [exact Hu|reflexivity]. }
  destruct (truthy_to_json (or_else properties (VObj []))) as [jp Hjp].
  { unfold or_else. destruct (truthy properties) eqn:Hp; [exact Hp|reflexivity]. }
  cbn -[toISOString]. rewrite Hju, Hjp.
  destruct (to_json (device (host w))); destruct (to_json (browser (host w)));
    cbn -[toISOString]; rewrite toISOString_not_empty; repeat split.
Qed.

Lemma createNewSession_persists userId properties w session w1 :
  SessionManager.createNewSession userId properties w = (inr session, w1) ->
  persisted_session w1 /\ config w1 = config w.
Proof.
  rewrite createNewSession_eq. cbv zeta.
  destruct (fits w _); [|intros H; discriminate H].
  intros [= _ <-]. split; [|reflexivity].
  destruct (new_session_persisted userId properties w (clock w)) as (ms & Hms & Hrest).
  exists ms. split; [|exact Hrest].
  cbn. change (full_key _ SESSION_ID) with (full_key w SESSION_ID).
  rewrite lookup_insert_eq. now rewrite <- Hms.
Qed.

(** The only way [SessionManager.initialize] returns is by creating a
    session. *)
Lemma session_initialize_returns w w1 :
  SessionManager.initialize w = (inr tt, w1) ->
  exists session,
    SessionManager.createNewSession VUndefined VUndefined w = (inr session, w1).
Proof.
  unfold SessionManager.initialize, try_catch. unfold bind at 1.
  pose proof (get_reads_only SESSION_ID w) as Hread.
  pose proof (get_from_json SESSION_ID w) as Hjson.
  destruct (StorageManager.get SESSION_ID w) as [[e|stored] w0];
    cbn [fst snd] in *; subst w0; [intros H; discriminate H|].
  destruct (truthy stored) eqn:Hs.
  - unfold bind at 1.
    destruct (isSessionValid_from_json stored w (Hjson _ eq_refl) Hs) as [[msg ->]| ->];
      [intros H; discriminate H|].
    unfold bind.
    destruct (SessionManager.createNewSession VUndefined VUndefined w) as [[e|s] w2];
      [intros H; discriminate H|].
    intros [= <-]. now exists s.
  - unfold bind.
    destruct (SessionManager.createNewSession VUndefined VUndefined w) as [[e|s] w2];
      [intros H; discriminate H|].
    intros [= <-]. now exists s.
Qed.

Lemma storage_initialize_eq w :
  StorageManager.initialize w =
  (inr tt, set_storage (delete (full_key w "test") (storage w)) w).
Proof. reflexivity. Qed.

(** [UserManager.initialize] leaves the configuration and the session
    key alone, and what it throws is a plain error object. *)
Lemma user_initialize_frame w :
  let r := UserManager.initialize w in
  config r.2 = config w
  /\ storage r.2 !! full_key w SESSION_ID = storage w !! full_key w SESSION_ID
  /\ forall e, r.1 = inl e -> message_of e = "[object Object]".
Proof.
  cbv zeta. unfold UserManager.initialize, try_catch. unfold bind.
  pose proof (get_reads_only USER_ID w) as Hread.
  destruct (StorageManager.get USER_ID w) as [[e|stored] w0];
    cbn [fst snd] in *; subst w0.
  - repeat split. now intros e' [= <-].
  - destruct (truthy stored).
    + repeat split. intros e' H. discriminate H.
    + rewrite createAnonymousUser_eq. cbv zeta.
      destruct (fits w _); cbn [fst snd].
      * split; [reflexivity|]. split; [|intros e' H; discriminate H].
        cbn. apply lookup_insert_ne.
        intros H. apply (full_key_inj w) in H. discriminate H.
      * repeat split. now intros e' [= <-].
Qed.

Lemma sdk_initialize_eq w :
  AdquimoSDK.initialize w =
  let failed (e : exn) (w' : world) :=
    (inl (AdquimoSDK.sdkError "INITIALIZATION_ERROR" e),
     logged ((fun h => CallOnError h (AdquimoSDK.sdkError "INITIALIZATION_ERROR" e))
               <$> onError (callbacks w')) w') in
  let wa := set_storage (delete (full_key w "test") (storage w)) w in
  match UserManager.initialize wa with
  | (inl e, wb) => failed e wb
  | (inr _, wb) =>
      match SessionManager.initialize wb with
      | (inl e, wc) => failed e wc
      | (inr _, wc) =>
          let wd := set_isInitialized true
                      (set_flushTimer (Some (nextTimer wc))
                         (set_intervals (nextTimer wc :: intervals wc)
                            (set_nextTimer (S (nextTimer wc)) wc))) in
          (inr tt,
           logged ((fun h => CallOnSuccess h (VStr "SDK initialized successfully"))
                     <$> onSuccess (callbacks wd)) wd)
      end
  end.
Proof.
  cbv zeta. unfold AdquimoSDK.initialize, try_catch. unfold bind at 1.
  rewrite storage_initialize_eq. unfold bind at 1.
  destruct (UserManager.initialize _) as [[e|u] wb].
  { unfold AdquimoSDK.callOnError, bind, gets, throw. now rewrite invoke_eq. }
  unfold bind at 1.
  destruct (SessionManager.initialize wb) as [[e|u2] wc].
  { unfold AdquimoSDK.callOnError, bind, gets, throw. now rewrite invoke_eq. }
  unfold AdquimoSDK.startEventFlushing, AdquimoSDK.callOnSuccess, setInterval,
    bind, gets, modify, ret. rewrite invoke_eq. reflexivity.
Qed.

(** X29. One initialization per storage.  Once [initialize] of the
    coordinator has returned, a session record is in storage, and from
    then on every [initialize] on a state with that storage and that
    storage configuration throws an [INITIALIZATION_ERROR]: a second
    call on the same instance, or the first call of a new instance
    built over the same web storage, at any later time.  The same
    holds of [SessionManager.initialize]. *)
Theorem X29_one_initialization_per_storage (w w1 : world) :
  (AdquimoSDK.initialize w = (inr tt, w1) ->
   forall w2,
     storage w2 = storage w1 ->
     storageConfig (config w2) = storageConfig (config w) ->
     (AdquimoSDK.initialize w2).1 =
     inl (Adquimo (mkError "INITIALIZATION_ERROR" "[object Object]")))
  /\ (SessionManager.initialize w = (inr tt, w1) ->
      forall w2,
        storage w2 = storage w1 ->
        storageConfig (config w2) = storageConfig (config w) ->
        exists msg,
          SessionManager.initialize w2 =
          (inl (Adquimo (mkError "SESSION_INIT_ERROR" msg)), w2)).
Proof.
  assert (Hsession : forall v v1,
            SessionManager.initialize v = (inr tt, v1) ->
            persisted_session v1 /\ config v1 = config v).
  { intros v v1 Hinit. destruct (session_initialize_returns v v1 Hinit) as [s Hs].
    exact (createNewSession_persists _ _ _ _ _ Hs). }
  split.
  - intros Hinit w2 Hstorage Hconfig.
    (* the first initialization left a session record *)
    assert (Hfirst : persisted_session w1
                     /\ storageConfig (config w1) = storageConfig (config w)).
    { rewrite sdk_initialize_eq in Hinit. cbv zeta in Hinit.
      pose proof (user_initialize_frame
                    (set_storage (delete (full_key w "test") (storage w)) w)) as Hu.
      cbv zeta in Hu.
      destruct (UserManager.initialize _) as [[e|u] wb];
        [rewrite invoke_eq in Hinit || idtac; discriminate Hinit|].
      cbn [fst snd] in Hu. destruct Hu as (Hcb & _ & _).
      pose proof (Hsession wb) as Hs.
      destruct (SessionManager.initialize wb) as [[e|[]] wc]; [discriminate Hinit|].
      destruct (Hs wc eq_refl) as [Hp Hc].
      injection Hinit as <-. split.
      - revert Hp. apply persisted_session_same.
        + destruct (onSuccess (callbacks _)); reflexivity.
        + destruct (onSuccess (callbacks _)); reflexivity.
      - destruct (onSuccess (callbacks _)); cbn; now rewrite Hc, Hcb. }
    destruct Hfirst as [Hp1 Hc1].
    assert (Hprefix : forall v, storageConfig (config v) = storageConfig (config w) ->
                                forall k, full_key v k = full_key w k).
    { intros v Hv k. unfold full_key, StorageManager.cfg. now rewrite Hv. }
    assert (Hp2 : persisted_session w2).
    { revert Hp1. apply persisted_session_same.
      - unfold StorageManager.cfg. now rewrite Hconfig, Hc1.
      - now rewrite Hstorage. }
    (* the second one runs into it *)
    rewrite sdk_initialize_eq. cbv zeta.
    pose proof (user_initialize_frame
                  (set_storage (delete (full_key w2 "test") (storage w2)) w2)) as Hu.
    cbv zeta in Hu.
    destruct (UserManager.initialize _) as [[e|u] wb]; cbn [fst snd] in Hu.
    + destruct Hu as (_ & _ & He). cbn [fst].
      unfold AdquimoSDK.sdkError, createError. now rewrite (He e eq_refl).
    + destruct Hu as (Hcb & Hsb & _).
      assert (Hpb : persisted_session wb).
      { revert Hp2. apply persisted_session_same.
        - unfold StorageManager.cfg. now rewrite Hcb.
        - change (full_key (set_storage _ w2) SESSION_ID)
            with (full_key w2 SESSION_ID) in Hsb.
          rewrite Hsb. cbn. apply lookup_delete_ne.
          intros H. apply full_key_inj in H. discriminate H. }
      destruct (persisted_session_blocks wb Hpb) as [msg ->]. reflexivity.
  - intros Hinit w2 Hstorage Hconfig.
    destruct (Hsession w w1 Hinit) as [Hp Hc].
    apply persisted_session_blocks. revert Hp. apply persisted_session_same.
    + unfold StorageManager.cfg. now rewrite Hconfig, Hc.
    + unfold full_key, StorageManager.cfg. now rewrite Hc, Hstorage.
Qed.

(** ** The key that the storage test uses *)





Example initialize_erases_what_the_application_stored :
  let w := (StorageManager.set "test" (VStr "mine") None (Demo.fresh Demo.accepting)).2 in
  (StorageManager.get "test" w).1 = inr (VStr "mine")
  /\ (StorageManager.get "test" (AdquimoSDK.initialize w).2).1 = inr VNull.
Proof. vm_compute. repeat split. Qed.
